(** * The cross-boundary execution bridge of the TypeScript SDK

    A shallow embedding of the bridge between guest logic and the host:
    the UTF-8 polyfills ([src/internal/polyfills.ts]), the arena adapter
    ([src/internal/memory.ts]), the host calls ([src/host.ts]), the
    entry-point driver ([src/index.ts]) and the wrapper that the build
    tool generates around the user application ([cli/build.js]).

    JavaScript is modelled as follows.
    - A string is its sequence of UTF-16 code units, a [Uint8Array] is a
      list of octets, a number that holds an offset or a length is a [Z].
    - Every function runs in a monad that threads the state, returns an
      outcome (a value, a thrown value, or no return at all) and collects
      the calls made across the foreign boundary, each with its answer.
    - The host (the [__wasm] and [__host] objects and the two asyncify
      functions) is a parameter: a state type and an answer to each call.
    - [JSON.stringify], [JSON.parse] and the string conversion done by
      [new Error] are built-ins of the engine and are parameters too,
      and so are the [TextEncoder] and [TextDecoder] of the global
      scope, which the arena adapter and the driver instantiate. *)

From Stdlib Require Import ZArith List String Ascii Bool Lia.
From stdpp Require Import base tactics option list gmap strings pretty.

Local Open Scope Z_scope.
Set Warnings "-register-all".

(** ** Values *)

(** A JavaScript string: UTF-16 code units. *)
Definition jsstring : Type := list Z.

(** An ASCII literal of the source as a JavaScript string. *)
Definition js (s : string) : jsstring :=
  (fun a => Z.of_N (N_of_ascii a)) <$> list_ascii_of_string s.

(** A number inside a template literal: its decimal digits. *)
Definition num (n : Z) : jsstring := js (pretty n).

(** The values that cross the bridge: JSON data, [undefined], and error
    objects (only their [name] and [message] are kept). *)
Inductive jsval : Type :=
| JUndefined
| JNull
| JBool (b : bool)
| JNum (n : Z)
| JStr (s : jsstring)
| JArr (items : list jsval)
| JObj (fields : list (jsstring * jsval))
| JError (name : jsstring) (message : jsstring).

(** [new Error(message)], [new TypeError(message)], [new RangeError(..)]. *)
Definition Error (message : jsstring) : jsval := JError (js "Error") message.
Definition TypeError (message : jsstring) : jsval := JError (js "TypeError") message.
Definition RangeError (message : jsstring) : jsval := JError (js "RangeError") message.

(** [!v] is [negb (truthy v)]. *)
Definition truthy (v : jsval) : bool :=
  match v with
  | JUndefined | JNull => false
  | JBool b => b
  | JNum n => negb (n =? 0)
  | JStr s => negb (Nat.eqb (length s) 0)
  | JArr _ | JObj _ | JError _ _ => true
  end.

(** [a ?? b]. *)
Definition nullish (v : jsval) : bool :=
  match v with
  | JUndefined | JNull => true
  | _ => false
  end.

Definition coalesce (a b : jsval) : jsval := if nullish a then b else a.

(** [v === 'text'] *)
Definition is_text (v : jsval) (text : jsstring) : bool :=
  match v with
  | JStr s => bool_decide (s = text)
  | _ => false
  end.

Fixpoint lookup_field (k : jsstring) (fields : list (jsstring * jsval)) : jsval :=
  match fields with
  | [] => JUndefined
  | (k', v) :: rest => if decide (k = k') then v else lookup_field k rest
  end.

(** ** Outcomes, events and the monad *)

(** How a call ends: it returns, it throws, or it never comes back (a
    blocking host call that never returns, a promise that never settles). *)
Inductive outcome (A : Type) : Type :=
| Ret (a : A)
| Throw (e : jsval)
| Hang.
Arguments Ret {A} a.
Arguments Throw {A} e.
Arguments Hang {A}.

Definition outcome_map {A B} (f : A -> B) (o : outcome A) : outcome B :=
  match o with
  | Ret a => Ret (f a)
  | Throw e => Throw e
  | Hang => Hang
  end.

(** The foreign-boundary primitives, as declared in [global.d.ts]. *)
Inductive call : Type :=
| wasm_alloc (size : Z)
| wasm_clear_response_buffer
| wasm_dealloc (ptr size : Z)
| wasm_get_response_len
| wasm_get_response_ptr
| wasm_read_string (ptr len : Z)
| wasm_write_string (ptr : Z) (data : jsstring)
| host_call (namePtr nameLen paramsPtr paramsLen contextPtr contextLen : Z)
| host_cast (namePtr nameLen paramsPtr paramsLen contextPtr contextLen : Z)
| host_getContext (ptr : Z)
| host_getContextSize
| host_getExecutionResult (ptr : Z)
| host_getExecutionResultSize
| asyncify_get_state
| asyncify_stop_rewind.

(** The declared result type of each primitive. *)
Definition answer (c : call) : Type :=
  match c with
  | wasm_alloc _ | wasm_get_response_len | wasm_get_response_ptr
  | host_getContextSize | host_getExecutionResultSize
  | asyncify_get_state => Z
  | wasm_read_string _ _ => jsstring
  | _ => unit
  end.

(** Answers, untyped, as they are recorded. *)
Inductive retval : Type :=
| RUnit
| RNum (n : Z)
| RStr (s : jsstring).

Definition record_answer (c : call) : answer c -> retval :=
  match c return answer c -> retval with
  | wasm_alloc _ | wasm_get_response_len | wasm_get_response_ptr
  | host_getContextSize | host_getExecutionResultSize
  | asyncify_get_state => RNum
  | wasm_read_string _ _ => RStr
  | _ => fun _ => RUnit
  end.

(** What an observer of the boundary sees. *)
Inductive event : Type :=
| Ev (c : call) (r : outcome retval)
| ConsoleError (message : jsstring) (error : jsval)
| ConsoleWarn (message : jsstring).

(** The environment of a program instance. The host is a state and its
    answer to each primitive. [global_encode] and [global_decode] are
    [encode] of the [TextEncoder] and [decode] of the [TextDecoder] that
    the global scope holds: those of the engine, or the polyfills where
    the engine has none and [global.ts] has installed them. *)
Record HostImpl : Type := {
  hstate : Type;
  respond : forall c : call, hstate -> outcome (answer c) * hstate;
  global_encode : jsstring -> list Z;
  global_decode : list Z -> outcome jsstring
}.

Record Run (S A : Type) : Type := MkRun {
  out : outcome A;
  st : S;
  evs : list event
}.
Arguments MkRun {S A} out st evs.
Arguments out {S A} r.
Arguments st {S A} r.
Arguments evs {S A} r.

Definition M (S A : Type) : Type := S -> Run S A.

Definition ret {S A} (a : A) : M S A := fun s => MkRun (Ret a) s [].

Definition throw {S A} (e : jsval) : M S A := fun s => MkRun (Throw e) s [].

Definition hang {S A} : M S A := fun s => MkRun Hang s [].

Definition bind {S A B} (m : M S A) (k : A -> M S B) : M S B :=
  fun s =>
    let r := m s in
    match out r with
    | Ret a => let r' := k a (st r) in MkRun (out r') (st r') (evs r ++ evs r')
    | Throw e => MkRun (Throw e) (st r) (evs r)
    | Hang => MkRun Hang (st r) (evs r)
    end.

Declare Scope js_scope.
Delimit Scope js_scope with js.
Notation "x <- m ;; k" := (bind m (fun x => k))
  (at level 100, m at next level, right associativity) : js_scope.
Notation "m ;; k" := (bind m (fun _ => k))
  (at level 100, right associativity) : js_scope.
Local Open Scope js_scope.

(** [try { m } finally { f }]: [f] runs whenever [m] comes back, and an
    abrupt end of [f] replaces the outcome of [m]. *)
Definition try_finally {S A} (m : M S A) (f : M S unit) : M S A :=
  fun s =>
    let r := m s in
    match out r with
    | Hang => MkRun Hang (st r) (evs r)
    | o =>
      let r' := f (st r) in
      match out r' with
      | Ret _ => MkRun o (st r') (evs r ++ evs r')
      | Throw e => MkRun (Throw e) (st r') (evs r ++ evs r')
      | Hang => MkRun Hang (st r') (evs r ++ evs r')
      end
    end.

(** [try { m } catch (e) { h e }]. *)
Definition try_catch {S A} (m : M S A) (h : jsval -> M S A) : M S A :=
  fun s =>
    let r := m s in
    match out r with
    | Throw e => let r' := h e (st r) in MkRun (out r') (st r') (evs r ++ evs r')
    | _ => r
    end.

(** The [let] variables of a function body live next to the state, so
    that a [finally] or [catch] block reads what the [try] block wrote. *)
Definition with_locals {L S A} (init : L) (m : M (L * S) A) : M S A :=
  fun s => let r := m (init, s) in MkRun (out r) (snd (st r)) (evs r).

Definition lift {L S A} (m : M S A) : M (L * S) A :=
  fun ls => let r := m (snd ls) in MkRun (out r) (fst ls, st r) (evs r).

Definition get_locals {L S} : M (L * S) L :=
  fun ls => MkRun (Ret (fst ls)) ls [].

Definition set_locals {L S} (f : L -> L) : M (L * S) unit :=
  fun ls => MkRun (Ret tt) (f (fst ls), snd ls) [].

(** A call made from a block nested in a function with variables. *)
Definition up {L1 L2 S A} (m : M S A) : M (L1 * (L2 * S)) A := lift (lift m).

Definition of_outcome {S A} (o : outcome A) : M S A := fun s => MkRun o s [].

Definition emit {S} (e : event) : M S unit := fun s => MkRun (Ret tt) s [e].

Definition console_error {S} (message : jsstring) (error : jsval) : M S unit :=
  emit (ConsoleError message error).

Definition console_warn {S} (message : jsstring) : M S unit :=
  emit (ConsoleWarn message).

(** ** The polyfills ([src/internal/polyfills.ts]) *)

Module Polyfills.

(** [str.codePointAt(i)] for [i] inside the string. *)
Definition codePointAt (str : jsstring) (i : nat) : Z :=
  let first := nth i str 0 in
  if (0xD800 <=? first) && (first <=? 0xDBFF) && (S i <? length str)%nat then
    let second := nth (S i) str 0 in
    if (0xDC00 <=? second) && (second <=? 0xDFFF)
    then (first - 0xD800) * 0x400 + (second - 0xDC00) + 0x10000
    else first
  else first.

(** [String.fromCodePoint(codePoint)]. *)
Definition fromCodePoint (codePoint : Z) : outcome jsstring :=
  if (codePoint <? 0) || (0x10FFFF <? codePoint)
  then Throw (RangeError (js "Invalid code point " ++ num codePoint))
  else if codePoint <=? 0xFFFF then Ret [codePoint]
  else Ret [0xD800 + Z.shiftr (codePoint - 0x10000) 10;
            0xDC00 + Z.land (codePoint - 0x10000) 0x3FF].

(** Storing a number into a [Uint8Array] keeps its low eight bits. *)
Definition to_uint8 (n : Z) : Z := n mod 256.

(** The inner loop of [encode]: [while (c >= 0) { push; c -= 6 }]. It
    starts from at most [12], so three rounds are enough. *)
Fixpoint encode_trail (rounds : nat) (codePoint c : Z) : list Z :=
  match rounds with
  | O => []
  | S rounds' =>
    if 0 <=? c
    then Z.lor 0x80 (Z.land (Z.shiftr codePoint c) 0x3F)
         :: encode_trail rounds' codePoint (c - 6)
    else []
  end.

(** The octets pushed for one code point. *)
Definition encode_codePoint (codePoint : Z) : list Z :=
  let '(c, bits) :=
    if codePoint <=? 0x0000007F then (0, 0x00)
    else if codePoint <=? 0x000007FF then (6, 0xC0)
    else if codePoint <=? 0x0000FFFF then (12, 0xE0)
    else if codePoint <=? 0x001FFFFF then (18, 0xF0)
    else (0, 0) in
  Z.lor bits (Z.shiftr codePoint c) :: encode_trail 3 codePoint (c - 6).

(** The outer loop of [encode], from index [i] with [octets] pushed so
    far; [fuel] bounds the number of rounds. *)
Fixpoint encode_loop (fuel : nat) (str : jsstring) (i : nat) (octets : list Z)
  : list Z :=
  match fuel with
  | O => octets
  | S fuel' =>
    if (i <? length str)%nat then
      let codePoint := codePointAt str i in
      encode_loop fuel' str
        (i + (if (0x10000 <=? codePoint)%Z then 2 else 1))%nat
        (octets ++ encode_codePoint codePoint)
    else octets
  end.

(** [new TextEncoder().encode(str)]. Every round advances [i], so
    [length str] rounds reach the end of the string. *)
Definition TextEncoder_encode (str : jsstring) : list Z :=
  to_uint8 <$> encode_loop (length str) str 0 [].

(** The inner loop of [decode]: fold the [bytesNeeded] continuation
    octets after index [i] into the code point. *)
Fixpoint decode_trail (rounds : nat) (octets : list Z) (i k : nat) (codePoint : Z)
  : Z :=
  match rounds with
  | O => codePoint
  | S rounds' =>
    let octet := nth (i + k + 1) octets 0 in
    decode_trail rounds' octets i (S k)
      (Z.lor (Z.shiftl codePoint 6) (Z.land octet 0x3F))
  end.

(** The outer loop of [decode]. Running out of [fuel] is reported as no
    return; [TextDecoder_decode] gives enough fuel. *)
Fixpoint decode_loop (fuel : nat) (octets : list Z) (i : nat) (string : jsstring)
  : outcome jsstring :=
  match fuel with
  | O => if (i <? length octets)%nat then Hang else Ret string
  | S fuel' =>
    if (i <? length octets)%nat then
      let octet := nth i octets 0 in
      let '(bytesNeeded, codePoint) :=
        if octet <=? 0x7F then (0%nat, Z.land octet 0xFF)
        else if octet <=? 0xDF then (1%nat, Z.land octet 0x1F)
        else if octet <=? 0xEF then (2%nat, Z.land octet 0x0F)
        else if octet <=? 0xF4 then (3%nat, Z.land octet 0x07)
        else (0%nat, 0) in
      let '(bytesNeeded, codePoint) :=
        if (0 <? Z.of_nat (length octets) - Z.of_nat i - Z.of_nat bytesNeeded)
        then (bytesNeeded, decode_trail bytesNeeded octets i 0 codePoint)
        else ((length octets - i)%nat, 0xFFFD) in
      match fromCodePoint codePoint with
      | Ret s => decode_loop fuel' octets (i + bytesNeeded + 1)%nat (string ++ s)
      | Throw e => Throw e
      | Hang => Hang
      end
    else Ret string
  end.

(** [new TextDecoder('utf-8').decode(octets)]. *)
Definition TextDecoder_decode (octets : list Z) : outcome jsstring :=
  decode_loop (length octets) octets 0 [].

(** [encoder.encodeInto(str, destination)]. The state is the content of
    [destination], which [destination.set] overwrites from its start;
    the result is the pair of [read] and [written]. *)
Definition TextEncoder_encodeInto (str : jsstring) : M (list Z) (nat * nat) :=
  fun destination =>
    let bytes := TextEncoder_encode str in
    let written := Nat.min (length bytes) (length destination) in
    let destination' := take written bytes ++ drop written destination in
    if (length destination <? length bytes)%nat then
      match TextDecoder_decode destination' with
      | Ret s => MkRun (Ret (length s, written)) destination' []
      | Throw e => MkRun (Throw e) destination' []
      | Hang => MkRun Hang destination' []
      end
    else MkRun (Ret (length str, written)) destination' [].

End Polyfills.

(** ** The state of a program instance *)

(** A promise, by the state it settles in; [Pending] never settles. The
    effects of the code behind a promise are attributed to the call that
    created it. *)
Inductive promise : Type :=
| Fulfilled (value : jsval)
| Rejected (reason : jsval)
| Pending.

(** [await p]. *)
Definition await {S} (p : promise) : M S jsval :=
  match p with
  | Fulfilled v => ret v
  | Rejected e => throw e
  | Pending => hang
  end.

(** The objects [{ promise: ... }] created by the build wrapper live in a
    store, so that the wrapper's own reference and the global one alias. *)
Definition loc : Type := positive.

Record World (H : HostImpl) : Type := MkWorld {
  host_st : hstate H;
  (** [globalThis.__SIMPLE_PROMISE_CHANNEL__]: absent, or a reference *)
  promise_channel : option loc;
  (** the [promise] field of each channel object; [None] is [null] *)
  channels : gmap loc (option promise);
  (** [globalThis.__SIMPLE_INITIAL_PAYLOAD__], [JUndefined] when absent *)
  initial_payload : jsval
}.
Arguments MkWorld {H} host_st promise_channel channels initial_payload.
Arguments host_st {H} w.
Arguments promise_channel {H} w.
Arguments channels {H} w.
Arguments initial_payload {H} w.

Definition with_host {H} (w : World H) (h : hstate H) : World H :=
  MkWorld h (promise_channel w) (channels w) (initial_payload w).

Definition with_promise_channel {H} (w : World H) (c : option loc) : World H :=
  MkWorld (host_st w) c (channels w) (initial_payload w).

Definition with_channels {H} (w : World H) (m : gmap loc (option promise))
  : World H :=
  MkWorld (host_st w) (promise_channel w) m (initial_payload w).

(** A call across the foreign boundary: the host answers from its state,
    and the call is recorded with its answer. *)
Definition prim {H} (c : call) : M (World H) (answer c) :=
  fun w =>
    let r := respond H c (host_st w) in
    MkRun (fst r) (with_host w (snd r))
          [Ev c (outcome_map (record_answer c) (fst r))].

(** ** The arena adapter ([src/internal/memory.ts]) *)

Module memory.
Section memory.
Context {H : HostImpl}.

(** [encoder] and [decoder] are instances of the [TextEncoder] and the
    [TextDecoder] of the global scope, created when the module is
    loaded; the arena adapter does not choose the implementation. *)
Definition encoder_encode : jsstring -> list Z := global_encode H.
Definition decoder_decode : list Z -> outcome jsstring := global_decode H.

Definition allocate (size : Z) : M (World H) Z :=
  prim (wasm_alloc size).

Definition deallocate (ptr size : Z) : M (World H) unit :=
  prim (wasm_dealloc ptr size).

Definition readBufferSlice (ptr len : Z) : M (World H) (list Z) :=
  if len =? 0 then ret []
  else
    try_catch
      (str <- prim (wasm_read_string ptr len);;
       ret (encoder_encode str))
      (fun error =>
         console_error
           (js "Memory read failed at ptr=" ++ num ptr ++ js ", len="
              ++ num len ++ js ":") error;;
         ret []).

Definition readString (ptr len : Z) : M (World H) jsstring :=
  if len =? 0 then ret []
  else
    try_catch
      (prim (wasm_read_string ptr len))
      (fun error =>
         console_error
           (js "String read failed at ptr=" ++ num ptr ++ js ", len="
              ++ num len ++ js ":") error;;
         ret []).

Definition stringToPtr (str : jsstring) : M (World H) (Z * Z) :=
  if Nat.eqb (length str) 0 then
    ptr <- allocate 0;;
    ret (ptr, 0)
  else
    let bytes := encoder_encode str in
    ptr <- allocate (Z.of_nat (length bytes));;
    prim (wasm_write_string ptr str);;
    ret (ptr, Z.of_nat (length bytes)).

End memory.
End memory.

(** ** The host calls ([src/host.ts]) *)

Module host.

(** The variables of [execute] that its outer [finally] block reads. *)
Record param_frame : Type := MkParams {
  actionNamePtr : Z;
  actionNameLen : Z;
  paramsPtr : Z;
  paramsLen : Z;
  contextPtr : Z;
  contextLen : Z
}.

Definition set_actionName (p : Z * Z) (l : param_frame) : param_frame :=
  MkParams (fst p) (snd p) (paramsPtr l) (paramsLen l) (contextPtr l) (contextLen l).

Definition set_params (p : Z * Z) (l : param_frame) : param_frame :=
  MkParams (actionNamePtr l) (actionNameLen l) (fst p) (snd p)
           (contextPtr l) (contextLen l).

Definition set_context (p : Z * Z) (l : param_frame) : param_frame :=
  MkParams (actionNamePtr l) (actionNameLen l) (paramsPtr l) (paramsLen l)
           (fst p) (snd p).

(** [responsePtr]/[responseLen] of the asyncify path and
    [resultPtr]/[resultLen] of the synchronous path. *)
Record result_frame : Type := MkResult {
  resultPtr : Z;
  resultLen : Z
}.

Definition set_resultPtr (p : Z) (l : result_frame) : result_frame :=
  MkResult p (resultLen l).

Definition set_resultLen (n : Z) (l : result_frame) : result_frame :=
  MkResult (resultPtr l) n.

(** [{ error: { message: 'Host returned an empty result.' }, ok: false }] *)
Definition empty_result_response : jsval :=
  JObj [(js "error", JObj [(js "message", JStr (js "Host returned an empty result."))]);
        (js "ok", JBool false)].

Section host.
Context {H : HostImpl}.

(** [JSON.stringify] and [JSON.parse] of the engine; [JSON.stringify]
    answers [None] where it gives [undefined] instead of text. *)
Variable JSON_stringify : jsval -> outcome (option jsstring).
Variable JSON_parse : jsstring -> outcome jsval.

(** [stringToPtr(x)] for the result [x] of [JSON.stringify]: reading
    [.length] of [undefined] throws. *)
Definition stringToPtr_json (x : option jsstring) : M (World H) (Z * Z) :=
  match x with
  | Some str => memory.stringToPtr str
  | None => throw (TypeError (js "cannot read property 'length' of undefined"))
  end.

(** The build-time constant [__ASYNC_BUILD__]. *)
Variable ASYNC_BUILD : bool.

(** [if (ptr > 0) deallocate(ptr, len)] *)
Definition release (ptr len : Z) : M (World H) unit :=
  if 0 <? ptr then memory.deallocate ptr len else ret tt.

(** The inner [finally] blocks, lines 73 to 78 and 107 to 112. *)
Definition release_result : M (result_frame * (param_frame * World H)) unit :=
  r <- get_locals;;
  up (release (resultPtr r) (resultLen r)).

(** Lines 59 to 71: the response that the host has staged is read,
    the staging slot cleared, and the text parsed. *)
Definition read_staged_response : M (result_frame * (param_frame * World H)) jsval :=
  responsePtr <- up (prim wasm_get_response_ptr);;
  set_locals (set_resultPtr responsePtr);;
  responseLen <- up (prim wasm_get_response_len);;
  set_locals (set_resultLen responseLen);;
  resultBytes <- up (memory.readBufferSlice responsePtr responseLen);;
  resultJSON <- of_outcome (memory.decoder_decode (H := H) resultBytes);;
  up (prim wasm_clear_response_buffer);;
  of_outcome (JSON_parse resultJSON).

(** The asyncify-aware path, lines 40 to 78. *)
Definition execute_asyncify : M (param_frame * World H) jsval :=
  with_locals (MkResult 0 0)
    (try_finally
       (p <- lift get_locals;;
        state <- up (prim asyncify_get_state);;
        (if state =? 2
         then up (prim asyncify_stop_rewind)
         else up (prim (host_call (actionNamePtr p) (actionNameLen p)
                                  (paramsPtr p) (paramsLen p)
                                  (contextPtr p) (contextLen p))));;
        read_staged_response)
       release_result).

(** Lines 95 to 105: a buffer of the announced length is allocated,
    the host writes the result into it, and the text is parsed. *)
Definition fetch_result (resultLen : Z)
  : M (result_frame * (param_frame * World H)) jsval :=
  resultPtr <- up (memory.allocate resultLen);;
  set_locals (set_resultPtr resultPtr);;
  up (prim (host_getExecutionResult resultPtr));;
  resultBytes <- up (memory.readBufferSlice resultPtr resultLen);;
  resultJSON <- of_outcome (memory.decoder_decode (H := H) resultBytes);;
  of_outcome (JSON_parse resultJSON).

(** The synchronous path, lines 82 to 112. *)
Definition execute_synchronous : M (param_frame * World H) jsval :=
  with_locals (MkResult 0 0)
    (try_finally
       (p <- lift get_locals;;
        up (prim (host_call (actionNamePtr p) (actionNameLen p)
                            (paramsPtr p) (paramsLen p)
                            (contextPtr p) (contextLen p)));;
        resultLen <- up (prim host_getExecutionResultSize);;
        set_locals (set_resultLen resultLen);;
        if resultLen =? 0 then ret empty_result_response
        else fetch_result resultLen)
       release_result).

(** Lines 31 to 36: the three parameters are written into the arena
    and their handles recorded. *)
Definition marshal (actionName : jsstring) (params context : jsval)
  : M (param_frame * World H) unit :=
  paramsJSON <- of_outcome (JSON_stringify (coalesce params JNull));;
  contextJSON <- of_outcome (JSON_stringify context);;
  p <- lift (memory.stringToPtr actionName);;
  set_locals (set_actionName p);;
  p <- lift (stringToPtr_json paramsJSON);;
  set_locals (set_params p);;
  p <- lift (stringToPtr_json contextJSON);;
  set_locals (set_context p).

(** Lines 38 to 113: the step of the regime chosen at build time. *)
Definition regime_step : M (param_frame * World H) jsval :=
  if ASYNC_BUILD then execute_asyncify else execute_synchronous.

(** The outer [try] block of [execute], lines 31 to 113. *)
Definition execute_body (actionName : jsstring) (params context : jsval)
  : M (param_frame * World H) jsval :=
  marshal actionName params context;;
  regime_step.

(** The outer [finally] block of [execute], lines 116 to 127. *)
Definition execute_finally : M (param_frame * World H) unit :=
  p <- get_locals;;
  lift (release (actionNamePtr p) (actionNameLen p));;
  lift (release (paramsPtr p) (paramsLen p));;
  lift (release (contextPtr p) (contextLen p)).

Definition execute_frame (actionName : jsstring) (params context : jsval)
  : M (param_frame * World H) jsval :=
  try_finally (execute_body actionName params context) execute_finally.

Definition execute (actionName : jsstring) (params context : jsval)
  : M (World H) jsval :=
  with_locals (MkParams 0 0 0 0 0 0) (execute_frame actionName params context).

Definition executeAsync (actionName : jsstring) (params context : jsval)
  : M (World H) unit :=
  paramsJSON <- of_outcome (JSON_stringify (coalesce params JNull));;
  contextJSON <- of_outcome (JSON_stringify context);;
  a <- memory.stringToPtr actionName;;
  p <- stringToPtr_json paramsJSON;;
  c <- stringToPtr_json contextJSON;;
  prim (host_cast (fst a) (snd a) (fst p) (snd p) (fst c) (snd c)).

Definition getContext : M (World H) (list Z) :=
  size <- prim host_getContextSize;;
  if size =? 0 then ret []
  else
    ptr <- memory.allocate size;;
    try_finally
      (prim (host_getContext ptr);;
       memory.readBufferSlice ptr size)
      (memory.deallocate ptr size).

End host.
End host.

(** ** The host module of the worker bundle ([src/worker-override.js]) *)

Module worker_override.
Section worker_override.
Context {H : HostImpl}.

(** The stub that stands in for [getContext] inside the script worker. *)
Definition getContext : M (World H) (list Z) :=
  console_warn
    (js "getContext() was called in a script worker context, which is not supported.");;
  ret [].

End worker_override.
End worker_override.

(** ** The entry-point driver ([src/index.ts]) *)

Module index.

(** [v.k]: reading a property of [null] or [undefined] throws; the
    properties read by the driver are own properties of objects only. *)
Definition get_prop (v : jsval) (k : jsstring) : outcome jsval :=
  match v with
  | JUndefined | JNull =>
    Throw (TypeError (js "cannot read property '" ++ k ++ js "' of undefined"))
  | JObj fields => Ret (lookup_field k fields)
  | JError name message =>
    if decide (k = js "message") then Ret (JStr message)
    else if decide (k = js "name") then Ret (JStr name)
    else Ret JUndefined
  | _ => Ret JUndefined
  end.

(** The class [Request]. *)
Record Request : Type := MkRequest {
  context : jsval;
  headers : jsval;
  rawData : jsval
}.

Definition new_Request {S} (simpleRequest : jsval) : M S Request :=
  context <- of_outcome (get_prop simpleRequest (js "context"));;
  headers <- of_outcome (get_prop simpleRequest (js "headers"));;
  data <- of_outcome (get_prop simpleRequest (js "data"));;
  ret (MkRequest context headers (coalesce data (JStr []))).

(** [{ logic: { execution_id: 'unknown' } }] *)
Definition unknown_context : jsval :=
  JObj [(js "logic", JObj [(js "execution_id", JStr (js "unknown"))])].

(** [{ data: null, errors: [message], ok: false }] *)
Definition error_response (message : jsval) : jsval :=
  JObj [(js "data", JNull); (js "errors", JArr [message]); (js "ok", JBool false)].

(** [{ data, errors: [], ok: true }] *)
Definition success_response (data : jsval) : jsval :=
  JObj [(js "data", data); (js "errors", JArr []); (js "ok", JBool true)].

(** [!inputText] for the text (or [undefined]) read from the host. *)
Definition no_text (inputText : option jsstring) : bool :=
  match inputText with
  | None => true
  | Some s => negb (truthy (JStr s))
  end.

Definition text_of (inputText : option jsstring) : jsstring :=
  default [] inputText.

Section index.
Context {H : HostImpl}.

Variable JSON_stringify : jsval -> outcome (option jsstring).
Variable JSON_parse : jsstring -> outcome jsval.

(** The conversion of a value to the message of a [new Error(value)]. *)
Variable ToString : jsval -> jsstring.

(** The module that [import * as host from './host'] resolves to:
    [host.ts], or [worker-override.js] in the worker bundle. *)
Variable host_execute : jsstring -> jsval -> jsval -> M (World H) jsval.
Variable host_executeAsync : jsstring -> jsval -> jsval -> M (World H) unit.
Variable host_getContext : M (World H) (list Z).

(** The build-time constants; [None] is a constant left undefined. *)
Variable IS_WORKER_BUILD : option bool.
Variable ASYNC_BUILD : bool.
Variable USER_SCRIPT_BUNDLE : option jsstring.

(** [request.data()] *)
Definition Request_data (request : Request) : jsval := rawData request.

(** [request.parse()], lines 35 to 45; [JSON.parse] converts its
    argument to a string, and so does the template literal. *)
Definition Request_parse {S} (request : Request) : M S jsval :=
  if negb (truthy (rawData request)) then throw (Error (js "no data to parse"))
  else
    try_catch
      (of_outcome (JSON_parse (ToString (rawData request))))
      (fun e =>
         message <- of_outcome (get_prop e (js "message"));;
         throw (Error (js "failed to parse data: " ++ ToString message))).

(** A handler: the promise it returns (a plain result is a fulfilled
    promise), or the exception it throws before returning. *)
Definition Handler : Type := Request -> M (World H) promise.

Definition readInputFromHost : M (World H) (option jsstring) :=
  fun w =>
    if truthy (initial_payload w) then
      (request <- of_outcome (get_prop (initial_payload w) (js "request"));;
       of_outcome (JSON_stringify request)) w
    else
      (buffer <- host_getContext;;
       text <- of_outcome (memory.decoder_decode (H := H) buffer);;
       ret (Some text)) w.

Definition returnError (message : jsval) (context : jsval) : M (World H) unit :=
  let response := error_response message in
  let safeContext := coalesce context unknown_context in
  host_executeAsync (js "__done__") response safeContext.

Definition returnSuccess (data : jsval) (context : jsval) : M (World H) unit :=
  let response := success_response data in
  host_executeAsync (js "__done__") response context.

Definition get_promise_channel : M (World H) (option loc) :=
  fun w => MkRun (Ret (promise_channel w)) w [].

(** [c.promise = p] on the channel object at [c]. *)
Definition set_channel_promise (c : loc) (p : promise) : M (World H) unit :=
  fun w => MkRun (Ret tt) (with_channels w (<[c := Some p]> (channels w))) [].

(** Lines 80 to 108: inside the script worker. *)
Definition handle_worker (handler : Handler) : M (World H) jsval :=
  inputText <- readInputFromHost;;
  if no_text inputText then
    let error := Error (js "no input payload provided by the host environment") in
    ch <- get_promise_channel;;
    match ch with
    | Some c => set_channel_promise c (Rejected error)
    | None => ret tt
    end;;
    throw error
  else
    simpleReq <- of_outcome (JSON_parse (text_of inputText));;
    request <- new_Request simpleReq;;
    resultPromise <- handler request;;
    ch <- get_promise_channel;;
    match ch with
    | None =>
      throw (Error (js "CRITICAL: Script worker context is missing the promise channel."))
    | Some c =>
      set_channel_promise c resultPromise;;
      ret JUndefined
    end.

(** Lines 113 to 154: the [try] block of the other contexts; the local
    is the variable [context]. *)
Definition handle_try (handler : Handler) : M (jsval * World H) jsval :=
  inputText <- lift readInputFromHost;;
  if no_text inputText then
    lift (returnError (JStr (js "no input payload provided by the host environment"))
                      JUndefined);;
    ret JUndefined
  else
    simpleReq <- of_outcome (JSON_parse (text_of inputText));;
    context <- of_outcome (get_prop simpleReq (js "context"));;
    set_locals (fun _ => context);;
    if ASYNC_BUILD then
      match USER_SCRIPT_BUNDLE with
      | None =>
        throw (TypeError (js "CRITICAL: __USER_SCRIPT_BUNDLE__ is not defined in async build. Check the build script."))
      | Some bundle =>
        let payload := JObj [(js "request", simpleReq)] in
        result <- lift (host_execute (js "runtime/script:execute")
                          (JObj [(js "payload", payload); (js "script", JStr bundle)])
                          context);;
        ok <- of_outcome (get_prop result (js "ok"));;
        if negb (truthy ok) then
          error <- of_outcome (get_prop result (js "error"));;
          message <- (if nullish error then ret JUndefined
                      else of_outcome (get_prop error (js "message")));;
          throw (Error (ToString
                   (coalesce message (JStr (js "Unconstrained script execution failed")))))
        else
          data <- of_outcome (get_prop result (js "data"));;
          lift (returnSuccess data context);;
          ret JUndefined
      end
    else
      request <- new_Request simpleReq;;
      resultPromise <- lift (handler request);;
      result <- await resultPromise;;
      lift (returnSuccess result context);;
      ret JUndefined.

(** Lines 156 to 160: the [catch] block. *)
Definition handle_catch (e : jsval) : M (jsval * World H) jsval :=
  message <- of_outcome (get_prop e (js "message"));;
  context <- get_locals;;
  lift (returnError message context);;
  ret JUndefined.

Definition handle (handler : Handler) : M (World H) jsval :=
  match IS_WORKER_BUILD with
  | Some true => handle_worker handler
  | _ => with_locals JUndefined (try_catch (handle_try handler) handle_catch)
  end.

End index.
End index.

(** ** The wrapper around the user application ([cli/build.js]) *)

Module build.
Section build.
Context {H : HostImpl}.

(** [const channel = { promise: null }]: a new object in the store. *)
Definition new_channel : M (World H) loc :=
  fun w =>
    let c := fresh (dom (channels w)) in
    MkRun (Ret c) (with_channels w (<[c := None]> (channels w))) [].

(** [globalThis.__SIMPLE_PROMISE_CHANNEL__ = channel] *)
Definition install_channel (channel : loc) : M (World H) unit :=
  fun w => MkRun (Ret tt) (with_promise_channel w (Some channel)) [].

(** [delete globalThis.__SIMPLE_PROMISE_CHANNEL__] *)
Definition delete_channel : M (World H) unit :=
  fun w => MkRun (Ret tt) (with_promise_channel w None) [].

(** [channel.promise] *)
Definition channel_promise (channel : loc) : M (World H) (option promise) :=
  fun w => MkRun (Ret (default None (channels w !! channel))) w [].

(** The function that [entryPointContent] exports; [user_application]
    is what [await import(...)] runs, the top-level code of the user. *)
Definition main_handler (user_application : M (World H) unit)
  : M (World H) jsval :=
  channel <- new_channel;;
  try_finally
    (install_channel channel;;
     user_application;;
     p <- channel_promise channel;;
     match p with
     | Some pending => await pending
     | None =>
       console_warn
         (js "SDK build warning: simple.Handle was not called by the user application.");;
       ret JUndefined
     end)
    delete_channel.

(** A call [f()] of an [async] function whose promise nobody awaits: a
    rejection stays with that promise. *)
Definition unawaited {A} (m : M (World H) A) : M (World H) unit :=
  try_catch (m;; ret tt) (fun _ => ret tt).

End build.
End build.

(** ** The host calls of the worker bundle ([src/worker-override.js]) *)

Module worker_host.

(** The state of the module inside the script worker. A promise created
    by [execute] lives in a store; the pair of [resolve] and [reject]
    kept for a request is the reference to its promise. *)
Record Worker : Type := MkWorker {
  (** the [Map] from request identifiers to waiting promises *)
  pendingHostRequests : gmap jsstring loc;
  promises : gmap loc promise;
  (** the messages given to [self.postMessage], oldest first *)
  posted : list jsval;
  (** how often [crypto.randomUUID] has been called *)
  uuid_calls : nat
}.

Definition with_pending (s : Worker) (m : gmap jsstring loc) : Worker :=
  MkWorker m (promises s) (posted s) (uuid_calls s).

Definition with_promises (s : Worker) (m : gmap loc promise) : Worker :=
  MkWorker (pendingHostRequests s) m (posted s) (uuid_calls s).

(** [new Promise(...)], before its executor runs. *)
Definition new_promise : M Worker loc :=
  fun s =>
    let p := fresh (dom (promises s)) in
    MkRun (Ret p) (with_promises s (<[p := Pending]> (promises s))) [].

(** [resolve(value)] and [reject(reason)]: only a pending promise settles. *)
Definition settle_promise (p : loc) (result : promise) : M Worker unit :=
  fun s =>
    match promises s !! p with
    | Some Pending => MkRun (Ret tt) (with_promises s (<[p := result]> (promises s))) []
    | _ => MkRun (Ret tt) s []
    end.

(** [self.postMessage(message)] *)
Definition postMessage (message : jsval) : M Worker unit :=
  fun s =>
    MkRun (Ret tt)
          (MkWorker (pendingHostRequests s) (promises s) (posted s ++ [message])
                    (uuid_calls s)) [].

(** [pendingHostRequests.set(requestId, { reject, resolve })] *)
Definition pending_set (requestId : jsstring) (p : loc) : M Worker unit :=
  fun s => MkRun (Ret tt) (with_pending s (<[requestId := p]> (pendingHostRequests s))) [].

(** [pendingHostRequests.get(requestId)]: the keys are strings. *)
Definition pending_get (requestId : jsval) : M Worker (option loc) :=
  fun s =>
    MkRun (Ret (match requestId with
                | JStr id => pendingHostRequests s !! id
                | _ => None
                end)) s [].

(** [pendingHostRequests.delete(requestId)] *)
Definition pending_delete (requestId : jsval) : M Worker unit :=
  fun s =>
    match requestId with
    | JStr id => MkRun (Ret tt) (with_pending s (delete id (pendingHostRequests s))) []
    | _ => MkRun (Ret tt) s []
    end.

(** The object literal of lines 38 to 44 and 59 to 65. *)
Definition hostRequest (actionName params context : jsval) : outcome jsval :=
  match index.get_prop context (js "logic") with
  | Ret logic =>
    match index.get_prop logic (js "execution_id") with
    | Ret execution_id =>
      Ret (JObj [(js "context", context); (js "executionId", execution_id);
                 (js "name", actionName); (js "params", params);
                 (js "type", JStr (js "hostRequest"))])
    | Throw e => Throw e
    | Hang => Hang
    end
  | Throw e => Throw e
  | Hang => Hang
  end.

Section worker_host.

(** The identifiers that [crypto.randomUUID] hands out, in order. *)
Variable randomUUID : nat -> jsstring.

(** The conversion of a value to the message of a [new Error(value)]. *)
Variable ToString : jsval -> jsstring.

Definition crypto_randomUUID : M Worker jsstring :=
  fun s =>
    MkRun (Ret (randomUUID (uuid_calls s)))
          (MkWorker (pendingHostRequests s) (promises s) (posted s) (S (uuid_calls s)))
          [].

(** [execute], lines 33 to 53; an exception of the executor rejects the
    promise. The result is the reference to the promise. *)
Definition execute (actionName params context : jsval) : M Worker loc :=
  p <- new_promise;;
  try_catch
    (requestId <- crypto_randomUUID;;
     pending_set requestId p;;
     request <- of_outcome (hostRequest actionName params context);;
     postMessage (JObj [(js "request", request); (js "requestId", JStr requestId);
                        (js "type", JStr (js "host_request"))]))
    (fun e => settle_promise p (Rejected e));;
  ret p.

(** [executeAsync], lines 58 to 72. *)
Definition executeAsync (actionName params context : jsval) : M Worker unit :=
  request <- of_outcome (hostRequest actionName params context);;
  postMessage (JObj [(js "request", request); (js "type", JStr (js "host_cast"))]).

(** The listener of lines 13 to 27, applied to [event.data]. *)
Definition on_message (message : jsval) : M Worker unit :=
  type <- of_outcome (index.get_prop message (js "type"));;
  if negb (is_text type (js "host_response")) then ret tt
  else
    requestId <- of_outcome (index.get_prop message (js "requestId"));;
    pending <- pending_get requestId;;
    match pending with
    | None => ret tt
    | Some p =>
      response <- of_outcome (index.get_prop message (js "response"));;
      ok <- of_outcome (index.get_prop response (js "ok"));;
      (if truthy ok then
         response <- of_outcome (index.get_prop message (js "response"));;
         settle_promise p (Fulfilled response)
       else
         response <- of_outcome (index.get_prop message (js "response"));;
         error <- of_outcome (index.get_prop response (js "error"));;
         settle_promise p
           (Rejected (Error (ToString (coalesce error (JStr (js "Unknown host error")))))));;
      requestId <- of_outcome (index.get_prop message (js "requestId"));;
      pending_delete requestId
    end.

End worker_host.
End worker_host.

(** ** String built-ins *)

(** The code units that [trim] removes: white space and line terminators. *)
Definition is_white_space (u : Z) : bool :=
  (u =? 0x09) || (u =? 0x0A) || (u =? 0x0B) || (u =? 0x0C) || (u =? 0x0D)
  || (u =? 0x20) || (u =? 0xA0) || (u =? 0x1680)
  || ((0x2000 <=? u) && (u <=? 0x200A))
  || (u =? 0x2028) || (u =? 0x2029) || (u =? 0x202F) || (u =? 0x205F)
  || (u =? 0x3000) || (u =? 0xFEFF).

Fixpoint trimStart (s : jsstring) : jsstring :=
  match s with
  | [] => []
  | u :: rest => if is_white_space u then trimStart rest else s
  end.

(** [s.trim()] *)
Definition trim (s : jsstring) : jsstring := rev (trimStart (rev (trimStart s))).

(** [s.startsWith(prefix)] *)
Fixpoint startsWith (s prefix : jsstring) : bool :=
  match prefix, s with
  | [], _ => true
  | p :: prefix', u :: s' => (p =? u) && startsWith s' prefix'
  | _ :: _, [] => false
  end.

(** [v.trim()] for a value [v]: only a string has the method. *)
Definition call_trim (v : jsval) : outcome jsstring :=
  match v with
  | JStr s => Ret (trim s)
  | JUndefined | JNull => Throw (TypeError (js "cannot read property 'trim' of undefined"))
  | _ => Throw (TypeError (js "trim is not a function"))
  end.

(** [!v || v.trim() === ''] *)
Definition blank (v : jsval) : outcome bool :=
  if negb (truthy v) then Ret true
  else
    match call_trim v with
    | Ret t => Ret (Nat.eqb (length t) 0)
    | Throw e => Throw e
    | Hang => Hang
    end.

(** A text between double quotes, as inside a message. *)
Definition quoted (s : jsstring) : jsstring := [34] ++ s ++ [34].

(** [error?.message] *)
Definition optional_message (error : jsval) : outcome jsval :=
  if nullish error then Ret JUndefined else index.get_prop error (js "message").

(** ** The service modules *)

(** [src/graphql.ts] *)
Module graphql.
Section graphql.
Context {S : Type}.

(** [hostExecute] is [execute] of [host.ts], or of the worker bundle. *)
Variable hostExecute : jsstring -> jsval -> jsval -> M S jsval.
Variable ToString : jsval -> jsstring.

(** [JSON.stringify(value, null, 2)] and [console.log(label, text)]. *)
Variable JSON_stringify_indented : jsval -> outcome (option jsstring).
Variable console_log : jsstring -> option jsstring -> M S unit.

Definition execute (query : jsstring) (variables context : jsval) : M S jsval :=
  if negb (truthy (JStr query)) then
    throw (Error (js "query is required for GraphQL execution"))
  else
    response <- hostExecute (js "action:db/execute")
                  (JObj [(js "query", JStr query); (js "variables", variables)]) context;;
    ok <- of_outcome (index.get_prop response (js "ok"));;
    if negb (truthy ok) then
      error <- of_outcome (index.get_prop response (js "error"));;
      text <- of_outcome (JSON_stringify_indented error);;
      console_log (js "[GraphQL] response.error:") text;;
      data <- of_outcome (index.get_prop response (js "data"));;
      text <- of_outcome (JSON_stringify_indented data);;
      console_log (js "[GraphQL] response.data:") text;;
      error <- of_outcome (index.get_prop response (js "error"));;
      message <- of_outcome (optional_message error);;
      throw (Error (ToString (coalesce message (JStr (js "GraphQL query failed")))))
    else of_outcome (index.get_prop response (js "data")).

Definition mutate (mutation : jsstring) (variables context : jsval) : M S jsval :=
  if negb (startsWith (trim mutation) (js "mutation")) then
    throw (Error (js "A query was passed to the `mutate` method. Use the `query` method instead."))
  else execute mutation variables context.

Definition query (query : jsstring) (variables context : jsval) : M S jsval :=
  if startsWith (trim query) (js "mutation") then
    throw (Error (js "A mutation was passed to the `query` method. Use the `mutate` method instead."))
  else execute query variables context.

End graphql.
End graphql.

(** [src/http.ts] *)
Module http.
Section http.
Context {S : Type}.

Variable hostExecute : jsstring -> jsval -> jsval -> M S jsval.
Variable ToString : jsval -> jsstring.
Variable JSON_stringify : jsval -> outcome (option jsstring).

(** The result of [JSON.stringify] as a value. *)
Definition text_value (text : option jsstring) : jsval :=
  match text with
  | Some t => JStr t
  | None => JUndefined
  end.

Definition fetch (request context : jsval) : M S jsval :=
  url <- of_outcome (index.get_prop request (js "url"));;
  if negb (truthy url) then throw (Error (js "URL is required for HTTP request"))
  else
    body <- of_outcome (index.get_prop request (js "body"));;
    body <- (if truthy body
             then text <- of_outcome (JSON_stringify body);; ret (text_value text)
             else ret JUndefined);;
    headers <- of_outcome (index.get_prop request (js "headers"));;
    method <- of_outcome (index.get_prop request (js "method"));;
    let hostRequest :=
      JObj [(js "body", body); (js "headers", headers);
            (js "method", coalesce method (JStr (js "GET"))); (js "url", url)] in
    response <- hostExecute (js "action:http/fetch") hostRequest context;;
    ok <- of_outcome (index.get_prop response (js "ok"));;
    if negb (truthy ok) then
      error <- of_outcome (index.get_prop response (js "error"));;
      message <- of_outcome (optional_message error);;
      throw (Error (ToString (coalesce message (JStr (js "HTTP request failed")))))
    else of_outcome (index.get_prop response (js "data")).

Definition del (url headers context : jsval) : M S jsval :=
  fetch (JObj [(js "headers", headers); (js "method", JStr (js "DELETE"));
               (js "url", url)]) context.

Definition get (url headers context : jsval) : M S jsval :=
  fetch (JObj [(js "headers", headers); (js "method", JStr (js "GET"));
               (js "url", url)]) context.

Definition patch (url body headers context : jsval) : M S jsval :=
  fetch (JObj [(js "body", body); (js "headers", headers);
               (js "method", JStr (js "PATCH")); (js "url", url)]) context.

Definition post (url body headers context : jsval) : M S jsval :=
  fetch (JObj [(js "body", body); (js "headers", headers);
               (js "method", JStr (js "POST")); (js "url", url)]) context.

Definition put (url body headers context : jsval) : M S jsval :=
  fetch (JObj [(js "body", body); (js "headers", headers);
               (js "method", JStr (js "PUT")); (js "url", url)]) context.

End http.
End http.

(** [src/settings.ts] *)
Module settings.
Section settings.
Context {S : Type}.

Variable hostExecute : jsstring -> jsval -> jsval -> M S jsval.
Variable ToString : jsval -> jsstring.

(** [!keys || keys.length === 0] for an array, or no value, of keys. *)
Definition no_keys (keys : jsval) : bool :=
  negb (truthy keys)
  || match keys with
     | JArr items => Nat.eqb (length items) 0
     | JStr s => Nat.eqb (length s) 0
     | JObj fields =>
       match lookup_field (js "length") fields with
       | JNum n => n =? 0
       | _ => false
       end
     | _ => false
     end.

Definition get (appId : jsstring) (keys context : jsval) : M S jsval :=
  if negb (truthy (JStr appId)) then
    throw (Error (js "appId is required for settings retrieval"))
  else if no_keys keys then
    throw (Error (js "setting keys are required for settings retrieval"))
  else
    response <- hostExecute (js "action:settings/get")
                  (JObj [(js "app_id", JStr appId); (js "keys", keys)]) context;;
    ok <- of_outcome (index.get_prop response (js "ok"));;
    if negb (truthy ok) then
      error <- of_outcome (index.get_prop response (js "error"));;
      message <- of_outcome (optional_message error);;
      throw (Error (ToString (coalesce message (JStr (js "Settings retrieval failed")))))
    else of_outcome (index.get_prop response (js "data")).

End settings.
End settings.

(** [src/storage.ts] *)
Module storage.
Section storage.
Context {S : Type}.

Variable hostExecute : jsstring -> jsval -> jsval -> M S jsval.
Variable ToString : jsval -> jsstring.

(** [if (!v.k || v.k.trim() === '') throw new Error(message)] *)
Definition require_text (v : jsval) (k : jsstring) (message : jsstring) : M S unit :=
  x <- of_outcome (index.get_prop v k);;
  b <- of_outcome (blank x);;
  if b then throw (Error message) else ret tt.

(** Lines 61 to 79: the checks of [source.auth]. *)
Definition validate_auth (auth : jsval) : M S unit :=
  type <- of_outcome (index.get_prop auth (js "type"));;
  if negb (is_text type (js "basic")) && negb (is_text type (js "bearer")) then
    throw (Error (js "Auth type must be either " ++ quoted (js "basic")
                    ++ js " or " ++ quoted (js "bearer")))
  else
    (if is_text type (js "bearer") then
       require_text auth (js "bearer_token")
         (js "Bearer token is required when auth type is " ++ quoted (js "bearer"))
     else ret tt);;
    if is_text type (js "basic") then
      require_text auth (js "username")
        (js "Username is required when auth type is " ++ quoted (js "basic"));;
      require_text auth (js "password")
        (js "Password is required when auth type is " ++ quoted (js "basic"))
    else ret tt.

Definition uploadExternal (source target context : jsval) : M S jsval :=
  require_text source (js "url") (js "Source URL is required and cannot be empty");;
  require_text target (js "app_id")
    (js "Target app_id is required and cannot be empty");;
  require_text target (js "table_name")
    (js "Target table_name is required and cannot be empty");;
  require_text target (js "field_name")
    (js "Target field_name is required and cannot be empty");;
  auth <- of_outcome (index.get_prop source (js "auth"));;
  (if truthy auth then validate_auth auth else ret tt);;
  response <- hostExecute (js "action:storage/upload-external")
                (JObj [(js "source", source); (js "target", target)]) context;;
  ok <- of_outcome (index.get_prop response (js "ok"));;
  if negb (truthy ok) then
    error <- of_outcome (index.get_prop response (js "error"));;
    message <- of_outcome (optional_message error);;
    throw (Error (ToString (coalesce message (JStr (js "External file upload failed")))))
  else of_outcome (index.get_prop response (js "data")).

End storage.
End storage.

(** ** A host to run the bridge against *)

Module mock.

(** The mock arena hands out increasing offsets and keeps the text
    written at each offset; a read returns that text when the length
    asked for is its UTF-8 length, and faults otherwise. A call on an
    asynchronous mock host unwinds: it does not return, and the next
    entry finds the suspend state Rewinding. *)
Record state : Type := MkState {
  next_ptr : Z;
  memory : gmap Z jsstring;
  (** the asyncify state: 0 normal, 2 rewinding *)
  suspend_state : Z;
  (** whether the host runs the operation of a call asynchronously, so
      that the call unwinds the stack instead of returning *)
  asynchronous : bool;
  (** the text of the result that the host has ready *)
  staged : jsstring;
  (** the text of the initial payload *)
  payload : jsstring
}.

Definition byte_length (s : jsstring) : Z :=
  Z.of_nat (length (Polyfills.TextEncoder_encode s)).

Definition fault : jsval := Error (js "memory access out of bounds").

(** Where the host stages the response of the asyncify path. *)
Definition response_ptr : Z := 4096.

Definition with_next (s : state) (n : Z) : state :=
  MkState n (memory s) (suspend_state s) (asynchronous s) (staged s) (payload s).

Definition store (s : state) (ptr : Z) (data : jsstring) : state :=
  MkState (next_ptr s) (<[ptr := data]> (memory s)) (suspend_state s)
          (asynchronous s) (staged s) (payload s).

Definition with_suspend (s : state) (n : Z) : state :=
  MkState (next_ptr s) (memory s) n (asynchronous s) (staged s) (payload s).

Definition answers (zero_size_ptr : Z) (c : call) (s : state)
  : outcome (answer c) * state :=
  match c as c0 return outcome (answer c0) * state with
  | wasm_alloc size =>
    if size =? 0 then (Ret zero_size_ptr, s)
    else (Ret (next_ptr s), with_next s (next_ptr s + size))
  | wasm_dealloc _ _ => (Ret tt, s)
  | wasm_write_string ptr data => (Ret tt, store s ptr data)
  | wasm_read_string ptr len =>
    match memory s !! ptr with
    | Some data => if byte_length data =? len then (Ret data, s) else (Throw fault, s)
    | None => (Throw fault, s)
    end
  | wasm_get_response_ptr => (Ret response_ptr, s)
  | wasm_get_response_len => (Ret (byte_length (staged s)), s)
  | wasm_clear_response_buffer => (Ret tt, s)
  | host_call _ _ _ _ _ _ =>
    if asynchronous s && (suspend_state s =? 0)
    then (Hang, with_suspend (store s response_ptr (staged s)) 2)
    else (Ret tt, store s response_ptr (staged s))
  | host_cast _ _ _ _ _ _ => (Ret tt, s)
  | host_getContext ptr => (Ret tt, store s ptr (payload s))
  | host_getContextSize => (Ret (byte_length (payload s)), s)
  | host_getExecutionResult ptr => (Ret tt, store s ptr (staged s))
  | host_getExecutionResultSize => (Ret (byte_length (staged s)), s)
  | asyncify_get_state => (Ret (suspend_state s), s)
  | asyncify_stop_rewind => (Ret tt, with_suspend s 0)
  end.

(** The mock host; [faulty] selects the calls that throw, and
    [zero_size_ptr] is the offset returned for a request of no bytes.
    Its engine has no [TextEncoder] and [TextDecoder] of its own: the
    global scope holds the polyfills. *)
Definition host (zero_size_ptr : Z) (faulty : call -> bool) : HostImpl :=
  {| hstate := state;
     respond := fun c s =>
       if faulty c then (Throw fault, s) else answers zero_size_ptr c s;
     global_encode := Polyfills.TextEncoder_encode;
     global_decode := Polyfills.TextDecoder_decode |}.

Definition sound : call -> bool := fun _ => false.

Definition faulty_reads (c : call) : bool :=
  match c with
  | wasm_read_string _ _ => true
  | _ => false
  end.

Definition start {zero_size_ptr faulty} (suspend : Z) (staged payload : jsstring)
  : World (host zero_size_ptr faulty) :=
  MkWorld (H := host zero_size_ptr faulty)
          (MkState 16 ∅ suspend false staged payload) None ∅ JUndefined.

(** The same, on a host that runs the operations asynchronously. *)
Definition start_asynchronous {zero_size_ptr faulty} (staged : jsstring)
  : World (host zero_size_ptr faulty) :=
  MkWorld (H := host zero_size_ptr faulty)
          (MkState 16 ∅ 0 true staged []) None ∅ JUndefined.

(** The code unit of the double quote. *)
Definition dquote : jsstring := [34].

(** A [JSON.stringify] for the values of the examples (no escapes). *)
Fixpoint stringify (v : jsval) : jsstring :=
  match v with
  | JUndefined | JNull => js "null"
  | JBool true => js "true"
  | JBool false => js "false"
  | JNum n => num n
  | JStr s => dquote ++ s ++ dquote
  | JArr items =>
    js "[" ++ concat ((fix go (l : list jsval) : list jsstring :=
                         match l with
                         | [] => []
                         | [x] => [stringify x]
                         | x :: rest => (stringify x ++ js ",") :: go rest
                         end) items) ++ js "]"
  | JObj fields =>
    js "{" ++ concat ((fix go (l : list (jsstring * jsval)) : list jsstring :=
                         match l with
                         | [] => []
                         | [(k, x)] => [dquote ++ k ++ (dquote ++ js ":") ++ stringify x]
                         | (k, x) :: rest =>
                           (dquote ++ k ++ (dquote ++ js ":") ++ stringify x ++ js ",") :: go rest
                         end) fields) ++ js "}"
  | JError _ _ => js "{}"
  end.

Definition JSON_stringify (v : jsval) : outcome (option jsstring) :=
  match v with
  | JUndefined => Ret None
  | _ => Ret (Some (stringify v))
  end.

(** A [JSON.parse] that knows the texts of the examples. *)
Definition JSON_parse (known : list (jsstring * jsval)) (text : jsstring)
  : outcome jsval :=
  match lookup_field text known with
  | JUndefined => Throw (JError (js "SyntaxError") (js "Unexpected token"))
  | v => Ret v
  end.

End mock.

(** ** The vocabulary of the statements *)

(** Every event of every run of [m] satisfies [P]. *)
Definition emits {S A} (P : event -> Prop) (m : M S A) : Prop :=
  forall s, Forall P (evs (m s)).

(** The arena returns the text that was written at an offset, when it
    is asked for the UTF-8 length of that text. *)
Definition arena_faithful (H : HostImpl) : Prop :=
  forall h ptr data h',
    respond H (wasm_write_string ptr data) h = (Ret tt, h') ->
    exists h'',
      respond H (wasm_read_string ptr
                   (Z.of_nat (length (memory.encoder_encode (H := H) data)))) h'
        = (Ret data, h'').

(** The variables of [execute] before its [try] block. *)
Definition frame0 : host.param_frame := host.MkParams 0 0 0 0 0 0.

(** No release call of the run faulted: every [dealloc] came back. *)
Definition release_ok (e : event) : Prop :=
  match e with
  | Ev (wasm_dealloc _ _) (Ret _) => True
  | Ev (wasm_dealloc _ _) _ => False
  | _ => True
  end.

(** The release of one buffer, as the boundary sees it. *)
Definition release_event (ptr len : Z) : list event :=
  if 0 <? ptr then [Ev (wasm_dealloc ptr len) (Ret RUnit)] else [].

(** The releases of the three parameter buffers recorded in a frame. *)
Definition release_events (f : host.param_frame) : list event :=
  release_event (host.actionNamePtr f) (host.actionNameLen f)
  ++ release_event (host.paramsPtr f) (host.paramsLen f)
  ++ release_event (host.contextPtr f) (host.contextLen f).

(** The three parameter buffers recorded in a frame. *)
Definition recorded_buffers (f : host.param_frame) : list (Z * Z) :=
  [(host.actionNamePtr f, host.actionNameLen f);
   (host.paramsPtr f, host.paramsLen f);
   (host.contextPtr f, host.contextLen f)].

Definition is_host_call (e : event) : bool :=
  match e with
  | Ev (host_call _ _ _ _ _ _) _ => true
  | _ => false
  end.

Definition is_alloc (e : event) : bool :=
  match e with
  | Ev (wasm_alloc _) _ => true
  | _ => false
  end.

Definition is_dealloc (e : event) : bool :=
  match e with
  | Ev (wasm_dealloc _ _) _ => true
  | _ => false
  end.

(** An event of writing a parameter into the arena. *)
Definition is_arena_write (e : event) : bool :=
  match e with
  | Ev (wasm_alloc _) _ | Ev (wasm_write_string _ _) _ => true
  | _ => false
  end.

(** How often the host's blocking-call primitive was issued. *)
Definition host_calls (t : list event) : nat := length (List.filter is_host_call t).

(** A release is only ever asked for an offset above zero. *)
Definition release_above_zero (e : event) : Prop :=
  match e with
  | Ev (wasm_dealloc ptr _) _ => 0 < ptr
  | _ => True
  end.

(** *** Runs, one step at a time

    The combinators of the monad, as functions of the run of their first
    argument; the proofs evaluate a computation with them from the
    inside out. *)

(** The events [t] happened before the run [r]. *)
Definition prepend {S A} (t : list event) (r : Run S A) : Run S A :=
  match r with
  | MkRun o s t' => MkRun o s (t ++ t')
  end.

Definition and_then {S A B} (k : A -> M S B) (r : Run S A) : Run S B :=
  match r with
  | MkRun (Ret a) s t => prepend t (k a s)
  | MkRun (Throw e) s t => MkRun (Throw e) s t
  | MkRun Hang s t => MkRun Hang s t
  end.

(** The outcome of a [try] block, once its [finally] block has run. *)
Definition settle {S A} (o : outcome A) (r : Run S unit) : Run S A :=
  match r with
  | MkRun (Ret _) s t => MkRun o s t
  | MkRun (Throw e) s t => MkRun (Throw e) s t
  | MkRun Hang s t => MkRun Hang s t
  end.

Definition finally_after {S A} (f : M S unit) (r : Run S A) : Run S A :=
  match r with
  | MkRun Hang s t => MkRun Hang s t
  | MkRun o s t => prepend t (settle o (f s))
  end.

Definition catch_after {S A} (h : jsval -> M S A) (r : Run S A) : Run S A :=
  match r with
  | MkRun (Throw e) s t => prepend t (h e s)
  | _ => r
  end.

Definition drop_locals {L S A} (r : Run (L * S) A) : Run S A :=
  match r with
  | MkRun o s t => MkRun o (snd s) t
  end.

Definition add_locals {L S A} (l : L) (r : Run S A) : Run (L * S) A :=
  match r with
  | MkRun o s t => MkRun o (l, s) t
  end.

(** *** The runs of the examples *)

(** The mock host without faults; requests of no bytes get offset 16. *)
Definition demo_host : HostImpl := mock.host 16 mock.sound.

(** The mock host whose arena answers offset 0 to a request of no bytes. *)
Definition null_host : HostImpl := mock.host 0 mock.sound.

(** [execute] and its [try] block on a mock host, with the mock engine. *)
Abbreviation demo_execute H async known :=
  (host.execute (H := H) mock.JSON_stringify (mock.JSON_parse known) async).

Abbreviation demo_execute_body H async known :=
  (host.execute_body (H := H) mock.JSON_stringify (mock.JSON_parse known) async).

(** The text [{"ok":true}] and the value it parses to. *)
Definition ok_text : jsstring := js "{" ++ mock.dquote ++ js "ok" ++ mock.dquote ++ js ":true}".
Definition ok_value : jsval := JObj [(js "ok", JBool true)].

(** The events by which the asyncify path is told apart: the query of
    the suspend state, the blocking call, and the end of the rewind. *)
Definition asyncify_control (e : event) : bool :=
  match e with
  | Ev asyncify_get_state _ | Ev asyncify_stop_rewind _
  | Ev (host_call _ _ _ _ _ _) _ => true
  | _ => false
  end.

Definition quiet (t : list event) : Prop :=
  Forall (fun e => asyncify_control e = false) t.

(** The first entry of a call on the asynchronous mock host, and the
    re-entry after the rewind. *)
Definition first_entry : Run (World demo_host) jsval :=
  demo_execute demo_host true [(ok_text, ok_value)] (js "echo") JNull
    index.unknown_context (mock.start_asynchronous ok_text).

Definition second_entry : Run (World demo_host) jsval :=
  demo_execute demo_host true [(ok_text, ok_value)] (js "echo") JNull
    index.unknown_context (st first_entry).

(** *** The delegation channel *)

(** The location of the channel object that the wrapper creates in [w]. *)
Definition slot {H} (w : World H) : loc := fresh (dom (channels w)).

(** The world in which the wrapper starts the user application: the new
    channel object holds [null] and the global refers to it. *)
Definition installed {H} (w : World H) : World H :=
  MkWorld (host_st w) (Some (slot w)) (<[slot w := None]> (channels w))
          (initial_payload w).

(** [channel.promise], as the wrapper reads it in the world [w]. *)
Definition slot_promise {H} (w : World H) (channel : loc) : option promise :=
  default None (channels w !! channel).

(** The warning of the wrapper. *)
Definition not_called_warning : event :=
  ConsoleWarn (js "SDK build warning: simple.Handle was not called by the user application.").

(** A world of the mock host with nothing staged and no payload. *)
Definition bare_world : World demo_host := mock.start 0 [] [].


(** *** The completion signal *)

(** The calls by which a signal is sent: the arena is asked for a buffer
    and written to, and the fire-and-forget call is issued. *)
Definition is_send_call (c : call) : bool :=
  match c with
  | wasm_alloc _ | wasm_write_string _ _ | host_cast _ _ _ _ _ _ => true
  | _ => false
  end.

(** The host answers these calls: none of them throws or hangs. *)
Definition host_accepts (H : HostImpl) : Prop :=
  forall c h, is_send_call c = true -> exists a h', respond H c h = (Ret a, h').

(** The handle [(ptr, len)] holds [text] by the events [t]: the empty
    text has a handle of length 0; any other text was written at the
    offset, and the length is that of its octets. *)
Definition holds (H : HostImpl) (t : list event) (ptr len : Z) (text : jsstring)
  : Prop :=
  (text = [] /\ len = 0) \/
  (len = Z.of_nat (length (memory.encoder_encode (H := H) text)) /\
   In (Ev (wasm_write_string ptr text) (Ret RUnit)) t).

(** The events [t] end with the cast of ['__done__'], whose parameter
    buffer holds [paramsText] and whose context buffer [contextText]. *)
Definition done_cast (H : HostImpl) (t : list event) (paramsText contextText : jsstring)
  : Prop :=
  exists pre namePtr nameLen paramsPtr paramsLen contextPtr contextLen,
    t = pre ++ [Ev (host_cast namePtr nameLen paramsPtr paramsLen contextPtr contextLen)
                   (Ret RUnit)] /\
    holds H pre namePtr nameLen (js "__done__") /\
    holds H pre paramsPtr paramsLen paramsText /\
    holds H pre contextPtr contextLen contextText.

(** The entry-point driver of the builds that import [host.ts]. *)
Abbreviation driver H JSON_stringify JSON_parse ToString IS_WORKER_BUILD ASYNC_BUILD
    USER_SCRIPT_BUNDLE :=
  (index.handle (H := H) JSON_stringify JSON_parse ToString
     (host.execute JSON_stringify JSON_parse ASYNC_BUILD)
     (host.executeAsync JSON_stringify) host.getContext
     IS_WORKER_BUILD ASYNC_BUILD USER_SCRIPT_BUNDLE).

Abbreviation driver_try H JSON_stringify JSON_parse ToString ASYNC_BUILD
    USER_SCRIPT_BUNDLE :=
  (index.handle_try (H := H) JSON_stringify JSON_parse ToString
     (host.execute JSON_stringify JSON_parse ASYNC_BUILD)
     (host.executeAsync JSON_stringify) host.getContext
     ASYNC_BUILD USER_SCRIPT_BUNDLE).

Abbreviation driver_input H JSON_stringify :=
  (index.readInputFromHost (H := H) JSON_stringify host.getContext).

(** The driver inside the script worker, which imports
    [worker-override.js]. *)
Abbreviation worker_handle H JSON_stringify JSON_parse :=
  (index.handle_worker (H := H) JSON_stringify JSON_parse worker_override.getContext).

(** The message of the driver when the host provides no payload. *)
Definition no_input_message : jsval :=
  JStr (js "no input payload provided by the host environment").

(** A handler that returns [null]. *)
Definition null_handler {H} : index.Handler (H := H) :=
  fun _ => ret (Fulfilled JNull).

(** The driver of the synchronous build on the mock host. *)
Definition demo_driver : M (World demo_host) jsval :=
  driver demo_host mock.JSON_stringify (mock.JSON_parse []) (fun _ => [])
         None false None null_handler.

(** *** A delegated run on the mock host *)

(** The request that the orchestrating layer leaves for the worker. *)
Definition demo_request : jsval :=
  JObj [(js "context", index.unknown_context); (js "headers", JObj []);
        (js "data", JStr (js "hello"))].

(** A world of the script worker: the payload is in place. *)
Definition worker_world : World demo_host :=
  MkWorld (H := demo_host) (mock.MkState 16 ∅ 0 false [] []) None ∅
          (JObj [(js "request", demo_request)]).

(** The driver of the worker bundle on the mock host. *)
Definition demo_worker_handle (handler : index.Handler) : M (World demo_host) jsval :=
  worker_handle demo_host mock.JSON_stringify
    (mock.JSON_parse [(mock.stringify demo_request, demo_request)]) handler.

(** A user application that calls [simple.Handle(handler)]. *)
Definition demo_application (handler : index.Handler) : M (World demo_host) unit :=
  build.unawaited (demo_worker_handle handler).

(** A handler that resolves with the text of the request. *)
Definition echo_handler {H} : index.Handler (H := H) :=
  fun request => ret (Fulfilled (index.rawData request)).

(** A handler whose promise rejects. *)
Definition failing_handler {H} : index.Handler (H := H) :=
  fun _ => ret (Rejected (Error (js "boom"))).

(** The error of the driver when it finds no channel. *)
Definition missing_channel_error : jsval :=
  Error (js "CRITICAL: Script worker context is missing the promise channel.").

(** *** What a computation leaves unchanged *)

(** Every run of [m] ends in a state related to the one it started in. *)
Definition preserves {S A} (R : S -> S -> Prop) (m : M S A) : Prop :=
  forall s, R s (st (m s)).

(** The variables of the function are the same. *)
Definition same_frame {L W} (s s' : L * W) : Prop := fst s = fst s'.

(** The variables of the enclosing function are the same. *)
Definition same_outer {L1 L2 W} (s s' : L1 * (L2 * W)) : Prop :=
  fst (snd s) = fst (snd s').

(** *** The code points of a string *)

(** A UTF-16 code unit. *)
Definition code_unit (u : Z) : Prop := 0 <= u <= 0xFFFF.

Definition is_high_surrogate (u : Z) : bool := (0xD800 <=? u) && (u <=? 0xDBFF).
Definition is_low_surrogate (u : Z) : bool := (0xDC00 <=? u) && (u <=? 0xDFFF).

(** The code points that [codePointAt] reads from a string, from left to
    right: a high surrogate followed by a low one is one code point, and
    every other code unit stands for itself. *)
Fixpoint code_points (s : jsstring) : list Z :=
  match s with
  | [] => []
  | a :: rest =>
    match rest with
    | b :: rest' =>
      if is_high_surrogate a && is_low_surrogate b
      then ((a - 0xD800) * 0x400 + (b - 0xDC00) + 0x10000) :: code_points rest'
      else a :: code_points rest
    | [] => [a]
    end
  end.

(** The octets of a code point, as stored in the [Uint8Array]. *)
Definition utf8_octets (codePoint : Z) : list Z :=
  Polyfills.to_uint8 <$> Polyfills.encode_codePoint codePoint.

(** The code units that [String.fromCodePoint] gives for each of a list
    of code points, one after the other. *)
Definition code_units_of (codePoints : list Z) : jsstring :=
  concat ((fun cp => match Polyfills.fromCodePoint cp with
                     | Ret u => u
                     | _ => []
                     end) <$> codePoints).

(** A Unicode code point. *)
Definition code_point (cp : Z) : Prop := 0 <= cp <= 0x10FFFF.

(** A code unit of the ASCII range. *)
Definition ascii_unit (u : Z) : Prop := 0 <= u <= 0x7F.

(** A lead octet that announces more continuation octets than the
    [tail] after it holds. *)
Definition truncated_sequence (lead : Z) (tail : list Z) : Prop :=
  (0x80 <= lead <= 0xDF /\ (length tail < 1)%nat) \/
  (0xE0 <= lead <= 0xEF /\ (length tail < 2)%nat) \/
  (0xF0 <= lead <= 0xF4 /\ (length tail < 3)%nat).

(** A text with an ASCII letter, an accented letter, a CJK character, a
    smiling face (a surrogate pair) and a lone low surrogate. *)
Definition sample_text : jsstring := [0x68; 0xE9; 0x4E2D; 0xD83D; 0xDE00; 0xDC00].

(** The same text without the lone surrogate. *)
Definition plain_text : jsstring := [0x68; 0xE9; 0x4E2D; 0xD83D; 0xDE00].

(** A destination of sixteen octets, all zero. *)
Definition sample_destination : list Z := repeat 0 16.

(** *** The calls of a run and their answers *)

(** The foreign call of the event returned: it neither threw nor hung. *)
Definition returned (e : event) : Prop :=
  match e with
  | Ev _ (Ret _) => True
  | Ev _ _ => False
  | _ => True
  end.

(** The octets of an outcome, decoded by the decoder of the arena adapter. *)
Definition then_decode (H : HostImpl) (o : outcome (list Z)) : outcome jsstring :=
  match o with
  | Ret bytes => memory.decoder_decode (H := H) bytes
  | Throw e => Throw e
  | Hang => Hang
  end.

(** The codec of the engine gives [t] back: decoding the octets that
    its encoder gives for [t] returns [t]. *)
Definition decodes_back (H : HostImpl) (t : jsstring) : Prop :=
  memory.decoder_decode (H := H) (memory.encoder_encode (H := H) t) = Ret t.

(** A world of the mock host whose arena holds [plain_text] at offset 16. *)
Definition plain_world : World demo_host :=
  st (memory.stringToPtr plain_text bare_world).

(** A world of the mock host whose payload is [sample_text]. *)
Definition payload_world : World demo_host := mock.start 0 [] sample_text.

(** A world of the mock host whose payload is [plain_text]. *)
Definition plain_payload_world : World demo_host := mock.start 0 [] plain_text.

(** A world of the mock host that has the text [{"ok":true}] ready as
    the result of a call. *)
Definition staged_world : World demo_host := mock.start 0 ok_text [].

Definition is_cast (e : event) : bool :=
  match e with
  | Ev (host_cast _ _ _ _ _ _) _ => true
  | _ => false
  end.

(** The mock host whose arena faults on every write. *)
Definition faulty_writes (c : call) : bool :=
  match c with
  | wasm_write_string _ _ => true
  | _ => false
  end.

Definition write_fault_host : HostImpl := mock.host 16 faulty_writes.

Definition write_fault_world : World write_fault_host := mock.start 0 [] [].

(** A blocking call of the host that did not return. *)
Definition is_unwind (e : event) : bool :=
  match e with
  | Ev (host_call _ _ _ _ _ _) Hang => true
  | _ => false
  end.

(** *** Requests *)

(** The message of [Request.parse] when the request has no data. *)
Definition no_data_error : jsval := Error (js "no data to parse").

(** The error of [Request.parse] when [JSON.parse] fails with [message]. *)
Definition parse_failure (ToString : jsval -> jsstring) (message : jsval) : jsval :=
  Error (js "failed to parse data: " ++ ToString message).

(** A request object as the host sends it, without the [data] field. *)
Definition request_without_data : list (jsstring * jsval) :=
  [(js "context", index.unknown_context); (js "headers", JObj [])].

(** A world of the mock host whose payload is the text of [demo_request]. *)
Definition request_world : World demo_host :=
  mock.start 0 [] (mock.stringify demo_request).

(** The driver of the synchronous build on the mock host, with an
    engine that parses the text of [demo_request]. *)
Definition demo_sync_driver (handler : index.Handler) : M (World demo_host) jsval :=
  driver demo_host mock.JSON_stringify
    (mock.JSON_parse [(mock.stringify demo_request, demo_request)]) (fun _ => [])
    None false None handler.

(** The world in which the handler of [demo_sync_driver] runs. *)
Definition request_read_world : World demo_host :=
  st (driver_input demo_host mock.JSON_stringify request_world).

(** The request object that the handler is given. *)
Definition demo_Request : index.Request :=
  index.MkRequest index.unknown_context (JObj []) (JStr (js "hello")).



(** The message of a failed response, or the text that stands in for it. *)
Definition failure_text (ToString : jsval -> jsstring) (message : jsval)
    (fallback : string) : jsstring :=
  ToString (coalesce message (JStr (js fallback))).


(** The user application of a worker bundle: it calls [simple.Handle]
    with its handler and awaits nothing. *)
Definition worker_application {H} (JSON_stringify : jsval -> outcome (option jsstring))
    (JSON_parse : jsstring -> outcome jsval) (handler : index.Handler (H := H))
  : M (World H) unit :=
  build.unawaited (worker_handle H JSON_stringify JSON_parse handler).

(** The world [w] with the promise [p] placed in the channel at [c]. *)
Definition placed {H} (w : World H) (c : loc) (p : promise) : World H :=
  with_channels w (<[c := Some p]> (channels w)).

(** The run that awaiting [p] ends in, after the events [t] in the world
    [w], when the [finally] block of the wrapper follows. *)
Definition awaited {H} (p : promise) (w : World H) (t : list event)
  : Run (World H) jsval :=
  match p with
  | Fulfilled v => MkRun (Ret v) (with_promise_channel w None) t
  | Rejected e => MkRun (Throw e) (with_promise_channel w None) t
  | Pending => MkRun Hang w t
  end.

(** The error of the driver when the host provides no payload. *)
Definition no_input_error : jsval :=
  Error (js "no input payload provided by the host environment").

(** *** The messages of the script worker *)

(** The message that [execute] posts for a request. *)
Definition host_request_message (request : jsval) (requestId : jsstring) : jsval :=
  JObj [(js "request", request); (js "requestId", JStr requestId);
        (js "type", JStr (js "host_request"))].

(** The message that [executeAsync] posts. *)
Definition host_cast_message (request : jsval) : jsval :=
  JObj [(js "request", request); (js "type", JStr (js "host_cast"))].

(** A message is an answer to the request [requestId] with [response]. *)
Definition answers_request (message : jsval) (requestId : jsstring) (response : jsval)
  : Prop :=
  index.get_prop message (js "type") = Ret (JStr (js "host_response")) /\
  index.get_prop message (js "requestId") = Ret (JStr requestId) /\
  index.get_prop message (js "response") = Ret response.

(** What the promise of a request settles to on a response. *)
Definition settled_by (ToString : jsval -> jsstring) (response ok error : jsval)
  : promise :=
  if truthy ok then Fulfilled response
  else Rejected (Error (ToString (coalesce error (JStr (js "Unknown host error"))))).

(** A worker in which nothing has happened yet. *)
Definition idle_worker : worker_host.Worker := worker_host.MkWorker ∅ ∅ [] 0.

(** Identifiers for the examples: the decimal digits of the count. *)
Definition counting_uuid (n : nat) : jsstring := num (Z.of_nat n).

(** An answer of the host to the first request of the examples. *)
Definition demo_answer : jsval :=
  JObj [(js "type", JStr (js "host_response")); (js "requestId", JStr (counting_uuid 0));
        (js "response", ok_value)].

(** *** Texts and white space *)

(** A string of white space only. *)
Definition white (s : jsstring) : Prop := Forall (fun u => is_white_space u = true) s.

(** The error of [query] for the text of a mutation. *)
Definition mutation_passed_error : jsval :=
  Error (js "A mutation was passed to the `query` method. Use the `mutate` method instead.").

(** The error of [mutate] for a text that is no mutation. *)
Definition query_passed_error : jsval :=
  Error (js "A query was passed to the `mutate` method. Use the `query` method instead.").

(** A value that stands for no text: a falsy value, or a string of
    white space only. *)
Definition missing_or_white (v : jsval) : Prop :=
  truthy v = false \/ exists ws, v = JStr ws /\ white ws.

(** A value that passes the check [!v || v.trim() === '']. *)
Definition present (v : jsval) : Prop := blank v = Ret false.

(** A storage target with its three fields. *)
Definition demo_target : jsval :=
  JObj [(js "app_id", JStr (js "dev.simple.system"));
        (js "table_name", JStr (js "documents"));
        (js "field_name", JStr (js "attachment"))].

(** *** The parameter buffers of a call *)

(** The handles that the calls of [stringToPtr] in [execute] returned,
    in the order of the calls: the action name, the parameters, the
    context. The conversion stops at the first call that does not
    return, and nothing is converted when [JSON.stringify] does not
    return. *)
Definition acquired {H} (JSON_stringify : jsval -> outcome (option jsstring))
    (actionName : jsstring) (params context : jsval) (w : World H) : list (Z * Z) :=
  match JSON_stringify (coalesce params JNull), JSON_stringify context with
  | Ret paramsJSON, Ret contextJSON =>
    let r1 := memory.stringToPtr actionName w in
    match out r1 with
    | Ret a =>
      let r2 := host.stringToPtr_json paramsJSON (st r1) in
      a :: match out r2 with
           | Ret p =>
             let r3 := host.stringToPtr_json contextJSON (st r2) in
             p :: match out r3 with
                  | Ret c => [c]
                  | _ => []
                  end
           | _ => []
           end
    | _ => []
    end
  | _, _ => []
  end.

(** One release call for each handle whose offset is above zero, in the
    order of the handles. *)
Definition releases (handles : list (Z * Z)) : list event :=
  flat_map (fun h => release_event (fst h) (snd h)) handles.

(** The mock host whose arena faults on every release. *)
Definition faulty_releases (c : call) : bool :=
  match c with
  | wasm_dealloc _ _ => true
  | _ => false
  end.

Definition release_fault_host : HostImpl := mock.host 16 faulty_releases.

(** A world of the mock host whose arena hands out offsets from 0 on. *)
Definition low_arena_world : World demo_host :=
  MkWorld (H := demo_host) (mock.MkState 0 ∅ 0 false [] []) None ∅ JUndefined.

(** *** UTF-8, by the standard

    The octets that the specification calls [utf8_bytes(t)], written
    from the definition of UTF-8 and of the conversion of a string to
    scalar values, and not from the code: the code is compared with
    them. *)

Definition is_surrogate (u : Z) : bool := (0xD800 <=? u) && (u <=? 0xDFFF).

(** The scalar values of a string: a high surrogate followed by a low
    one is the scalar value of the pair, a surrogate without its partner
    is replaced by U+FFFD, and any other code unit stands for itself. *)
Fixpoint scalar_values (s : jsstring) : list Z :=
  match s with
  | [] => []
  | a :: rest =>
    match rest with
    | b :: rest' =>
      if is_high_surrogate a && is_low_surrogate b
      then (0x10000 + (a - 0xD800) * 0x400 + (b - 0xDC00)) :: scalar_values rest'
      else (if is_surrogate a then 0xFFFD else a) :: scalar_values rest
    | [] => [if is_surrogate a then 0xFFFD else a]
    end
  end.

(** The octets of a scalar value: one below U+0080, two below U+0800,
    three below U+10000 and four from there on, the bits of the value
    filled into the patterns [0xxxxxxx], [110xxxxx 10xxxxxx],
    [1110xxxx 10xxxxxx 10xxxxxx] and [11110xxx 10xxxxxx 10xxxxxx 10xxxxxx]. *)
Definition utf8_of_scalar (c : Z) : list Z :=
  if c <? 0x80 then [c]
  else if c <? 0x800 then [0xC0 + c / 0x40; 0x80 + c mod 0x40]
  else if c <? 0x10000 then
    [0xE0 + c / 0x1000; 0x80 + (c / 0x40) mod 0x40; 0x80 + c mod 0x40]
  else
    [0xF0 + c / 0x40000; 0x80 + (c / 0x1000) mod 0x40; 0x80 + (c / 0x40) mod 0x40;
     0x80 + c mod 0x40].

Definition utf8_bytes (t : jsstring) : list Z :=
  concat (utf8_of_scalar <$> scalar_values t).



(** *** The signals of a run *)

(** Every cast among the events [t] is a cast of ['__done__'] whose
    context buffer holds [contextText], by the events before it. *)
Definition casts_carry (H : HostImpl) (t : list event) (contextText : jsstring)
  : Prop :=
  forall pre post namePtr nameLen paramsPtr paramsLen contextPtr contextLen o,
    t = pre ++ Ev (host_cast namePtr nameLen paramsPtr paramsLen contextPtr contextLen) o
               :: post ->
    holds H pre namePtr nameLen (js "__done__") /\
    holds H pre contextPtr contextLen contextText.

(** * Properties *)

(** ** What a computation emits *)

Section emits.
Context {S : Type} (P : event -> Prop).

Lemma emits_ret {A} (a : A) : emits (S := S) P (ret a).
Proof. intros s. constructor. Qed.

Lemma emits_throw {A} e : emits (S := S) (A := A) P (throw e).
Proof. intros s. constructor. Qed.

Lemma emits_of_outcome {A} (o : outcome A) : emits (S := S) P (of_outcome o).
Proof. intros s. constructor. Qed.

Lemma emits_await p : emits (S := S) P (await p).
Proof. destruct p; intros s; constructor. Qed.

Lemma emits_bind {A B} (m : M S A) (k : A -> M S B) :
  emits P m -> (forall a, emits P (k a)) -> emits P (bind m k).
Proof.
  intros Hm Hk s. unfold bind. specialize (Hm s).
  destruct (out (m s)); simpl; auto.
  apply Forall_app. split; [assumption | apply Hk].
Qed.

Lemma emits_try_finally {A} (m : M S A) (f : M S unit) :
  emits P m -> emits P f -> emits P (try_finally m f).
Proof.
  intros Hm Hf s. unfold try_finally. specialize (Hm s).
  specialize (Hf (st (m s))).
  destruct (out (m s)); simpl; auto;
    destruct (out (f (st (m s)))); simpl; apply Forall_app; auto.
Qed.

Lemma emits_try_catch {A} (m : M S A) (h : jsval -> M S A) :
  emits P m -> (forall e, emits P (h e)) -> emits P (try_catch m h).
Proof.
  intros Hm Hh s. unfold try_catch. specialize (Hm s).
  destruct (out (m s)); simpl; auto.
  apply Forall_app. split; [assumption | apply Hh].
Qed.

Lemma emits_with_locals {L A} (init : L) (m : M (L * S) A) :
  emits P m -> emits P (with_locals init m).
Proof. intros Hm s. apply Hm. Qed.

Lemma emits_lift {L A} (m : M S A) : emits P m -> emits P (lift (L := L) m).
Proof. intros Hm s. apply Hm. Qed.

Lemma emits_up {L1 L2 A} (m : M S A) :
  emits P m -> emits P (up (L1 := L1) (L2 := L2) m).
Proof. intros Hm s. apply Hm. Qed.

Lemma emits_get_locals {L} : emits P (get_locals (L := L) (S := S)).
Proof. intros s. constructor. Qed.

Lemma emits_set_locals {L} (f : L -> L) : emits P (set_locals (S := S) f).
Proof. intros s. constructor. Qed.

Lemma emits_emit (e : event) : P e -> emits (S := S) P (emit e).
Proof. intros He s. repeat constructor. exact He. Qed.

End emits.

Lemma emits_prim {H} (P : event -> Prop) (c : call) :
  (forall r, P (Ev c r)) -> emits P (prim (H := H) c).
Proof. intros Hc w. repeat constructor. apply Hc. Qed.

Create HintDb emits.
#[export] Hint Resolve emits_ret emits_throw emits_of_outcome emits_await
  emits_with_locals emits_lift emits_up emits_get_locals emits_set_locals
  : emits.

(** Decompose a goal [emits P m] along the structure of [m]. *)
Ltac emits_step :=
  lazymatch goal with
  | |- emits _ (bind _ _) => apply emits_bind; [| intros ?]
  | |- emits _ (try_finally _ _) => apply emits_try_finally
  | |- emits _ (try_catch _ _) => apply emits_try_catch; [| intros ?]
  | |- emits _ (with_locals _ _) => apply emits_with_locals
  | |- emits _ (lift _) => apply emits_lift
  | |- emits _ (up _) => apply emits_up
  | |- emits _ (prim _) => apply emits_prim; intros ?; simpl; auto
  | |- emits _ (emit _) => apply emits_emit; simpl; auto
  | |- emits _ (console_error _ _) => apply emits_emit; simpl; auto
  | |- emits _ (console_warn _) => apply emits_emit; simpl; auto
  | |- emits _ (if ?b then _ else _) => destruct b eqn:?
  | |- emits _ (match ?x with _ => _ end) => destruct x eqn:?
  | |- emits _ _ => solve [auto with emits]
  end.

Ltac emits_auto := repeat emits_step.

(** ** The polyfills: the loops reach the end of their input *)

(** One more round than the code units left changes nothing: the fuel
    given by [TextEncoder_encode] is enough. *)
Lemma encode_loop_enough (fuel : nat) (str : jsstring) (i : nat) (octets : list Z) :
  (length str - i <= fuel)%nat ->
  Polyfills.encode_loop (S fuel) str i octets = Polyfills.encode_loop fuel str i octets.
Proof.
  revert i octets. induction fuel as [| fuel IH]; intros i octets Hle.
  - cbn [Polyfills.encode_loop].
    destruct (i <? length str)%nat eqn:E; [apply Nat.ltb_lt in E; lia | reflexivity].
  - change (Polyfills.encode_loop (S (S fuel)) str i octets)
      with (if (i <? length str)%nat
            then Polyfills.encode_loop (S fuel) str
                   (i + (if (0x10000 <=? Polyfills.codePointAt str i)%Z then 2 else 1))%nat
                   (octets ++ Polyfills.encode_codePoint (Polyfills.codePointAt str i))
            else octets).
    change (Polyfills.encode_loop (S fuel) str i octets)
      with (if (i <? length str)%nat
            then Polyfills.encode_loop fuel str
                   (i + (if (0x10000 <=? Polyfills.codePointAt str i)%Z then 2 else 1))%nat
                   (octets ++ Polyfills.encode_codePoint (Polyfills.codePointAt str i))
            else octets).
    destruct (i <? length str)%nat eqn:E; [| reflexivity].
    apply IH. destruct (0x10000 <=? Polyfills.codePointAt str i)%Z; lia.
Qed.

Lemma TextEncoder_encode_fuel (str : jsstring) (extra : nat) :
  Polyfills.to_uint8 <$> Polyfills.encode_loop (length str + extra) str 0 []
    = Polyfills.TextEncoder_encode str.
Proof.
  unfold Polyfills.TextEncoder_encode. f_equal.
  induction extra as [| extra IH].
  - rewrite Nat.add_0_r. reflexivity.
  - rewrite Nat.add_succ_r, encode_loop_enough by lia. exact IH.
Qed.

Lemma fromCodePoint_returns (codePoint : Z) :
  Polyfills.fromCodePoint codePoint <> Hang.
Proof.
  unfold Polyfills.fromCodePoint.
  destruct ((codePoint <? 0) || (0x10FFFF <? codePoint)); [intros [=] |].
  destruct (codePoint <=? 0xFFFF); intros [=].
Qed.

(** With as much fuel as there are octets left, the decoder comes back:
    it returns a string or throws the [RangeError] of
    [String.fromCodePoint]. *)
Lemma decode_loop_returns (fuel : nat) (octets : list Z) (i : nat) (string : jsstring) :
  (length octets - i <= fuel)%nat ->
  Polyfills.decode_loop fuel octets i string <> Hang.
Proof.
  revert i string. induction fuel as [| fuel IH]; intros i string Hle.
  - cbn [Polyfills.decode_loop].
    destruct (i <? length octets)%nat eqn:E; [apply Nat.ltb_lt in E; lia | intros [=]].
  - cbn [Polyfills.decode_loop].
    destruct (i <? length octets)%nat eqn:E; [| intros [=]].
    apply Nat.ltb_lt in E.
    repeat match goal with
           | |- context [let '(_, _) := ?p in _] =>
               destruct p as [? ?] eqn:?
           end.
    match goal with |- context [Polyfills.fromCodePoint ?cp] =>
      pose proof (fromCodePoint_returns cp) as Hcp;
      destruct (Polyfills.fromCodePoint cp); [| intros [=] | contradiction]
    end.
    apply IH. lia.
Qed.

Lemma TextDecoder_decode_returns (octets : list Z) :
  Polyfills.TextDecoder_decode octets <> Hang.
Proof. apply decode_loop_returns. lia. Qed.

(** ** The arena adapter *)

Section memory_facts.
Context {H : HostImpl}.

(** A run of [prim], by the answer of the host. *)
Lemma prim_run (c : call) (w : World H) o h :
  respond H c (host_st w) = (o, h) ->
  prim c w = MkRun o (with_host w h) [Ev c (outcome_map (record_answer c) o)].
Proof. intros E. unfold prim. rewrite E. reflexivity. Qed.

End memory_facts.

(** C8: a read that faults at the foreign boundary does not raise past
    the adapter. For every offset and every length other than zero, when
    [__wasm.read_string] throws, [readBufferSlice] returns the empty
    byte sequence, having made that one foreign call and logged the
    fault with [console.error]. *)
Theorem readBufferSlice_absorbs_fault (H : HostImpl) (ptr len : Z) (w : World H)
    (e : jsval) (h : hstate H) :
  len <> 0 ->
  respond H (wasm_read_string ptr len) (host_st w) = (Throw e, h) ->
  memory.readBufferSlice ptr len w =
    MkRun (Ret []) (with_host w h)
      [Ev (wasm_read_string ptr len) (Throw e);
       ConsoleError (js "Memory read failed at ptr=" ++ num ptr ++ js ", len="
                       ++ num len ++ js ":") e].
Proof.
  intros Hlen Hread. unfold memory.readBufferSlice.
  destruct (len =? 0) eqn:E; [apply Z.eqb_eq in E; contradiction |].
  unfold try_catch, bind. rewrite (prim_run _ _ _ _ Hread). reflexivity.
Qed.

Lemma readBufferSlice_absorbs_fault_witness :
  5 <> 0 /\
  respond (mock.host 16 mock.faulty_reads) (wasm_read_string 64 5)
    (host_st (mock.start 0 [] [])) = (Throw mock.fault, host_st (mock.start 0 [] [])) /\
  memory.readBufferSlice (H := mock.host 16 mock.faulty_reads) 64 5 (mock.start 0 [] []) =
    MkRun (Ret []) (mock.start 0 [] [])
      [Ev (wasm_read_string 64 5) (Throw mock.fault);
       ConsoleError (js "Memory read failed at ptr=" ++ num 64 ++ js ", len="
                       ++ num 5 ++ js ":") mock.fault].
Proof.
  split; [lia |]. split; [reflexivity |].
  apply (readBufferSlice_absorbs_fault (mock.host 16 mock.faulty_reads)
           64 5 (mock.start 0 [] []) mock.fault); [lia | reflexivity].
Defined.

(** The sibling [readString] absorbs the fault in the same way. *)
Lemma readString_absorbs_fault (H : HostImpl) (ptr len : Z) (w : World H)
    (e : jsval) (h : hstate H) :
  len <> 0 ->
  respond H (wasm_read_string ptr len) (host_st w) = (Throw e, h) ->
  out (memory.readString ptr len w) = Ret [].
Proof.
  intros Hlen Hread. unfold memory.readString.
  destruct (len =? 0) eqn:E; [apply Z.eqb_eq in E; contradiction |].
  unfold try_catch. rewrite (prim_run _ _ _ _ Hread). reflexivity.
Qed.

(** C7, as the specification states it, fails: converting the empty
    string to a handle does issue a foreign call, [alloc(0)]. *)
Lemma stringToPtr_empty_calls_alloc :
  evs (memory.stringToPtr (H := mock.host 16 mock.sound) (js "") (mock.start 0 [] []))
    = [Ev (wasm_alloc 0) (Ret (RNum 16))] /\
  evs (memory.allocate (H := mock.host 16 mock.sound) 0 (mock.start 0 [] [])) <> [].
Proof. split; [reflexivity | discriminate]. Qed.

(** C7, amended: a request of size zero is legal and is forwarded to the
    arena like any other. [allocate(0)] issues exactly one foreign call,
    [alloc(0)]; converting the empty string issues that same single call
    and no [write_string], and the handle it returns has length 0 and
    the offset that the arena answered. *)
Theorem stringToPtr_empty_forwards_alloc (H : HostImpl) (w : World H) :
  let answered := fst (respond H (wasm_alloc 0) (host_st w)) in
  evs (memory.allocate 0 w) = [Ev (wasm_alloc 0) (outcome_map RNum answered)] /\
  evs (memory.stringToPtr [] w) = [Ev (wasm_alloc 0) (outcome_map RNum answered)] /\
  out (memory.stringToPtr [] w) = outcome_map (fun ptr => (ptr, 0)) answered.
Proof.
  cbv zeta. split; [reflexivity |].
  unfold memory.stringToPtr, memory.allocate, bind, prim. simpl.
  destruct (respond H (wasm_alloc 0) (host_st w)) as [[ptr | e |] h];
    simpl; split; reflexivity.
Qed.

(** The mock arena returns what was written. *)
Lemma mock_arena_faithful z : arena_faithful (mock.host z mock.sound).
Proof.
  intros h ptr data h' Hw. simpl in *. injection Hw as <-. simpl.
  rewrite lookup_insert_eq. unfold mock.byte_length, memory.encoder_encode.
  rewrite Z.eqb_refl. eauto.
Qed.

(** ** The blocking call [execute] *)

Lemma Forall_filter_nil (q : event -> bool) (t : list event) :
  Forall (fun e => q e = false) t -> List.filter q t = [].
Proof.
  induction 1 as [| e t He _ IH]; simpl; [reflexivity |]. now rewrite He.
Qed.

(** A [finally] block runs after every [try] block that comes back. *)
Lemma try_finally_evs {S A} (m : M S A) (f : M S unit) (s : S) :
  out (m s) <> Hang ->
  evs (try_finally m f s) = evs (m s) ++ evs (f (st (m s))).
Proof.
  intros Hm. unfold try_finally.
  destruct (out (m s)); [| | contradiction];
    destruct (out (f (st (m s)))); reflexivity.
Qed.

Lemma try_finally_out {S A} (m : M S A) (f : M S unit) (s : S) u :
  out (m s) <> Hang ->
  out (f (st (m s))) = Ret u ->
  out (try_finally m f s) = out (m s).
Proof.
  intros Hm Hf. unfold try_finally.
  destruct (out (m s)) eqn:E; [| | contradiction]; rewrite Hf; simpl; auto.
Qed.

Lemma try_finally_hang {S A} (m : M S A) (f : M S unit) (s : S) :
  out (m s) = Hang ->
  try_finally m f s = MkRun Hang (st (m s)) (evs (m s)).
Proof. intros Hm. unfold try_finally. now rewrite Hm. Qed.

(** *** Run equations *)

Section run_equations.
Context {S : Type}.

Lemma bind_eq {A B} (m : M S A) (k : A -> M S B) (s : S) :
  bind m k s = and_then k (m s).
Proof.
  unfold bind, and_then, prepend. destruct (m s) as [[a | e |] s1 t1]; simpl; auto.
  destruct (k a s1); reflexivity.
Qed.

Lemma try_finally_eq {A} (m : M S A) (f : M S unit) (s : S) :
  try_finally m f s = finally_after f (m s).
Proof.
  unfold try_finally, finally_after, settle, prepend.
  destruct (m s) as [[a | e |] s1 t1]; simpl; auto;
    destruct (f s1) as [[u | e' |] s2 t2]; reflexivity.
Qed.

Lemma try_catch_eq {A} (m : M S A) (h : jsval -> M S A) (s : S) :
  try_catch m h s = catch_after h (m s).
Proof.
  unfold try_catch, catch_after, prepend.
  destruct (m s) as [[a | e |] s1 t1]; simpl; auto.
  destruct (h e s1); reflexivity.
Qed.

Lemma with_locals_eq {L A} (init : L) (m : M (L * S) A) (s : S) :
  with_locals init m s = drop_locals (m (init, s)).
Proof. unfold with_locals, drop_locals. destruct (m (init, s)); reflexivity. Qed.

Lemma lift_eq {L A} (m : M S A) (ls : L * S) :
  lift m ls = add_locals (fst ls) (m (snd ls)).
Proof. unfold lift, add_locals. destruct (m (snd ls)); reflexivity. Qed.

Lemma up_eq {L1 L2 A} (m : M S A) (ls : L1 * (L2 * S)) :
  up m ls = add_locals (fst ls) (add_locals (fst (snd ls)) (m (snd (snd ls)))).
Proof.
  unfold up, lift, add_locals.
  destruct (m (snd (snd ls))); reflexivity.
Qed.

End run_equations.

Lemma prepend_nil {S A} (r : Run S A) : prepend [] r = r.
Proof. destruct r; reflexivity. Qed.

Lemma prim_eq {H} (c : call) (w : World H) :
  prim c w =
    MkRun (fst (respond H c (host_st w))) (with_host w (snd (respond H c (host_st w))))
          [Ev c (outcome_map (record_answer c) (fst (respond H c (host_st w))))].
Proof. reflexivity. Qed.

Lemma Forall_not_In (P : event -> Prop) (t : list event) (e : event) :
  Forall P t -> ~ P e -> ~ In e t.
Proof.
  intros Ht Hne Hin. rewrite Forall_forall in Ht.
  apply Hne, Ht, list_elem_of_In, Hin.
Qed.

(** From here on the combinators are evaluated by the run equations. *)
Arguments bind : simpl never.
Arguments try_finally : simpl never.
Arguments try_catch : simpl never.
Arguments with_locals : simpl never.
Arguments lift : simpl never.
Arguments up : simpl never.
Arguments prim : simpl never.
Arguments js : simpl never.
Arguments num : simpl never.

Ltac tidy := cbv beta; cbn.

(** Evaluate the computation in the goal as far as it is determined. *)
Ltac run :=
  repeat (progress (rewrite ?bind_eq, ?try_finally_eq, ?try_catch_eq,
                      ?with_locals_eq, ?up_eq, ?lift_eq, ?prim_eq; tidy)).

(** Case analysis on the answer of the host to the next call. *)
Ltac answer H :=
  match goal with
  | |- context [respond H ?c ?h] =>
      lazymatch h with context [respond] => fail | _ => idtac end;
      let E := fresh "E" in
      let T := eval cbn in (answer c) in
      lazymatch T with
      | unit => destruct (respond H c h) as [[[] | ? |] ?] eqn:E
      | _ => destruct (respond H c h) as [[? | ? |] ?] eqn:E
      end;
      tidy
  end.

Ltac go H := repeat (run; try answer H).

(** Case analysis on a test or an outcome that the host does not decide. *)
Ltac branch :=
  match goal with
  | |- context [if ?b then _ else _] =>
      lazymatch b with context [respond] => fail | _ => idtac end;
      let E := fresh "Eb" in destruct b eqn:E; tidy
  | |- context [match ?o with Ret _ => _ | Throw _ => _ | Hang => _ end] =>
      lazymatch o with context [respond] => fail | _ => idtac end;
      let E := fresh "Eo" in destruct o eqn:E; tidy
  end.

Ltac explore H := repeat (run; try answer H; try branch).

(** Which event of a list a membership hypothesis speaks of. *)
Ltac which_event :=
  repeat match goal with
         | Hx : _ \/ _ |- _ => destruct Hx as [Hx | Hx]
         | Hx : False |- _ => destruct Hx
         | Hx : In _ [] |- _ => destruct Hx
         | Hx : In _ (_ :: _) |- _ => destruct Hx as [Hx | Hx]
         | Hx : Ev _ _ = Ev _ _ |- _ =>
             first [discriminate Hx | injection Hx as ?; subst]
         | Hx : ConsoleError _ _ = Ev _ _ |- _ => discriminate Hx
         | Hx : ConsoleWarn _ = Ev _ _ |- _ => discriminate Hx
         end.

(** *** What a computation leaves unchanged *)

Section preserves.
Context {S : Type} (R : S -> S -> Prop).
Hypothesis R_refl : forall s, R s s.
Hypothesis R_trans : forall s1 s2 s3, R s1 s2 -> R s2 s3 -> R s1 s3.

Lemma preserves_ret {A} (a : A) : preserves R (ret a).
Proof using R_refl. intros s. apply R_refl. Qed.

Lemma preserves_throw {A} e : preserves (A := A) R (throw e).
Proof using R_refl. intros s. apply R_refl. Qed.

Lemma preserves_of_outcome {A} (o : outcome A) : preserves R (of_outcome o).
Proof using R_refl. intros s. apply R_refl. Qed.

Lemma preserves_bind {A B} (m : M S A) (k : A -> M S B) :
  preserves R m -> (forall a, preserves R (k a)) -> preserves R (bind m k).
Proof using R_trans.
  intros Hm Hk s. unfold bind. specialize (Hm s).
  destruct (out (m s)); cbn; auto.
  eapply R_trans; [exact Hm | apply Hk].
Qed.

Lemma preserves_try_finally {A} (m : M S A) (f : M S unit) :
  preserves R m -> preserves R f -> preserves R (try_finally m f).
Proof using R_trans.
  intros Hm Hf s. unfold try_finally. specialize (Hm s).
  specialize (Hf (st (m s))).
  destruct (out (m s)); cbn; auto;
    destruct (out (f (st (m s)))); cbn; eapply R_trans; eauto.
Qed.

Lemma preserves_try_catch {A} (m : M S A) (h : jsval -> M S A) :
  preserves R m -> (forall e, preserves R (h e)) -> preserves R (try_catch m h).
Proof using R_trans.
  intros Hm Hh s. unfold try_catch. specialize (Hm s).
  destruct (out (m s)); cbn; auto.
  eapply R_trans; [exact Hm | apply Hh].
Qed.

End preserves.

Lemma preserves_up {L1 L2 S A} (m : M S A) :
  preserves same_outer (up (L1 := L1) (L2 := L2) m).
Proof. intros s. reflexivity. Qed.

Lemma preserves_lift_get_locals {L1 L2 S} :
  preserves same_outer (lift (L := L1) (get_locals (L := L2) (S := S))).
Proof. intros s. reflexivity. Qed.

Lemma preserves_get_locals {L1 L2 S} :
  preserves same_outer (get_locals (L := L1) (S := L2 * S)).
Proof. intros s. reflexivity. Qed.

Lemma preserves_set_locals {L1 L2 S} (f : L1 -> L1) :
  preserves same_outer (set_locals (S := L2 * S) f).
Proof. intros s. reflexivity. Qed.

Lemma preserves_with_locals {L1 L2 S A} (init : L1) (m : M (L1 * (L2 * S)) A) :
  preserves same_outer m -> preserves same_frame (with_locals init m).
Proof. intros Hm s. exact (Hm (init, s)). Qed.

(** Decompose a goal [preserves same_outer m] along the structure of [m]. *)
Ltac preserves_step :=
  lazymatch goal with
  | |- preserves _ (bind _ _) =>
      apply preserves_bind; [intros ? ? ?; unfold same_outer; congruence | | intros ?]
  | |- preserves _ (try_finally _ _) =>
      apply preserves_try_finally; [intros ? ? ?; unfold same_outer; congruence | |]
  | |- preserves _ (try_catch _ _) =>
      apply preserves_try_catch;
      [intros ? ? ?; unfold same_outer; congruence | | intros ?]
  | |- preserves _ (up _) => apply preserves_up
  | |- preserves _ (lift get_locals) => apply preserves_lift_get_locals
  | |- preserves _ get_locals => apply preserves_get_locals
  | |- preserves _ (set_locals _) => apply preserves_set_locals
  | |- preserves _ (ret _) => apply preserves_ret; reflexivity
  | |- preserves _ (throw _) => apply preserves_throw; reflexivity
  | |- preserves _ (of_outcome _) => apply preserves_of_outcome; reflexivity
  | |- preserves _ (if ?b then _ else _) => destruct b
  end.

Section execute_facts.
Context {H : HostImpl}.
Variable JSON_stringify : jsval -> outcome (option jsstring).
Variable JSON_parse : jsstring -> outcome jsval.
Variable ASYNC_BUILD : bool.


(** *** What each part of [execute] emits *)

Lemma stringToPtr_emits (P : event -> Prop) (str : jsstring) :
  (forall e, is_arena_write e = true -> P e) ->
  emits (S := World H) P (memory.stringToPtr str).
Proof.
  intros HP. unfold memory.stringToPtr, memory.allocate.
  emits_auto; apply HP; reflexivity.
Qed.

Lemma readBufferSlice_emits (P : event -> Prop) (ptr len : Z) :
  (forall r, P (Ev (wasm_read_string ptr len) r)) ->
  (forall msg e, P (ConsoleError msg e)) ->
  emits (S := World H) P (memory.readBufferSlice ptr len).
Proof.
  intros Hr Hc. unfold memory.readBufferSlice. emits_auto.
Qed.

Lemma marshal_emits (P : event -> Prop) actionName params context :
  (forall e, is_arena_write e = true -> P e) ->
  emits P (host.marshal (H := H) JSON_stringify actionName params context).
Proof.
  intros HP. unfold host.marshal, host.stringToPtr_json.
  emits_auto; apply stringToPtr_emits; assumption.
Qed.

Lemma release_emits (P : event -> Prop) (ptr len : Z) :
  (forall r, 0 < ptr -> P (Ev (wasm_dealloc ptr len) r)) ->
  emits (S := World H) P (host.release ptr len).
Proof.
  intros HP. unfold host.release, memory.deallocate.
  destruct (0 <? ptr) eqn:E; [| auto with emits].
  apply Z.ltb_lt in E. apply emits_prim. auto.
Qed.

Lemma release_result_emits (P : event -> Prop) :
  (forall ptr len r, 0 < ptr -> P (Ev (wasm_dealloc ptr len) r)) ->
  emits P (host.release_result (H := H)).
Proof.
  intros HP. unfold host.release_result.
  emits_auto. apply release_emits. auto.
Qed.

Lemma execute_finally_emits (P : event -> Prop) :
  (forall ptr len r, 0 < ptr -> P (Ev (wasm_dealloc ptr len) r)) ->
  emits P (host.execute_finally (H := H)).
Proof.
  intros HP. unfold host.execute_finally.
  emits_auto; apply release_emits; auto.
Qed.

(** *** The outer [finally] block *)

(** When no release faults, the outer [finally] block releases the
    recorded buffers whose offset is above zero, each once, in order. *)
Lemma execute_finally_run (f : host.param_frame) (w : World H) :
  Forall release_ok (evs (host.execute_finally (f, w))) ->
  out (host.execute_finally (f, w)) = Ret tt /\
  evs (host.execute_finally (f, w)) = release_events f.
Proof.
  unfold host.execute_finally, release_events, release_event, host.release,
    memory.deallocate.
  destruct f as [p1 l1 p2 l2 p3 l3]. run.
  destruct (0 <? p1), (0 <? p2), (0 <? p3); go H;
    rewrite ?Forall_cons, ?Forall_nil; cbn; intuition.
Qed.

(** A run of [execute] is the run of its [try] block followed by the
    releases of the outer [finally] block. *)
Lemma execute_run actionName params context (w : World H) :
  let b := host.execute_body JSON_stringify JSON_parse ASYNC_BUILD
      actionName params context (frame0, w) in
  let r := host.execute JSON_stringify JSON_parse ASYNC_BUILD actionName params context w in
  out b <> Hang ->
  Forall release_ok (evs r) ->
  out r = out b /\ evs r = evs b ++ release_events (fst (st b)).
Proof.
  intros b r Hb Hok.
  assert (Hevs : evs r = evs b ++ evs (host.execute_finally (st b)))
    by (apply (try_finally_evs _ host.execute_finally); exact Hb).
  rewrite Hevs in Hok |- *. apply Forall_app in Hok as [_ Hfin].
  destruct (st b) as [f w'] eqn:Est.
  destruct (execute_finally_run f w' Hfin) as [Hout ->].
  split; [| reflexivity].
  apply (try_finally_out _ host.execute_finally _ tt); [exact Hb |].
  change (out (host.execute_finally (st b)) = Ret tt). rewrite Est. exact Hout.
Qed.

(** *** The synchronous path *)

Lemma fetch_result_emits (P : event -> Prop) (n : Z) :
  (forall e, is_alloc e = true -> P e) ->
  (forall ptr r, P (Ev (host_getExecutionResult ptr) r)) ->
  (forall ptr len r, P (Ev (wasm_read_string ptr len) r)) ->
  (forall msg e, P (ConsoleError msg e)) ->
  emits P (host.fetch_result (H := H) JSON_parse n).
Proof.
  intros Ha Hg Hr Hc. unfold host.fetch_result, memory.allocate.
  emits_auto; try (apply Ha; reflexivity).
  apply readBufferSlice_emits; auto.
Qed.

(** When the host reports a result of no bytes, the synchronous path
    makes the call, asks for the size, and returns the failure. *)
Lemma execute_synchronous_empty (s : host.param_frame * World H) :
  let g := host.execute_synchronous JSON_parse s in
  In (Ev host_getExecutionResultSize (Ret (RNum 0))) (evs g) ->
  out g = Ret host.empty_result_response /\
  fst (st g) = fst s /\
  exists c, is_host_call c = true /\
            evs g = [c; Ev host_getExecutionResultSize (Ret (RNum 0))].
Proof.
  destruct s as [f w]. intros g. subst g.
  unfold host.execute_synchronous. go H.
  all: try match goal with |- context [if ?a =? 0 then _ else _] =>
      destruct (a =? 0) eqn:Ea end.
  - (* the size is zero *)
    apply Z.eqb_eq in Ea. subst.
    unfold host.release_result, host.release. go H. intros _.
    split; [reflexivity |]. split; [reflexivity |].
    eexists. split; [| reflexivity]. reflexivity.
  - (* the size is not zero: the event cannot be in the trace *)
    apply Z.eqb_neq in Ea.
    match goal with |- context [host.fetch_result JSON_parse ?a ?s] =>
      pose proof (fetch_result_emits
                    (fun e => e <> Ev host_getExecutionResultSize (Ret (RNum 0))) a
                    ltac:(intros [[] ?| |]; discriminate)
                    ltac:(discriminate) ltac:(discriminate) ltac:(discriminate) s)
        as Hfetch;
      destruct (host.fetch_result JSON_parse a s) as [o1 s1 t1]
    end.
    pose proof (release_result_emits
                  (fun e => e <> Ev host_getExecutionResultSize (Ret (RNum 0)))
                  ltac:(discriminate) s1) as Hrel.
    destruct o1; cbn;
      try (destruct (host.release_result s1) as [[] s2 t2]; cbn);
      cbn in Hfetch, Hrel; intros Hin; exfalso;
      repeat (rewrite in_app_iff in Hin || cbn in Hin);
      repeat match goal with
             | Hx : _ \/ _ |- _ => destruct Hx as [Hx | Hx]
             | Hx : Ev _ _ = Ev _ _ |- _ => injection Hx; intros; subst; clear Hx
             | Hx : In _ ?t, Hf : Forall _ ?t |- _ =>
                 exact (Forall_not_In _ _ _ Hf ltac:(auto) Hx)
             end; try discriminate; try contradiction; try lia.
  - intros Hin. cbn in Hin. unfold host.release_result, host.release in *.
    revert Hin. go H. cbn. intuition discriminate.
  - intros Hin. cbn in Hin. intuition discriminate.
  - unfold host.release_result, host.release. go H. cbn. intuition discriminate.
  - cbn. intuition discriminate.
Qed.

(** *** The releases made inside the [try] block *)

Lemma release_length (ptr len : Z) (w : World H) :
  (length (evs (host.release ptr len w)) <= 1)%nat.
Proof.
  unfold host.release, memory.deallocate, prim. destruct (0 <? ptr); cbn; lia.
Qed.

Lemma release_result_length (s : host.result_frame * (host.param_frame * World H)) :
  (length (evs (host.release_result s)) <= 1)%nat.
Proof.
  unfold host.release_result. run.
  match goal with |- context [host.release ?p ?l ?w] =>
    pose proof (release_length p l w) as Hl;
    destruct (host.release p l w) as [[[] | e |] w1 t1]
  end; cbn in *; exact Hl.
Qed.

Lemma read_staged_response_emits (P : event -> Prop) :
  (forall r, P (Ev wasm_get_response_ptr r)) ->
  (forall r, P (Ev wasm_get_response_len r)) ->
  (forall ptr len r, P (Ev (wasm_read_string ptr len) r)) ->
  (forall msg e, P (ConsoleError msg e)) ->
  (forall r, P (Ev wasm_clear_response_buffer r)) ->
  emits P (host.read_staged_response (H := H) JSON_parse).
Proof.
  intros Hp Hl Hr Hc Hb. unfold host.read_staged_response.
  emits_auto. apply readBufferSlice_emits; auto.
Qed.

(** The step of either regime releases nothing but the result buffer,
    and that at most once. *)
Lemma regime_step_releases (s : host.param_frame * World H) :
  (length (List.filter is_dealloc (evs (host.regime_step JSON_parse ASYNC_BUILD s))) <= 1)%nat.
Proof.
  assert (Hgen : forall (body : M (host.result_frame * (host.param_frame * World H)) jsval),
             emits (fun e => is_dealloc e = false) body ->
             (length (List.filter is_dealloc
                (evs (with_locals (host.MkResult 0 0)
                        (try_finally body host.release_result) s))) <= 1)%nat).
  { intros body Hbody. rewrite with_locals_eq, try_finally_eq.
    specialize (Hbody (host.MkResult 0 0, s)).
    apply Forall_filter_nil in Hbody.
    destruct (body (host.MkResult 0 0, s)) as [o s1 t1]. cbn in Hbody.
    pose proof (release_result_length s1) as Hl.
    destruct o; cbn; try (rewrite Hbody; cbn; lia);
      destruct (host.release_result s1) as [[[] | e' |] s2 t2]; cbn in *;
      rewrite List.filter_app, Hbody; cbn;
      (etransitivity; [apply List.filter_length_le | exact Hl]). }
  unfold host.regime_step. destruct ASYNC_BUILD.
  - apply Hgen. emits_auto.
    apply read_staged_response_emits; reflexivity.
  - apply Hgen. emits_auto.
    apply fetch_result_emits; intros; try reflexivity.
    destruct e as [[] ?| |]; try discriminate; reflexivity.
Qed.

(** *** The asyncify path *)

(** The asyncify path first asks for the suspend state; when the answer
    is 2 it ends the rewind, on any other number it issues the call, and
    nothing else of the three happens afterwards. *)
Lemma asyncify_shape (s : host.param_frame * World H) :
  exists o rest,
    evs (host.execute_asyncify JSON_parse s) = Ev asyncify_get_state o :: rest /\
    match o with
    | Ret (RNum v) =>
      if v =? 2
      then exists o' rest', rest = Ev asyncify_stop_rewind o' :: rest' /\ quiet rest'
      else exists c rest', is_host_call c = true /\ rest = c :: rest' /\ quiet rest'
    | _ => quiet rest
    end.
Proof.
  destruct s as [f w]. unfold host.execute_asyncify. go H.
  all: try match goal with |- context [if ?a =? 2 then _ else _] =>
      destruct (a =? 2) eqn:Ea; go H end.
  all: try match goal with |- context [host.read_staged_response JSON_parse ?s] =>
      pose proof (read_staged_response_emits
                    (fun e => asyncify_control e = false)
                    ltac:(reflexivity) ltac:(reflexivity) ltac:(reflexivity)
                    ltac:(reflexivity) ltac:(reflexivity) s)
        as Hread;
      destruct (host.read_staged_response JSON_parse s) as [o1 s1 t1]; cbn in Hread;
      destruct o1; cbn
    end.
  all: try match goal with |- context [host.release_result ?s] =>
      pose proof (release_result_emits (fun e => asyncify_control e = false)
                    ltac:(reflexivity) s) as Hrel;
      destruct (host.release_result s) as [[[] | ? |] s2 t2]; cbn in Hrel; cbn
    end.
  all: eexists; eexists; (split; [reflexivity |]); cbn; rewrite ?Ea.
  all: try solve [do 2 eexists; split;
                    [reflexivity | unfold quiet; rewrite ?Forall_app; auto]].
  all: try solve [do 2 eexists; split;
                    [| split; [reflexivity | unfold quiet; rewrite ?Forall_app; auto]];
                  reflexivity].
  all: try solve [unfold quiet; rewrite ?Forall_app; auto].
Qed.

(** *** The variables of [execute] *)

(** The step of either regime leaves the recorded handles as they are. *)
Lemma regime_step_frame (s : host.param_frame * World H) :
  fst (st (host.regime_step JSON_parse ASYNC_BUILD s)) = fst s.
Proof.
  symmetry. revert s.
  change (preserves same_frame (host.regime_step (H := H) JSON_parse ASYNC_BUILD)).
  unfold host.regime_step, host.execute_asyncify, host.execute_synchronous,
    host.read_staged_response, host.fetch_result, host.release_result.
  destruct ASYNC_BUILD; apply preserves_with_locals; repeat preserves_step.
Qed.

(** *** The whole run *)

(** The events of [execute] are those of its [try] block, followed by
    those of the outer [finally] block unless the [try] block hangs. *)
Lemma execute_evs actionName params context (w : World H) :
  let b := host.execute_body JSON_stringify JSON_parse ASYNC_BUILD
      actionName params context (frame0, w) in
  let r := host.execute JSON_stringify JSON_parse ASYNC_BUILD actionName params context w in
  (out b = Hang /\ out r = Hang /\ evs r = evs b) \/
  (out b <> Hang /\ evs r = evs b ++ evs (host.execute_finally (st b))).
Proof.
  intros b r. destruct (out b) eqn:Eb.
  - right. split; [discriminate |].
    apply (try_finally_evs _ host.execute_finally). fold b. rewrite Eb. discriminate.
  - right. split; [discriminate |].
    apply (try_finally_evs _ host.execute_finally). fold b. rewrite Eb. discriminate.
  - left. split; [reflexivity |]. subst r.
    change (out (try_finally (host.execute_body JSON_stringify JSON_parse ASYNC_BUILD
        actionName params context)
                   host.execute_finally (frame0, w)) = Hang /\
            evs (try_finally (host.execute_body JSON_stringify JSON_parse ASYNC_BUILD
                actionName params context)
                   host.execute_finally (frame0, w)) = evs b).
    rewrite (try_finally_hang _ host.execute_finally _ Eb). auto.
Qed.

(** The events of the [try] block: the marshalling, then the step of
    the regime when the marshalling returns. *)
Lemma execute_body_evs actionName params context (s : host.param_frame * World H) :
  let m := host.marshal JSON_stringify actionName params context s in
  let b := host.execute_body JSON_stringify JSON_parse ASYNC_BUILD
      actionName params context s in
  (out m = Ret tt /\ out b = out (host.regime_step JSON_parse ASYNC_BUILD (st m)) /\
   st b = st (host.regime_step JSON_parse ASYNC_BUILD (st m)) /\
   evs b = evs m ++ evs (host.regime_step JSON_parse ASYNC_BUILD (st m))) \/
  ((forall u, out m <> Ret u) /\ (forall v, out b <> Ret v) /\ evs b = evs m /\
   st b = st m).
Proof.
  intros m b. subst b. unfold host.execute_body. rewrite bind_eq. fold m.
  destruct m as [[[] | e |] sm tm]; cbn.
  - left. destruct (host.regime_step JSON_parse ASYNC_BUILD sm); cbn. auto.
  - right. repeat split; intros; discriminate.
  - right. repeat split; intros; discriminate.
Qed.

(** The handles recorded at the end of the [try] block are those that
    the marshalling recorded. *)
Lemma execute_body_frame actionName params context (s : host.param_frame * World H) :
  fst (st (host.execute_body JSON_stringify JSON_parse ASYNC_BUILD
      actionName params context s))
    = fst (st (host.marshal JSON_stringify actionName params context s)).
Proof.
  destruct (execute_body_evs actionName params context s)
    as [(_ & _ & -> & _) | (_ & _ & _ & ->)]; [apply regime_step_frame | reflexivity].
Qed.

Lemma filter_sub (p q : event -> bool) (t : list event) :
  (forall e, p e = true -> q e = true) ->
  List.filter p (List.filter q t) = List.filter p t.
Proof.
  intros Hpq. induction t as [| e t IH]; cbn; [reflexivity |].
  destruct (q e) eqn:Eq; cbn.
  - destruct (p e); [f_equal |]; exact IH.
  - destruct (p e) eqn:Ep; [| exact IH].
    apply Hpq in Ep. congruence.
Qed.

(** The control events of a run of [execute] are those of the step of
    its regime; the marshalling and the releases add none. *)
Lemma execute_control actionName params context (w : World H) :
  let m := host.marshal JSON_stringify actionName params context (frame0, w) in
  let r := host.execute JSON_stringify JSON_parse ASYNC_BUILD actionName params context w in
  List.filter asyncify_control (evs r) = [] \/
  (out m = Ret tt /\
   List.filter asyncify_control (evs r)
     = List.filter asyncify_control
         (evs (host.regime_step JSON_parse ASYNC_BUILD (st m)))).
Proof.
  intros m r.
  pose proof (execute_evs actionName params context w) as Hevs.
  pose proof (execute_body_evs actionName params context (frame0, w)) as Hbody.
  pose proof (marshal_emits (fun e => asyncify_control e = false) actionName params
                context ltac:(intros [[] ?| |]; try discriminate; reflexivity)
                (frame0, w)) as Hm.
  cbv zeta in Hevs, Hbody. fold m r in Hevs, Hbody, Hm.
  set (b := host.execute_body JSON_stringify JSON_parse ASYNC_BUILD
      actionName params context (frame0, w)) in *.
  pose proof (execute_finally_emits (fun e => asyncify_control e = false)
                ltac:(reflexivity) (st b)) as Hfin.
  apply Forall_filter_nil in Hm, Hfin.
  assert (Hr : List.filter asyncify_control (evs r)
               = List.filter asyncify_control (evs b)).
  { destruct Hevs as [(_ & _ & ->) | (_ & ->)]; [reflexivity |].
    rewrite List.filter_app, Hfin, app_nil_r. reflexivity. }
  rewrite Hr.
  destruct Hbody as [(Em & _ & _ & ->) | (_ & _ & -> & _)].
  - right. split; [exact Em |]. rewrite List.filter_app, Hm. reflexivity.
  - left. exact Hm.
Qed.

(** The [try] block of [execute] asks for at most one release. *)
Lemma execute_body_releases actionName params context (w : World H) :
  (length (List.filter is_dealloc
             (evs (host.execute_body JSON_stringify JSON_parse ASYNC_BUILD
                 actionName params context (frame0, w)))) <= 1)%nat.
Proof.
  pose proof (execute_body_evs actionName params context (frame0, w)) as Hb.
  pose proof (marshal_emits (fun e => is_dealloc e = false) actionName params context
                ltac:(intros [[] ?| |]; try discriminate; reflexivity) (frame0, w)) as Hm.
  apply Forall_filter_nil in Hm. cbv zeta in Hb.
  destruct Hb as [(_ & _ & _ & ->) | (_ & _ & -> & _)].
  - rewrite List.filter_app, Hm. apply regime_step_releases.
  - rewrite Hm. cbn. lia.
Qed.

(** Whatever the host answers, [execute] never asks for the release of
    offset 0 or below. *)
Lemma execute_emits_release_above_zero actionName params context :
  emits release_above_zero (host.execute (H := H) JSON_stringify JSON_parse ASYNC_BUILD
      actionName params context).
Proof.
  unfold host.execute, host.execute_frame, host.execute_body, host.regime_step,
    host.execute_asyncify, host.execute_synchronous.
  emits_auto.
  all: first
    [ apply marshal_emits; intros [[] ?| |]; try discriminate; exact (fun _ => I)
    | apply read_staged_response_emits; intros; exact I
    | apply fetch_result_emits; intros; try exact I;
      match goal with e : event |- _ => destruct e as [[] ?| |] end;
      try discriminate; exact I
    | apply release_result_emits; intros; assumption
    | apply execute_finally_emits; intros; assumption ].
Qed.

End execute_facts.

(** The control events of a run of [execute] in the asyncify build. *)
Lemma execute_asyncify_control (H : HostImpl)
    (JSON_stringify : jsval -> outcome (option jsstring))
    (JSON_parse : jsstring -> outcome jsval)
    (actionName : jsstring) (params context : jsval) (w : World H) :
  let t := List.filter asyncify_control
             (evs (host.execute JSON_stringify JSON_parse true actionName params context w)) in
  t = [] \/
  (exists o, (forall v, o <> Ret (RNum v)) /\ t = [Ev asyncify_get_state o]) \/
  (exists o', t = [Ev asyncify_get_state (Ret (RNum 2)); Ev asyncify_stop_rewind o']) \/
  (exists v c, v <> 2 /\ is_host_call c = true /\
               t = [Ev asyncify_get_state (Ret (RNum v)); c]).
Proof.
  intros t. subst t.
  destruct (execute_control JSON_stringify JSON_parse true actionName params context w)
    as [-> | [_ ->]]; [left; reflexivity | right].
  change (host.regime_step JSON_parse true) with (host.execute_asyncify (H := H) JSON_parse).
  destruct (asyncify_shape JSON_parse
              (st (host.marshal JSON_stringify actionName params context (frame0, w))))
    as (o & rest & -> & Hrest).
  cbn [List.filter asyncify_control].
  destruct o as [[| v |] | e |].
  1, 3, 4, 5:
    left; eexists;
    (split; [| rewrite (Forall_filter_nil _ _ Hrest); reflexivity]);
    intros ?; discriminate.
  destruct (v =? 2) eqn:Ev.
  - apply Z.eqb_eq in Ev. subst v. right. left.
    destruct Hrest as (o' & rest' & -> & Hq). exists o'.
    cbn [List.filter asyncify_control]. rewrite (Forall_filter_nil _ _ Hq). reflexivity.
  - apply Z.eqb_neq in Ev. right. right.
    destruct Hrest as (c & rest' & Hc & -> & Hq). exists v, c.
    split; [exact Ev |]. split; [exact Hc |].
    cbn [List.filter]. replace (asyncify_control c) with true
      by (destruct c as [[] ?| |]; try discriminate; reflexivity).
    rewrite (Forall_filter_nil _ _ Hq). reflexivity.
Qed.

Lemma In_control (e : event) (t : list event) :
  asyncify_control e = true ->
  In e t <-> In e (List.filter asyncify_control t).
Proof. intros He. rewrite List.filter_In. tauto. Qed.

Lemma host_calls_control (t : list event) :
  host_calls t = host_calls (List.filter asyncify_control t).
Proof.
  unfold host_calls. rewrite filter_sub; [reflexivity |].
  intros [[] ?| |]; try discriminate; reflexivity.
Qed.

Lemma host_calls_app (t1 t2 : list event) :
  host_calls (t1 ++ t2) = (host_calls t1 + host_calls t2)%nat.
Proof. unfold host_calls. rewrite List.filter_app, length_app. reflexivity. Qed.

(** C1: in the asyncify regime one logical invocation of [execute]
    issues the blocking call of the host exactly once. On an entry where
    the substrate reports the state Rewinding (2), [execute] calls
    [asyncify_stop_rewind] and does not issue [__host.call]; on an entry
    where it reports any other state, [execute] issues [__host.call]
    once and does not end a rewind. Over a pair of entries, the first
    reporting a state other than 2 and the second reporting 2,
    [__host.call] is seen exactly once. *)
Theorem execute_calls_host_once (H : HostImpl)
    (JSON_stringify : jsval -> outcome (option jsstring))
    (JSON_parse : jsstring -> outcome jsval)
    (actionName : jsstring) (params context : jsval) (w w' : World H) :
  (In (Ev asyncify_get_state (Ret (RNum 2)))
      (evs (host.execute JSON_stringify JSON_parse true actionName params context w)) ->
   host_calls (evs (host.execute JSON_stringify JSON_parse true
                      actionName params context w)) = 0%nat /\
   exists o, In (Ev asyncify_stop_rewind o)
               (evs (host.execute JSON_stringify JSON_parse true
                       actionName params context w))) /\
  (forall v, v <> 2 ->
   In (Ev asyncify_get_state (Ret (RNum v)))
      (evs (host.execute JSON_stringify JSON_parse true actionName params context w)) ->
   host_calls (evs (host.execute JSON_stringify JSON_parse true
                      actionName params context w)) = 1%nat /\
   forall o, ~ In (Ev asyncify_stop_rewind o)
               (evs (host.execute JSON_stringify JSON_parse true
                       actionName params context w))) /\
  (forall v, v <> 2 ->
   In (Ev asyncify_get_state (Ret (RNum v)))
      (evs (host.execute JSON_stringify JSON_parse true actionName params context w)) ->
   In (Ev asyncify_get_state (Ret (RNum 2)))
      (evs (host.execute JSON_stringify JSON_parse true actionName params context w')) ->
   host_calls
     (evs (host.execute JSON_stringify JSON_parse true actionName params context w)
      ++ evs (host.execute JSON_stringify JSON_parse true actionName params context w'))
     = 1%nat).
Proof.
  assert (Hrewinding : forall w0 : World H,
    In (Ev asyncify_get_state (Ret (RNum 2)))
       (evs (host.execute JSON_stringify JSON_parse true actionName params context w0)) ->
    host_calls (evs (host.execute JSON_stringify JSON_parse true
                       actionName params context w0)) = 0%nat /\
    exists o, In (Ev asyncify_stop_rewind o)
                (evs (host.execute JSON_stringify JSON_parse true
                        actionName params context w0))).
  { intros w0 Hin. rewrite host_calls_control.
    apply In_control in Hin; [| reflexivity].
    pose proof (execute_asyncify_control H JSON_stringify JSON_parse
                  actionName params context w0) as Hshape.
    cbv zeta in Hshape.
    destruct Hshape as [E | [(o & Ho & E) | [(o' & E) | (v & c & Hv & Hc & E)]]];
      rewrite E in Hin |- *; cbn in Hin.
    - contradiction.
    - destruct Hin as [[= ->] | []]. destruct (Ho 2 eq_refl).
    - split; [reflexivity |]. exists o'.
      apply (In_control (Ev asyncify_stop_rewind o')); [reflexivity |].
      rewrite E. cbn. auto.
    - destruct Hin as [[= ->] | [-> | []]]; [destruct (Hv eq_refl) | discriminate]. }
  assert (Hnormal : forall v, v <> 2 ->
    In (Ev asyncify_get_state (Ret (RNum v)))
       (evs (host.execute JSON_stringify JSON_parse true actionName params context w)) ->
    host_calls (evs (host.execute JSON_stringify JSON_parse true
                       actionName params context w)) = 1%nat /\
    forall o, ~ In (Ev asyncify_stop_rewind o)
                (evs (host.execute JSON_stringify JSON_parse true
                        actionName params context w))).
  { intros v Hv Hin. rewrite host_calls_control.
    apply In_control in Hin; [| reflexivity].
    pose proof (execute_asyncify_control H JSON_stringify JSON_parse
                  actionName params context w) as Hshape.
    cbv zeta in Hshape.
    destruct Hshape as [E | [(o & Ho & E) | [(o' & E) | (v' & c & Hv' & Hc & E)]]];
      rewrite E in Hin |- *; cbn in Hin.
    - contradiction.
    - destruct Hin as [[= ->] | []]. destruct (Ho v eq_refl).
    - destruct Hin as [[= <-] | [[=] | []]]. destruct (Hv eq_refl).
    - split.
      + unfold host_calls. cbn. rewrite Hc. reflexivity.
      + intros o Ho. apply In_control in Ho; [| reflexivity].
        rewrite E in Ho. cbn in Ho.
        destruct Ho as [[=] | [Hc' | []]]. rewrite Hc' in Hc. discriminate. }
  split; [apply Hrewinding |]. split; [exact Hnormal |].
  intros v Hv Hin Hin'. rewrite host_calls_app.
  destruct (Hnormal v Hv Hin) as [-> _].
  destruct (Hrewinding w' Hin') as [-> _]. reflexivity.
Qed.

Lemma execute_calls_host_once_witness :
  0 <> 2 /\
  In (Ev asyncify_get_state (Ret (RNum 0))) (evs first_entry) /\
  In (Ev asyncify_get_state (Ret (RNum 2))) (evs second_entry) /\
  host_calls (evs first_entry ++ evs second_entry) = 1%nat.
Proof.
  assert (H0 : 0 <> 2) by lia.
  assert (H1 : In (Ev asyncify_get_state (Ret (RNum 0))) (evs first_entry))
    by (vm_compute; repeat first [left; reflexivity | right]).
  assert (H2 : In (Ev asyncify_get_state (Ret (RNum 2))) (evs second_entry))
    by (vm_compute; repeat first [left; reflexivity | right]).
  split; [exact H0 |]. split; [exact H1 |]. split; [exact H2 |].
  exact (proj2 (proj2 (execute_calls_host_once demo_host mock.JSON_stringify
                         (mock.JSON_parse [(ok_text, ok_value)]) (js "echo") JNull
                         index.unknown_context (mock.start_asynchronous ok_text)
                         (st first_entry))) 0 H0 H1 H2).
Defined.

(** What the two entries look like at the boundary. *)
Example first_entry_unwinds :
  out first_entry = Hang /\
  List.filter asyncify_control (evs first_entry)
    = [Ev asyncify_get_state (Ret (RNum 0)); Ev (host_call 16 4 20 4 24 36) Hang].
Proof. vm_compute. split; reflexivity. Qed.

Example second_entry_resumes :
  out second_entry = Ret ok_value /\
  List.filter asyncify_control (evs second_entry)
    = [Ev asyncify_get_state (Ret (RNum 2)); Ev asyncify_stop_rewind (Ret RUnit)].
Proof. vm_compute. split; reflexivity. Qed.
(** ** The releases of a call *)

(** The outer [finally] block ends normally exactly when none of its
    release calls faults. *)
Lemma execute_finally_ok {H : HostImpl} (s : host.param_frame * World H) :
  out (host.execute_finally s) = Ret tt <->
  Forall release_ok (evs (host.execute_finally s)).
Proof.
  destruct s as [[p1 l1 p2 l2 p3 l3] w].
  unfold host.execute_finally, host.release, memory.deallocate. run.
  destruct (0 <? p1), (0 <? p2), (0 <? p3); go H;
    rewrite ?Forall_cons, ?Forall_nil; cbn; intuition discriminate.
Qed.

Section release_facts.
Context {H : HostImpl}.
Variable JSON_stringify : jsval -> outcome (option jsstring).
Variable JSON_parse : jsstring -> outcome jsval.
Variable ASYNC_BUILD : bool.

(** The frame that the marshalling leaves records the handles that
    [stringToPtr] returned, and offset 0 for the others: the releases
    of the frame are those of the handles acquired. *)
Lemma marshal_acquired actionName params context (w : World H) :
  release_events
    (fst (st (host.marshal JSON_stringify actionName params context (frame0, w))))
    = releases (acquired JSON_stringify actionName params context w).
Proof.
  unfold host.marshal, acquired, releases, release_events.
  destruct (JSON_stringify (coalesce params JNull)) as [paramsJSON | e |];
    [| run; reflexivity | run; reflexivity].
  destruct (JSON_stringify context) as [contextJSON | e |];
    [| run; reflexivity | run; reflexivity].
  run.
  destruct (memory.stringToPtr actionName w) as [[a | e |] w1 t1];
    [| run; reflexivity | run; reflexivity].
  run.
  destruct (host.stringToPtr_json paramsJSON w1) as [[p | e |] w2 t2];
    [| run; rewrite app_nil_r; reflexivity | run; rewrite app_nil_r; reflexivity].
  run.
  destruct (host.stringToPtr_json contextJSON w2) as [[c | e |] w3 t3];
    run; rewrite ?app_nil_r; reflexivity.
Qed.

(** A call that comes back has run the outer [finally] block after
    its [try] block; when none of the release calls of that block
    faults, they are the releases of the handles acquired, and the
    outcome of the [try] block is kept. *)
Lemma execute_finals actionName params context (w : World H) :
  let r := host.execute JSON_stringify JSON_parse ASYNC_BUILD actionName params context w in
  let b := host.execute_body JSON_stringify JSON_parse ASYNC_BUILD
             actionName params context (frame0, w) in
  out r <> Hang ->
  out b <> Hang /\
  evs r = evs b ++ evs (host.execute_finally (st b)) /\
  (Forall release_ok (evs (host.execute_finally (st b))) ->
   evs (host.execute_finally (st b))
     = releases (acquired JSON_stringify actionName params context w) /\
   out r = out b).
Proof.
  intros r b Hr.
  destruct (execute_evs JSON_stringify JSON_parse ASYNC_BUILD actionName params
              context w) as [(_ & E & _) | (Hb & Hevs)]; [destruct (Hr E) |].
  fold r b in Hb, Hevs. split; [exact Hb |]. split; [exact Hevs |].
  intros Hok. destruct (st b) as [f w'] eqn:Est.
  destruct (execute_finally_run JSON_stringify f w' Hok) as [Hout Hfin].
  split.
  - rewrite Hfin. replace f with (fst (st b)) by (rewrite Est; reflexivity).
    subst b. rewrite execute_body_frame. apply marshal_acquired.
  - apply (try_finally_out _ host.execute_finally _ tt); [exact Hb |].
    change (out (host.execute_finally (st b)) = Ret tt). rewrite Est. exact Hout.
Qed.

End release_facts.
(** C3, as the specification states it, fails: when the release of a
    parameter buffer faults, [execute] throws that fault instead of
    returning the failure response. Here the host reports a result of
    no bytes and its arena faults on the first release. *)
Lemma execute_empty_result_lost_on_release_fault :
  In (Ev host_getExecutionResultSize (Ret (RNum 0)))
     (evs (demo_execute release_fault_host false [] (js "echo") JNull
             index.unknown_context (mock.start 0 [] []))) /\
  out (demo_execute release_fault_host false [] (js "echo") JNull
         index.unknown_context (mock.start 0 [] []))
    = Throw mock.fault /\
  List.filter is_dealloc
    (evs (demo_execute release_fault_host false [] (js "echo") JNull
            index.unknown_context (mock.start 0 [] [])))
    = [Ev (wasm_dealloc 16 4) (Throw mock.fault)].
Proof.
  vm_compute. split; [| split; reflexivity].
  repeat first [left; reflexivity | right].
Qed.

(** C3, amended: in the synchronous regime, when the host reports a
    result of no bytes, [execute] allocates no result buffer: after the
    marshalling of the three parameters the boundary sees the call, the
    size query and the release calls of the outer [finally] block, and
    nothing else. It returns the failure response
    [{ error: { message: 'Host returned an empty result.' }, ok: false }]
    exactly when none of these release calls faults; a release that
    faults replaces the response by its fault. *)
Theorem execute_empty_result (H : HostImpl)
    (JSON_stringify : jsval -> outcome (option jsstring))
    (JSON_parse : jsstring -> outcome jsval)
    (actionName : jsstring) (params context : jsval) (w : World H) :
  let r := host.execute JSON_stringify JSON_parse false actionName params context w in
  let m := host.marshal JSON_stringify actionName params context (frame0, w) in
  In (Ev host_getExecutionResultSize (Ret (RNum 0))) (evs r) ->
  (exists c finals,
     is_host_call c = true /\
     evs r = evs m ++ [c; Ev host_getExecutionResultSize (Ret (RNum 0))] ++ finals /\
     Forall (fun e => is_dealloc e = true) finals) /\
  List.filter is_alloc (evs r) = List.filter is_alloc (evs m) /\
  (out r = Ret (JObj [(js "error",
                       JObj [(js "message", JStr (js "Host returned an empty result."))]);
                      (js "ok", JBool false)])
   <-> Forall release_ok (evs r)).
Proof.
  intros r m Hin.
  set (size0 := Ev host_getExecutionResultSize (Ret (RNum 0))) in *.
  pose proof (execute_evs JSON_stringify JSON_parse false actionName params context w)
    as Hevs.
  pose proof (execute_body_evs JSON_stringify JSON_parse false actionName params context
                (frame0, w)) as Hbody.
  pose proof (marshal_emits JSON_stringify (fun e => e <> size0) actionName params context
                ltac:(intros [[] ?| |]; discriminate) (frame0, w)) as Hm.
  pose proof (marshal_emits JSON_stringify release_ok actionName params context
                ltac:(intros [[] ?| |]; try discriminate; exact (fun _ => I)) (frame0, w))
    as Hmok.
  cbv zeta in Hevs, Hbody. fold r m in Hevs, Hbody, Hm, Hmok.
  set (b := host.execute_body JSON_stringify JSON_parse false actionName params context
              (frame0, w)) in *.
  pose proof (execute_finally_emits (fun e => e <> size0) ltac:(discriminate) (st b))
    as Hfin.
  pose proof (execute_finally_emits (fun e => is_dealloc e = true)
                ltac:(reflexivity) (st b)) as Hdealloc.
  assert (Hinb : In size0 (evs b)).
  { destruct Hevs as [(_ & _ & E) | (_ & E)]; rewrite E in Hin; [exact Hin |].
    apply in_app_iff in Hin as [Hin | Hin]; [exact Hin |].
    destruct (Forall_not_In _ _ _ Hfin ltac:(auto) Hin). }
  destruct Hbody as [(Em & Eout & Est & Eevs) | (_ & _ & Eevs)].
  2: { destruct Eevs as [Eevs _]. rewrite Eevs in Hinb.
       destruct (Forall_not_In _ _ _ Hm ltac:(auto) Hinb). }
  rewrite Eevs in Hinb. apply in_app_iff in Hinb as [Hinb | Hinb].
  { destruct (Forall_not_In _ _ _ Hm ltac:(auto) Hinb). }
  destruct (execute_synchronous_empty JSON_stringify JSON_parse (st m) Hinb)
    as (Hg & Hframe & c & Hc & Hgevs).
  change (host.regime_step JSON_parse false (st m))
    with (host.execute_synchronous JSON_parse (st m)) in *.
  assert (Hb : out b <> Hang) by (rewrite Eout, Hg; discriminate).
  destruct Hevs as [(Eb & _) | (_ & Er)]; [contradiction |].
  assert (Hshape : evs r = evs m ++ [c; size0] ++ evs (host.execute_finally (st b))).
  { rewrite Er, Eevs, Hgevs, <- app_assoc. reflexivity. }
  split; [exists c, (evs (host.execute_finally (st b))); auto |].
  split.
  { rewrite Hshape, !List.filter_app.
    replace (List.filter is_alloc [c; size0]) with (@nil event)
      by (destruct c as [[] ?| |]; try discriminate; reflexivity).
    rewrite (Forall_filter_nil is_alloc (evs (host.execute_finally (st b)))).
    - rewrite !app_nil_r. reflexivity.
    - eapply Forall_impl; [exact Hdealloc |].
      intros [[] ?| |]; try discriminate; reflexivity. }
  assert (Hok : Forall release_ok (evs r)
                <-> Forall release_ok (evs (host.execute_finally (st b)))).
  { rewrite Hshape, !Forall_app. split; [tauto |]. intros Hf.
    split; [exact Hmok |]. split; [| exact Hf].
    repeat constructor. destruct c as [[] ?| |]; try discriminate; exact I. }
  rewrite Hok, <- execute_finally_ok.
  assert (Hr : r = drop_locals (finally_after host.execute_finally b)).
  { subst r b. unfold host.execute, host.execute_frame.
    rewrite with_locals_eq, try_finally_eq. reflexivity. }
  rewrite Hr. destruct b as [ob sb tb]. cbn in Eout, Hb |- *.
  rewrite Hg in Eout. subst ob. cbn.
  destruct (host.execute_finally sb) as [[[] | e |] sf tf]; cbn;
    split; intros; reflexivity || discriminate.
Qed.

Lemma execute_empty_result_witness :
  In (Ev host_getExecutionResultSize (Ret (RNum 0)))
     (evs (demo_execute demo_host false [] (js "echo") JNull index.unknown_context
             (mock.start 0 [] []))) /\
  Forall release_ok
     (evs (demo_execute demo_host false [] (js "echo") JNull index.unknown_context
             (mock.start 0 [] []))) /\
  out (demo_execute demo_host false [] (js "echo") JNull index.unknown_context
         (mock.start 0 [] []))
    = Ret (JObj [(js "error",
                  JObj [(js "message", JStr (js "Host returned an empty result."))]);
                 (js "ok", JBool false)]).
Proof.
  assert (Hin : In (Ev host_getExecutionResultSize (Ret (RNum 0)))
     (evs (demo_execute demo_host false [] (js "echo") JNull index.unknown_context
             (mock.start 0 [] [])))).
  { vm_compute. repeat first [left; reflexivity | right]. }
  assert (Hok : Forall release_ok
     (evs (demo_execute demo_host false [] (js "echo") JNull index.unknown_context
             (mock.start 0 [] [])))).
  { vm_compute. repeat constructor. }
  split; [exact Hin |]. split; [exact Hok |].
  exact (proj2 (proj2 (proj2 (execute_empty_result demo_host mock.JSON_stringify
                                (mock.JSON_parse []) (js "echo") JNull
                                index.unknown_context (mock.start 0 [] []) Hin)))
               Hok).
Defined.
(** C2, as the specification states it, fails. A parameter buffer that
    the arena allocated at offset 0 is not released: here the arena
    hands out offsets from 0 on, the four octets of the action name are
    written at offset 0, the call returns normally, and the only
    releases are those of the two other buffers. And a release that
    faults ends the [finally] block: here the arena faults on the
    release of the first buffer, and the two others are never released. *)
Lemma execute_leaves_buffers_unreleased :
  (acquired mock.JSON_stringify (js "echo") JNull index.unknown_context low_arena_world
     = [(0, 4); (4, 4); (8, 36)] /\
   (exists v, out (demo_execute demo_host false [] (js "echo") JNull
                     index.unknown_context low_arena_world) = Ret v) /\
   List.filter is_dealloc
     (evs (demo_execute demo_host false [] (js "echo") JNull index.unknown_context
             low_arena_world))
     = [Ev (wasm_dealloc 4 4) (Ret RUnit); Ev (wasm_dealloc 8 36) (Ret RUnit)]) /\
  (acquired (H := release_fault_host) mock.JSON_stringify (js "echo") JNull
     index.unknown_context (mock.start 0 [] [])
     = [(16, 4); (20, 4); (24, 36)] /\
   out (demo_execute release_fault_host false [] (js "echo") JNull
          index.unknown_context (mock.start 0 [] [])) = Throw mock.fault /\
   List.filter is_dealloc
     (evs (demo_execute release_fault_host false [] (js "echo") JNull
             index.unknown_context (mock.start 0 [] [])))
     = [Ev (wasm_dealloc 16 4) (Throw mock.fault)]).
Proof.
  split; (split; [vm_compute; reflexivity |]); split;
    try (vm_compute; reflexivity).
  eexists. vm_compute. reflexivity.
Qed.

(** C2, amended: for every call to [execute] that comes back (normal
    return, early error return or exception), when no release call of
    the outer [finally] block faults, each parameter buffer whose handle
    [stringToPtr] returned at an offset above zero is released exactly
    once, with the length of its handle, by that block, in the order
    action name, parameters, context, and the outcome of the [try] block
    is kept; a buffer at offset 0 is not released. The [try] block
    itself asks for at most one release, that of the result buffer. *)
Theorem execute_releases_acquired_buffers (H : HostImpl)
    (JSON_stringify : jsval -> outcome (option jsstring))
    (JSON_parse : jsstring -> outcome jsval) (ASYNC_BUILD : bool)
    (actionName : jsstring) (params context : jsval) (w : World H) :
  let r := host.execute JSON_stringify JSON_parse ASYNC_BUILD actionName params context w in
  let b := host.execute_body JSON_stringify JSON_parse ASYNC_BUILD
             actionName params context (frame0, w) in
  out r <> Hang ->
  exists finals,
    evs r = evs b ++ finals /\
    (length (List.filter is_dealloc (evs b)) <= 1)%nat /\
    (Forall release_ok finals ->
     finals = releases (acquired JSON_stringify actionName params context w) /\
     out r = out b).
Proof.
  intros r b Hr.
  destruct (execute_finals JSON_stringify JSON_parse ASYNC_BUILD actionName params
              context w Hr) as (_ & Hevs & Hfin).
  eexists. split; [exact Hevs |]. split; [apply execute_body_releases | exact Hfin].
Qed.

Lemma execute_releases_acquired_buffers_witness :
  out (demo_execute demo_host false [(ok_text, ok_value)] (js "echo") JNull
         index.unknown_context (mock.start 0 ok_text [])) <> Hang /\
  acquired (H := demo_host) mock.JSON_stringify (js "echo") JNull index.unknown_context
    (mock.start 0 ok_text [])
    = [(16, 4); (20, 4); (24, 36)] /\
  exists finals,
    evs (demo_execute demo_host false [(ok_text, ok_value)] (js "echo") JNull
           index.unknown_context (mock.start 0 ok_text []))
      = evs (demo_execute_body demo_host false [(ok_text, ok_value)] (js "echo") JNull
               index.unknown_context (frame0, mock.start 0 ok_text [])) ++ finals /\
    (length
       (List.filter is_dealloc
          (evs (demo_execute_body demo_host false [(ok_text, ok_value)] (js "echo")
                  JNull index.unknown_context (frame0, mock.start 0 ok_text []))))
     <= 1)%nat /\
    (Forall release_ok finals ->
     finals
       = releases
           (acquired (H := demo_host) mock.JSON_stringify (js "echo") JNull
              index.unknown_context (mock.start 0 ok_text [])) /\
     out (demo_execute demo_host false [(ok_text, ok_value)] (js "echo") JNull
            index.unknown_context (mock.start 0 ok_text []))
       = out (demo_execute_body demo_host false [(ok_text, ok_value)] (js "echo") JNull
                index.unknown_context (frame0, mock.start 0 ok_text []))).
Proof.
  assert (Hr : out (demo_execute demo_host false [(ok_text, ok_value)] (js "echo")
                      JNull index.unknown_context (mock.start 0 ok_text []))
               <> Hang) by (vm_compute; discriminate).
  split; [exact Hr |]. split; [vm_compute; reflexivity |].
  exact (execute_releases_acquired_buffers demo_host mock.JSON_stringify
           (mock.JSON_parse [(ok_text, ok_value)]) false (js "echo") JNull
           index.unknown_context (mock.start 0 ok_text []) Hr).
Defined.
Section result_release.
Context {H : HostImpl}.
Variable JSON_parse : jsstring -> outcome jsval.
Variable ASYNC_BUILD : bool.

(** The step of either regime, when it comes back, has asked for the
    release of the result buffer that it recorded, if the offset of that
    buffer is above zero: the buffer that the host staged in the
    asyncify regime, the buffer that the step allocated in the
    synchronous one. *)
Lemma regime_step_releases_result (s : host.param_frame * World H) (p : Z) :
  out (host.regime_step JSON_parse ASYNC_BUILD s) <> Hang ->
  In (Ev wasm_get_response_ptr (Ret (RNum p)))
     (evs (host.regime_step JSON_parse ASYNC_BUILD s)) \/
  (exists n, In (Ev (wasm_alloc n) (Ret (RNum p)))
               (evs (host.regime_step JSON_parse ASYNC_BUILD s))) ->
  0 < p ->
  exists n o, In (Ev (wasm_dealloc p n) o)
                (evs (host.regime_step JSON_parse ASYNC_BUILD s)).
Proof.
  destruct s as [f w].
  unfold host.regime_step, host.execute_asyncify, host.execute_synchronous,
    host.read_staged_response, host.fetch_result, host.release_result, host.release,
    memory.deallocate, memory.allocate, memory.readBufferSlice.
  destruct ASYNC_BUILD; explore H.
  all: intros Hout [Hin | [n Hin]] Hpos; try (exfalso; apply Hout; reflexivity).
  all: which_event.
  all: try match goal with
           | Hx : (0 <? _) = false |- _ => apply Z.ltb_ge in Hx; lia
           end.
  all: do 2 eexists; repeat first [left; reflexivity | right].
Qed.

(** Every release that the step asks for is at an offset above zero. *)
Lemma regime_step_release_above_zero :
  emits release_above_zero (host.regime_step (H := H) JSON_parse ASYNC_BUILD).
Proof.
  unfold host.regime_step, host.execute_asyncify, host.execute_synchronous.
  destruct ASYNC_BUILD; emits_auto.
  all: first
    [ apply read_staged_response_emits; intros; exact I
    | apply fetch_result_emits; intros; try exact I;
      match goal with e : event |- _ => destruct e as [[] ?| |] end;
      try discriminate; exact I
    | apply release_result_emits; intros; assumption ].
Qed.

End result_release.
(** The releases of a list of handles are those of its handles above
    zero. *)
Lemma releases_spec (handles : list (Z * Z)) (ptr len : Z) :
  In (Ev (wasm_dealloc ptr len) (Ret RUnit)) (releases handles) <->
  0 < ptr /\ In (ptr, len) handles.
Proof.
  unfold releases. induction handles as [| [p l] handles IH]; cbn; [tauto |].
  rewrite in_app_iff, IH. unfold release_event.
  destruct (0 <? p) eqn:E; cbn; rewrite ?Z.ltb_lt, ?Z.ltb_ge in E.
  - split.
    + intros [[[= -> ->] | []] | [Hpos Hin]]; auto.
    + intros [Hpos [[= -> ->] | Hin]]; auto.
  - split.
    + intros [[] | [Hpos Hin]]; auto.
    + intros [Hpos [[= -> ->] | Hin]]; [lia | auto].
Qed.

(** C9, as stated, fails: a buffer whose recorded offset is above zero
    is not always passed to [deallocate]. On the first entry of a call
    in the asyncify regime the blocking call unwinds the stack, and
    none of the three parameter buffers, at offsets 16, 20 and 24, is
    released. And when the release of the first buffer faults, the two
    others, at offsets 20 and 24, are never passed to [deallocate]. *)
Lemma execute_unwound_releases_nothing :
  (out first_entry = Hang /\
   acquired (H := demo_host) mock.JSON_stringify (js "echo") JNull index.unknown_context
     (mock.start_asynchronous ok_text)
     = [(16, 4); (20, 4); (24, 36)] /\
   List.filter is_dealloc (evs first_entry) = []) /\
  (acquired (H := release_fault_host) mock.JSON_stringify (js "echo") JNull
     index.unknown_context (mock.start 0 [] [])
     = [(16, 4); (20, 4); (24, 36)] /\
   List.filter is_dealloc
     (evs (demo_execute release_fault_host false [] (js "echo") JNull
             index.unknown_context (mock.start 0 [] [])))
     = [Ev (wasm_dealloc 16 4) (Throw mock.fault)]).
Proof. vm_compute. repeat split; reflexivity. Qed.

(** C9, amended: [execute] never asks for the release of an offset that
    is not above zero, whatever the host answers and on every path.
    When the call comes back and no release call of the outer [finally]
    block faults, a parameter buffer whose handle [stringToPtr] returned
    is passed to [deallocate] by that block if and only if its offset is
    above zero. When the call comes back, the result buffer that the step of
    the regime recorded (the buffer staged by the host in the asyncify
    regime, the buffer allocated for the result in the synchronous one)
    is passed to [deallocate] by the inner [finally] block if and only
    if its offset is above zero. *)
Theorem execute_releases_iff_above_zero (H : HostImpl)
    (JSON_stringify : jsval -> outcome (option jsstring))
    (JSON_parse : jsstring -> outcome jsval) (ASYNC_BUILD : bool)
    (actionName : jsstring) (params context : jsval) (w : World H) :
  let r := host.execute JSON_stringify JSON_parse ASYNC_BUILD actionName params context w in
  let b := host.execute_body JSON_stringify JSON_parse ASYNC_BUILD
             actionName params context (frame0, w) in
  let m := host.marshal JSON_stringify actionName params context (frame0, w) in
  let step := host.regime_step JSON_parse ASYNC_BUILD (st m) in
  Forall release_above_zero (evs r) /\
  (out r <> Hang ->
   exists released,
     evs r = evs b ++ released /\
     (Forall release_ok released ->
      forall ptr len,
        In (ptr, len) (acquired JSON_stringify actionName params context w) ->
        (In (Ev (wasm_dealloc ptr len) (Ret RUnit)) released <-> 0 < ptr))) /\
  (out r <> Hang -> out m = Ret tt ->
   evs b = evs m ++ evs step /\
   forall p,
     In (Ev wasm_get_response_ptr (Ret (RNum p))) (evs step) \/
     (exists n, In (Ev (wasm_alloc n) (Ret (RNum p))) (evs step)) ->
     ((exists n o, In (Ev (wasm_dealloc p n) o) (evs step)) <-> 0 < p)).
Proof.
  intros r b m step.
  assert (Hexit : out r <> Hang -> out b <> Hang).
  { intros Hr Eb.
    destruct (execute_evs JSON_stringify JSON_parse ASYNC_BUILD actionName params
                context w) as [(_ & E & _) | (Hb & _)];
      [exact (Hr E) | exact (Hb Eb)]. }
  split; [apply execute_emits_release_above_zero |]. split.
  - intros Hr.
    destruct (execute_finals JSON_stringify JSON_parse ASYNC_BUILD actionName params
                context w Hr) as (_ & Hevs & Hfin).
    eexists. split; [exact Hevs |].
    intros Hok ptr len Hin. destruct (Hfin Hok) as [-> _].
    rewrite releases_spec. tauto.
  - intros Hr Hm.
    destruct (execute_body_evs JSON_stringify JSON_parse ASYNC_BUILD actionName params
                context (frame0, w)) as [(_ & Eout & _ & Eevs) | (Hno & _)];
      [| destruct (Hno tt Hm)].
    fold b m step in Eout, Eevs. split; [exact Eevs |].
    intros p Hrec. split.
    + intros (n & o & Hin).
      pose proof (regime_step_release_above_zero JSON_parse ASYNC_BUILD (st m)) as Hz.
      fold step in Hz.
      exact (proj1 (List.Forall_forall _ _) Hz _ Hin).
    + apply regime_step_releases_result; [| exact Hrec].
      fold step. rewrite <- Eout. exact (Hexit Hr).
Qed.

Lemma execute_releases_iff_above_zero_witness :
  out (demo_execute null_host false [] (js "") JNull index.unknown_context
         (mock.start 0 [] [])) <> Hang /\
  acquired (H := null_host) mock.JSON_stringify (js "") JNull index.unknown_context
    (mock.start 0 [] [])
    = [(0, 0); (16, 4); (20, 36)] /\
  exists released,
    evs (demo_execute null_host false [] (js "") JNull index.unknown_context
           (mock.start 0 [] []))
      = evs (demo_execute_body null_host false [] (js "") JNull index.unknown_context
               (frame0, mock.start 0 [] [])) ++ released /\
    (Forall release_ok released ->
     forall ptr len,
       In (ptr, len)
          (acquired (H := null_host) mock.JSON_stringify (js "") JNull
             index.unknown_context (mock.start 0 [] [])) ->
       (In (Ev (wasm_dealloc ptr len) (Ret RUnit)) released <-> 0 < ptr)).
Proof.
  assert (Hr : out (demo_execute null_host false [] (js "") JNull
                      index.unknown_context (mock.start 0 [] [])) <> Hang)
    by (vm_compute; discriminate).
  split; [exact Hr |]. split; [vm_compute; reflexivity |].
  exact (proj1 (proj2 (execute_releases_iff_above_zero null_host mock.JSON_stringify
                         (mock.JSON_parse []) false (js "") JNull index.unknown_context
                         (mock.start 0 [] []))) Hr).
Defined.

(** ** The delegation channel *)

Section channel_facts.
Context {H : HostImpl}.

(** The wrapper creates its channel object, installs it whatever the
    global held before, and runs the application in that world. *)
Lemma main_handler_eq (app : M (World H) unit) (w : World H) :
  build.main_handler app w =
    finally_after build.delete_channel
      (and_then
         (fun _ : unit =>
            bind (build.channel_promise (slot w))
              (fun p =>
                 match p with
                 | Some pending => await pending
                 | None =>
                   bind (console_warn
                     (js "SDK build warning: simple.Handle was not called by the user application."))
                     (fun _ => ret JUndefined)
                 end))
         (app (installed w))).
Proof.
  unfold build.main_handler. rewrite bind_eq. cbn.
  rewrite try_finally_eq, bind_eq. cbn. rewrite bind_eq, !prepend_nil. reflexivity.
Qed.


(** The driver inside the script worker, once the request is read and
    the handler has returned its promise: the promise goes into the
    channel, and a missing channel is an error of its own. *)
Lemma handle_worker_run (JSON_stringify : jsval -> outcome (option jsstring))
    (JSON_parse : jsstring -> outcome jsval) (handler : index.Handler)
    (w w1 w2 : World H) (text : jsstring) (req : jsval) (request : index.Request)
    (p : promise) (t1 t2 : list event) :
  index.readInputFromHost JSON_stringify worker_override.getContext w
    = MkRun (Ret (Some text)) w1 t1 ->
  index.no_text (Some text) = false ->
  JSON_parse text = Ret req ->
  index.new_Request req w1 = MkRun (Ret request) w1 [] ->
  handler request w1 = MkRun (Ret p) w2 t2 ->
  worker_handle H JSON_stringify JSON_parse handler w =
    match promise_channel w2 with
    | None => MkRun (Throw missing_channel_error) w2 (t1 ++ t2)
    | Some c =>
      MkRun (Ret JUndefined) (with_channels w2 (<[c := Some p]> (channels w2))) (t1 ++ t2)
    end.
Proof.
  intros Hin Htext Hparse Hreq Hhandler. unfold index.handle_worker.
  rewrite bind_eq, Hin. cbn [and_then]. rewrite Htext.
  unfold index.text_of. run. rewrite Hparse. cbn [and_then prepend].
  rewrite bind_eq, Hreq. cbn [and_then prepend].
  rewrite bind_eq, Hhandler. cbn [and_then prepend].
  rewrite bind_eq. unfold index.get_promise_channel. cbn [and_then prepend].
  destruct (promise_channel w2) as [c |]; run; rewrite ?app_nil_r; reflexivity.
Qed.

End channel_facts.




(** C6, as the specification states it, fails: when the application
    ends without having placed a result in the slot, the wrapper raises
    no error; it returns [undefined] as a normal result. *)
Lemma main_handler_not_invoked_is_no_error :
  out (build.main_handler (ret tt) bare_world) = Ret JUndefined /\
  ~ (exists e, out (build.main_handler (ret tt) bare_world)
               = Throw e).
Proof.
  split; [reflexivity |]. intros [e He]. vm_compute in He. discriminate.
Qed.

(** C6, amended: when the delegated program runs to completion without
    placing a pending result in the slot, the wrapper logs the warning
    that [simple.Handle] was not called and returns [undefined] as a
    normal result, with the slot removed: it raises no error and does
    not hang. This differs from a handler whose promise rejects, which
    the wrapper reports by rejecting with the same reason, and from a
    missing channel, for which the driver throws an error of its own
    when it comes to place the promise. *)
Theorem main_handler_not_invoked (H : HostImpl) (app : M (World H) unit)
    (w : World H) :
  out (app (installed w)) = Ret tt ->
  (slot_promise (st (app (installed w))) (slot w) = None ->
   build.main_handler app w =
     MkRun (Ret JUndefined) (with_promise_channel (st (app (installed w))) None)
           (evs (app (installed w)) ++ [not_called_warning])) /\
  (forall reason,
   slot_promise (st (app (installed w))) (slot w) = Some (Rejected reason) ->
   build.main_handler app w =
     MkRun (Throw reason) (with_promise_channel (st (app (installed w))) None)
           (evs (app (installed w)))) /\
  (forall JSON_stringify JSON_parse handler w0 w1 w2 text req request p t1 t2,
   index.readInputFromHost JSON_stringify worker_override.getContext w0
     = MkRun (Ret (Some text)) w1 t1 ->
   index.no_text (Some text) = false ->
   JSON_parse text = Ret req ->
   index.new_Request req w1 = MkRun (Ret request) w1 [] ->
   handler request w1 = MkRun (Ret p) w2 t2 ->
   promise_channel w2 = None ->
   worker_handle H JSON_stringify JSON_parse handler w0
     = MkRun (Throw missing_channel_error) w2 (t1 ++ t2)).
Proof.
  intros Happ. split; [| split].
  - rewrite main_handler_eq.
    destruct (app (installed w)) as [o s t]. cbn in Happ. subst o.
    unfold slot_promise. cbn [st evs and_then].
    rewrite bind_eq. unfold build.channel_promise. cbn [and_then prepend].
    intros ->. rewrite bind_eq. cbn. rewrite app_nil_r. reflexivity.
  - rewrite main_handler_eq.
    destruct (app (installed w)) as [o s t]. cbn in Happ. subst o.
    unfold slot_promise. cbn [st evs and_then].
    rewrite bind_eq. unfold build.channel_promise. cbn [and_then prepend].
    intros reason ->. cbn. rewrite !app_nil_r. reflexivity.
  - intros JSON_stringify JSON_parse handler w0 w1 w2 text req request p t1 t2
      Hin Htext Hparse Hreq Hhandler Hnone.
    rewrite (handle_worker_run JSON_stringify JSON_parse handler w0 w1 w2 text req
               request p t1 t2 Hin Htext Hparse Hreq Hhandler), Hnone.
    reflexivity.
Qed.

Lemma main_handler_not_invoked_witness :
  out (ret (S := World demo_host) tt (installed bare_world)) = Ret tt /\
  slot_promise (st (ret tt (installed bare_world)))
    (slot bare_world) = None /\
  build.main_handler (ret tt) bare_world =
    MkRun (Ret JUndefined)
          (with_promise_channel (st (ret tt (installed bare_world))) None)
          (evs (ret (S := World demo_host) tt (installed bare_world))
             ++ [not_called_warning]).
Proof.
  split; [reflexivity |]. split; [reflexivity |].
  apply (proj1 (main_handler_not_invoked demo_host (ret tt) bare_world
                  eq_refl)).
  reflexivity.
Defined.

(** A delegated run on the mock host: the application calls
    [simple.Handle], the promise of the handler goes through the slot,
    and the wrapper returns its value and removes the slot. *)
Example delegated_run :
  out (build.main_handler (demo_application echo_handler) worker_world)
    = Ret (JStr (js "hello")) /\
  promise_channel (st (build.main_handler (demo_application echo_handler) worker_world))
    = None.
Proof. vm_compute. split; reflexivity. Qed.

(** The three outcomes that the amended C6 tells apart. *)
Example delegated_run_rejected :
  out (build.main_handler (demo_application failing_handler) worker_world)
    = Throw (Error (js "boom")).
Proof. vm_compute. reflexivity. Qed.

Example delegated_run_not_invoked :
  out (build.main_handler (ret tt) worker_world) = Ret JUndefined /\
  evs (build.main_handler (ret tt) worker_world) = [not_called_warning].
Proof. split; reflexivity. Qed.

Example driver_without_channel :
  out (demo_worker_handle echo_handler worker_world) = Throw missing_channel_error.
Proof. vm_compute. reflexivity. Qed.

(** ** The entry-point driver *)

Section driver_facts.
Context {H : HostImpl}.
Variable JSON_stringify : jsval -> outcome (option jsstring).
Variable JSON_parse : jsstring -> outcome jsval.
Variable ToString : jsval -> jsstring.
Variable ASYNC_BUILD : bool.
Variable USER_SCRIPT_BUNDLE : option jsstring.

Lemma holds_app t1 t2 ptr len text : holds H t1 ptr len text -> holds H (t1 ++ t2) ptr len text.
Proof. intros [He | [Hl Hin]]; [left | right]; auto using in_or_app. Qed.

Lemma holds_app_r t1 t2 ptr len text : holds H t2 ptr len text -> holds H (t1 ++ t2) ptr len text.
Proof. intros [He | [Hl Hin]]; [left | right]; auto using in_or_app. Qed.

(** On a host that answers, [stringToPtr] returns a handle that holds the string. *)
Lemma stringToPtr_holds (str : jsstring) (w : World H) :
  host_accepts H ->
  exists ptr len w' t,
    memory.stringToPtr str w = MkRun (Ret (ptr, len)) w' t /\ holds H t ptr len str.
Proof.
  intros Hacc. unfold memory.stringToPtr, memory.allocate.
  destruct (Nat.eqb (length str) 0) eqn:El.
  - apply Nat.eqb_eq in El. destruct str; [| discriminate]. run.
    destruct (Hacc (wasm_alloc 0) (host_st w) eq_refl) as (a & h' & ->). cbn.
    do 4 eexists. split; [reflexivity |]. left. split; reflexivity.
  - run.
    match goal with |- context [respond H ?c ?h] =>
      destruct (Hacc c h eq_refl) as (a & h' & ->) end. run.
    match goal with |- context [respond H ?c ?h] =>
      destruct (Hacc c h eq_refl) as ([] & h'' & ->) end. run.
    do 4 eexists. split; [reflexivity |]. right. split; [reflexivity |].
    cbn. auto.
Qed.

Lemma executeAsync_sends (params context : jsval) (paramsText contextText : jsstring)
    (w : World H) :
  host_accepts H ->
  JSON_stringify (coalesce params JNull) = Ret (Some paramsText) ->
  JSON_stringify context = Ret (Some contextText) ->
  out (host.executeAsync JSON_stringify (js "__done__") params context w) = Ret tt /\
  done_cast H (evs (host.executeAsync JSON_stringify (js "__done__") params context w))
            paramsText contextText.
Proof.
  intros Hacc Hp Hc. unfold host.executeAsync. rewrite Hp, Hc. run.
  unfold host.stringToPtr_json.
  destruct (stringToPtr_holds (js "__done__") w Hacc) as (p1 & l1 & w1 & t1 & -> & H1). run.
  destruct (stringToPtr_holds paramsText w1 Hacc) as (p2 & l2 & w2 & t2 & -> & H2). run.
  destruct (stringToPtr_holds contextText w2 Hacc) as (p3 & l3 & w3 & t3 & -> & H3). run.
  match goal with |- context [respond H ?c ?h] =>
      destruct (Hacc c h eq_refl) as ([] & h' & ->) end. run.
  split; [reflexivity |].
  exists (t1 ++ t2 ++ t3), p1, l1, p2, l2, p3, l3.
  split; [rewrite <- !app_assoc; reflexivity |].
  split; [apply holds_app; exact H1 |].
  split; [apply holds_app_r, holds_app; exact H2 | apply holds_app_r, holds_app_r; exact H3].
Qed.

Lemma done_cast_prepend (t0 t : list event) (paramsText contextText : jsstring) :
  done_cast H t paramsText contextText -> done_cast H (t0 ++ t) paramsText contextText.
Proof.
  intros (pre & p1 & l1 & p2 & l2 & p3 & l3 & -> & H1 & H2 & H3).
  exists (t0 ++ pre), p1, l1, p2, l2, p3, l3.
  split; [rewrite app_assoc; reflexivity |].
  split; [apply holds_app_r; exact H1 |].
  split; apply holds_app_r; assumption.
Qed.

(** The [catch] block of the driver, when the variable [context] is
    still [undefined] or [null]: the failure is signalled with the
    fallback context. *)
Lemma handle_catch_unknown_context (e context message : jsval)
    (paramsText contextText : jsstring) (w : World H) :
  host_accepts H ->
  JSON_stringify index.unknown_context = Ret (Some contextText) ->
  nullish context = true ->
  index.get_prop e (js "message") = Ret message ->
  JSON_stringify (index.error_response message) = Ret (Some paramsText) ->
  out (index.handle_catch (host.executeAsync JSON_stringify) e (context, w))
    = Ret JUndefined /\
  done_cast H (evs (index.handle_catch (host.executeAsync JSON_stringify) e (context, w)))
            paramsText contextText.
Proof.
  intros Hacc Hc Hnull Hmsg Hp.
  unfold index.handle_catch. rewrite Hmsg. run.
  unfold index.returnError, coalesce. rewrite Hnull.
  destruct (executeAsync_sends (index.error_response message) index.unknown_context
              paramsText contextText w Hacc Hp Hc) as [Hout Hcast].
  destruct (host.executeAsync JSON_stringify (js "__done__")
              (index.error_response message) index.unknown_context w) as [o w1 t1].
  cbn in Hout. subst o. cbn. rewrite app_nil_r. split; [reflexivity | exact Hcast].
Qed.

(** The driver of a build other than the worker bundle, when its [try]
    block throws while [context] is [undefined] or [null]. *)
Lemma handle_failure_unknown_context (IS_WORKER_BUILD : option bool)
    (handler : index.Handler) (w w1 : World H) (e context message : jsval)
    (t1 : list event) (paramsText contextText : jsstring) :
  IS_WORKER_BUILD <> Some true ->
  host_accepts H ->
  JSON_stringify index.unknown_context = Ret (Some contextText) ->
  driver_try H JSON_stringify JSON_parse ToString ASYNC_BUILD USER_SCRIPT_BUNDLE
    handler (JUndefined, w) = MkRun (Throw e) (context, w1) t1 ->
  nullish context = true ->
  index.get_prop e (js "message") = Ret message ->
  JSON_stringify (index.error_response message) = Ret (Some paramsText) ->
  out (driver H JSON_stringify JSON_parse ToString IS_WORKER_BUILD ASYNC_BUILD
         USER_SCRIPT_BUNDLE handler w) = Ret JUndefined /\
  done_cast H (evs (driver H JSON_stringify JSON_parse ToString IS_WORKER_BUILD
                    ASYNC_BUILD USER_SCRIPT_BUNDLE handler w))
            paramsText contextText.
Proof.
  intros Hbuild Hacc Hc Htry Hnull Hmsg Hp.
  destruct (handle_catch_unknown_context e context message paramsText contextText w1
              Hacc Hc Hnull Hmsg Hp) as [Hout Hcast].
  assert (Hrun : driver H JSON_stringify JSON_parse ToString IS_WORKER_BUILD ASYNC_BUILD
                   USER_SCRIPT_BUNDLE handler w
                 = drop_locals
                     (prepend t1
                        (index.handle_catch (host.executeAsync JSON_stringify) e
                           (context, w1)))).
  { unfold index.handle.
    destruct IS_WORKER_BUILD as [[|] |]; [contradiction | |];
      rewrite with_locals_eq, try_catch_eq, Htry; reflexivity. }
  rewrite Hrun.
  destruct (index.handle_catch (host.executeAsync JSON_stringify) e (context, w1))
    as [o s t]. cbn in *. split; [exact Hout | apply done_cast_prepend, Hcast].
Qed.

(** The [try] block of the driver when the text of the payload does not
    parse: it throws what [JSON.parse] threw, before [context] is set. *)
Lemma handle_try_parse_failure (handler : index.Handler) (w w1 : World H)
    (text : jsstring) (t1 : list event) (e : jsval) :
  driver_input H JSON_stringify w = MkRun (Ret (Some text)) w1 t1 ->
  index.no_text (Some text) = false ->
  JSON_parse text = Throw e ->
  driver_try H JSON_stringify JSON_parse ToString ASYNC_BUILD USER_SCRIPT_BUNDLE
    handler (JUndefined, w) = MkRun (Throw e) (JUndefined, w1) t1.
Proof.
  intros Hin Htext Hparse. unfold index.handle_try.
  rewrite bind_eq, lift_eq. cbn [fst snd]. rewrite Hin. cbn [add_locals and_then].
  rewrite Htext. unfold index.text_of. run. rewrite Hparse. cbn.
  rewrite app_nil_r. reflexivity.
Qed.

(** The driver when the host provides no payload. *)
Lemma handle_no_input (IS_WORKER_BUILD : option bool) (handler : index.Handler)
    (w w1 : World H) (inputText : option jsstring) (t1 : list event)
    (paramsText contextText : jsstring) :
  IS_WORKER_BUILD <> Some true ->
  host_accepts H ->
  JSON_stringify index.unknown_context = Ret (Some contextText) ->
  driver_input H JSON_stringify w = MkRun (Ret inputText) w1 t1 ->
  index.no_text inputText = true ->
  JSON_stringify
    (index.error_response (JStr (js "no input payload provided by the host environment")))
    = Ret (Some paramsText) ->
  out (driver H JSON_stringify JSON_parse ToString IS_WORKER_BUILD ASYNC_BUILD
         USER_SCRIPT_BUNDLE handler w) = Ret JUndefined /\
  done_cast H (evs (driver H JSON_stringify JSON_parse ToString IS_WORKER_BUILD
                    ASYNC_BUILD USER_SCRIPT_BUNDLE handler w))
            paramsText contextText.
Proof.
  intros Hbuild Hacc Hc Hin Htext Hp.
  destruct (executeAsync_sends
              (index.error_response
                 (JStr (js "no input payload provided by the host environment")))
              index.unknown_context paramsText contextText w1 Hacc Hp Hc)
    as [Hout Hcast].
  assert (Hrun : driver H JSON_stringify JSON_parse ToString IS_WORKER_BUILD ASYNC_BUILD
                   USER_SCRIPT_BUNDLE handler w
                 = prepend t1
                     (and_then (fun _ : unit => ret JUndefined)
                        (host.executeAsync JSON_stringify (js "__done__")
                           (index.error_response
                              (JStr (js "no input payload provided by the host environment")))
                           index.unknown_context w1))).
  { unfold index.handle.
    destruct IS_WORKER_BUILD as [[|] |]; [contradiction | |];
      rewrite with_locals_eq, try_catch_eq; unfold index.handle_try;
      rewrite bind_eq, lift_eq; cbn [fst snd]; rewrite Hin;
      cbn [add_locals and_then]; rewrite Htext;
      rewrite bind_eq, lift_eq; cbn [fst snd];
      unfold index.returnError, coalesce; cbn [nullish];
      destruct (host.executeAsync JSON_stringify (js "__done__")
                  (index.error_response
                     (JStr (js "no input payload provided by the host environment")))
                  index.unknown_context w1) as [[[] | e' |] w2 t2];
      cbn in Hout; try discriminate; cbn; rewrite ?app_nil_r; reflexivity. }
  rewrite Hrun.
  destruct (host.executeAsync JSON_stringify (js "__done__")
              (index.error_response
                 (JStr (js "no input payload provided by the host environment")))
              index.unknown_context w1) as [o w2 t2].
  cbn in Hout. subst o. cbn. rewrite app_nil_r.
  split; [reflexivity | apply done_cast_prepend, Hcast].
Qed.

End driver_facts.

Section cast_facts.
Context {H : HostImpl}.
Variable JSON_stringify : jsval -> outcome (option jsstring).

Lemma casts_carry_none (t : list event) (contextText : jsstring) :
  Forall (fun e => is_cast e = false) t -> casts_carry H t contextText.
Proof.
  intros Ht pre post np nl pp pl cp cl o ->.
  apply Forall_app in Ht as [_ Ht]. apply Forall_cons in Ht as [Hc _]. discriminate.
Qed.

Lemma casts_carry_app (t1 t2 : list event) (contextText : jsstring) :
  casts_carry H t1 contextText -> casts_carry H t2 contextText ->
  casts_carry H (t1 ++ t2) contextText.
Proof.
  intros H1 H2 pre post np nl pp pl cp cl o Heq.
  apply app_eq_app in Heq as [l [[E1 E2] | [E1 E2]]].
  - destruct l as [| e l].
    + rewrite app_nil_r in E1. subst t1. cbn in E2.
      destruct (H2 [] post np nl pp pl cp cl o (eq_sym E2)) as [Hn Hc].
      split; rewrite <- (app_nil_r pre); apply holds_app_r; assumption.
    + injection E2 as <- ->. exact (H1 pre l np nl pp pl cp cl o E1).
  - subst pre. destruct (H2 l post np nl pp pl cp cl o E2) as [Hn Hc].
    split; apply holds_app_r; assumption.
Qed.

Lemma casts_carry_last (pre : list event) (contextText : jsstring)
    (np nl pp pl cp cl : Z) (o : outcome retval) :
  Forall (fun e => is_cast e = false) pre ->
  holds H pre np nl (js "__done__") ->
  holds H pre cp cl contextText ->
  casts_carry H (pre ++ [Ev (host_cast np nl pp pl cp cl) o]) contextText.
Proof.
  intros Hpre Hn Hc pre' post np' nl' pp' pl' cp' cl' o' Heq.
  apply app_eq_app in Heq as [l [[E1 E2] | [E1 E2]]].
  - destruct l as [| e l].
    + rewrite app_nil_r in E1. subst pre'. cbn in E2. injection E2 as -> -> -> -> -> -> -> _.
      auto.
    + injection E2 as <- _. subst pre.
      apply Forall_app in Hpre as [_ Hpre]. apply Forall_cons in Hpre as [Hx _].
      discriminate.
  - destruct l as [| e l]; [| destruct l; discriminate].
    cbn in E2. injection E2 as -> -> -> -> -> -> -> _.
    rewrite app_nil_r in E1. subst pre'. auto.
Qed.

(** What [stringToPtr] leaves at the boundary: no cast, and, when it
    returns, a handle that holds the string. *)
Lemma stringToPtr_handle (str : jsstring) (w : World H) :
  Forall (fun e => is_cast e = false) (evs (memory.stringToPtr str w)) /\
  forall ptr len,
    out (memory.stringToPtr str w) = Ret (ptr, len) ->
    holds H (evs (memory.stringToPtr str w)) ptr len str.
Proof.
  unfold memory.stringToPtr, memory.allocate.
  destruct (Nat.eqb (length str) 0) eqn:El; go H.
  all: split; [repeat constructor |]; intros ptr len; try discriminate.
  - intros [= <- <-]. left. apply Nat.eqb_eq in El. destruct str; [| discriminate].
    split; reflexivity.
  - intros [= <- <-]. right. split; [reflexivity | cbn; auto].
Qed.

(** Every cast of [executeAsync('__done__', ...)] carries the text of
    the context, whatever the host answers. *)
Lemma executeAsync_casts_carry (params context : jsval) (contextText : jsstring)
    (w : World H) :
  JSON_stringify context = Ret (Some contextText) ->
  casts_carry H (evs (host.executeAsync JSON_stringify (js "__done__") params context w))
    contextText.
Proof.
  intros Hc. unfold host.executeAsync. rewrite Hc.
  destruct (JSON_stringify (coalesce params JNull)) as [[paramsText |] | e |];
    run; try (apply casts_carry_none; constructor).
  - destruct (stringToPtr_handle (js "__done__") w) as [Hq1 Hh1].
    destruct (memory.stringToPtr (js "__done__") w) as [[[p1 l1] | e |] w1 t1];
      run; try solve [apply casts_carry_none; rewrite ?app_nil_r; exact Hq1].
    unfold host.stringToPtr_json.
    destruct (stringToPtr_handle paramsText w1) as [Hq2 Hh2].
    destruct (memory.stringToPtr paramsText w1) as [[[p2 l2] | e |] w2 t2];
      run;
      try solve [apply casts_carry_none; rewrite ?app_nil_r; apply Forall_app; auto].
    destruct (stringToPtr_handle contextText w2) as [Hq3 Hh3].
    destruct (memory.stringToPtr contextText w2) as [[[p3 l3] | e |] w3 t3];
      run;
      try solve [apply casts_carry_none; rewrite ?app_nil_r;
                 repeat (apply Forall_app; split); auto].
    cbn in Hq1, Hq2, Hq3, Hh1, Hh3.
    rewrite !app_assoc. apply casts_carry_last.
    + repeat (apply Forall_app; split); assumption.
    + apply holds_app, holds_app, Hh1; reflexivity.
    + apply holds_app_r, Hh3; reflexivity.
  - destruct (stringToPtr_handle (js "__done__") w) as [Hq1 Hh1].
    destruct (memory.stringToPtr (js "__done__") w) as [[[p1 l1] | e |] w1 t1];
      run; apply casts_carry_none; rewrite ?app_nil_r; exact Hq1.
Qed.

End cast_facts.

Section driver_casts.
Context {H : HostImpl}.
Variable JSON_stringify : jsval -> outcome (option jsstring).
Variable JSON_parse : jsstring -> outcome jsval.
Variable ToString : jsval -> jsstring.
Variable ASYNC_BUILD : bool.
Variable USER_SCRIPT_BUNDLE : option jsstring.

(** Reading the payload issues no cast. *)
Lemma driver_input_emits_no_cast :
  emits (fun e => is_cast e = false) (driver_input H JSON_stringify).
Proof.
  intros w. unfold index.readInputFromHost.
  destruct (truthy (initial_payload w)).
  - refine ((_ : emits _ (bind _ _)) w). emits_auto.
  - refine ((_ : emits _ (bind _ _)) w). unfold host.getContext, memory.allocate,
      memory.deallocate. emits_auto.
    apply readBufferSlice_emits; auto.
Qed.

(** Every cast of the [catch] block of the driver carries the fallback
    context, when the variable [context] is [undefined] or [null]. *)
Lemma handle_catch_casts_carry (e context : jsval) (contextText : jsstring)
    (w : World H) :
  JSON_stringify index.unknown_context = Ret (Some contextText) ->
  nullish context = true ->
  casts_carry H
    (evs (index.handle_catch (host.executeAsync JSON_stringify) e (context, w)))
    contextText.
Proof.
  intros Hc Hnull. unfold index.handle_catch.
  destruct (index.get_prop e (js "message")) as [message | e' |]; run;
    try (apply casts_carry_none; constructor).
  unfold index.returnError, coalesce. rewrite Hnull.
  pose proof (executeAsync_casts_carry JSON_stringify (index.error_response message)
                index.unknown_context contextText w Hc) as Hcc.
  destruct (host.executeAsync JSON_stringify (js "__done__")
              (index.error_response message) index.unknown_context w)
    as [[[] | e' |] w1 t1]; cbn in *; rewrite ?app_nil_r; exact Hcc.
Qed.

(** The events of the driver whose [try] block throws are those of the
    [try] block, then those of the [catch] block. *)
Lemma handle_failure_events (IS_WORKER_BUILD : option bool)
    (handler : index.Handler) (w w1 : World H) (e context : jsval) (t1 : list event) :
  IS_WORKER_BUILD <> Some true ->
  driver_try H JSON_stringify JSON_parse ToString ASYNC_BUILD USER_SCRIPT_BUNDLE
    handler (JUndefined, w) = MkRun (Throw e) (context, w1) t1 ->
  evs (driver H JSON_stringify JSON_parse ToString IS_WORKER_BUILD ASYNC_BUILD
         USER_SCRIPT_BUNDLE handler w)
    = t1 ++ evs (index.handle_catch (host.executeAsync JSON_stringify) e (context, w1)).
Proof.
  intros Hbuild Htry. unfold index.handle.
  destruct IS_WORKER_BUILD as [[|] |]; [contradiction | |];
    rewrite with_locals_eq, try_catch_eq, Htry; cbn [catch_after];
    destruct (index.handle_catch (host.executeAsync JSON_stringify) e (context, w1));
    reflexivity.
Qed.

(** Every cast of the driver that finds no payload carries the fallback
    context. *)
Lemma handle_no_input_casts_carry (IS_WORKER_BUILD : option bool)
    (handler : index.Handler) (w w1 : World H) (inputText : option jsstring)
    (t1 : list event) (contextText : jsstring) :
  IS_WORKER_BUILD <> Some true ->
  JSON_stringify index.unknown_context = Ret (Some contextText) ->
  driver_input H JSON_stringify w = MkRun (Ret inputText) w1 t1 ->
  index.no_text inputText = true ->
  casts_carry H
    (evs (driver H JSON_stringify JSON_parse ToString IS_WORKER_BUILD ASYNC_BUILD
            USER_SCRIPT_BUNDLE handler w))
    contextText.
Proof.
  intros Hbuild Hc Hin Htext.
  pose proof (driver_input_emits_no_cast w) as Ht1. rewrite Hin in Ht1. cbn in Ht1.
  pose proof (executeAsync_casts_carry JSON_stringify
                (index.error_response
                   (JStr (js "no input payload provided by the host environment")))
                index.unknown_context contextText w1 Hc) as Hcc.
  assert (Htry : exists o w2,
             driver_try H JSON_stringify JSON_parse ToString ASYNC_BUILD
               USER_SCRIPT_BUNDLE handler (JUndefined, w)
             = MkRun o (JUndefined, w2)
                 (t1 ++ evs (host.executeAsync JSON_stringify (js "__done__")
                               (index.error_response
                                  (JStr (js "no input payload provided by the host environment")))
                               index.unknown_context w1))).
  { unfold index.handle_try. rewrite bind_eq, lift_eq. cbn [fst snd]. rewrite Hin.
    cbn [add_locals and_then]. rewrite Htext. rewrite bind_eq, lift_eq. cbn [fst snd].
    unfold index.returnError, coalesce. cbn [nullish].
    destruct (host.executeAsync JSON_stringify (js "__done__")
                (index.error_response
                   (JStr (js "no input payload provided by the host environment")))
                index.unknown_context w1) as [[[] | e' |] w2 t2];
      cbn; rewrite ?app_nil_r; eauto. }
  destruct Htry as (o & w2 & Htry).
  destruct o as [v | e' |].
  - unfold index.handle.
    destruct IS_WORKER_BUILD as [[|] |]; [contradiction | |];
      rewrite with_locals_eq, try_catch_eq, Htry; cbn;
      (apply casts_carry_app; [apply casts_carry_none; exact Ht1 | exact Hcc]).
  - rewrite (handle_failure_events IS_WORKER_BUILD handler w w2 e' JUndefined _ Hbuild Htry).
    apply casts_carry_app;
      [apply casts_carry_app; [apply casts_carry_none; exact Ht1 | exact Hcc] |].
    apply handle_catch_casts_carry; [exact Hc | reflexivity].
  - unfold index.handle.
    destruct IS_WORKER_BUILD as [[|] |]; [contradiction | |];
      rewrite with_locals_eq, try_catch_eq, Htry; cbn;
      (apply casts_carry_app; [apply casts_carry_none; exact Ht1 | exact Hcc]).
Qed.

(** Every cast of the driver whose payload does not parse carries the
    fallback context. *)
Lemma handle_parse_failure_casts_carry (IS_WORKER_BUILD : option bool)
    (handler : index.Handler) (w w1 : World H) (text : jsstring) (t1 : list event)
    (e : jsval) (contextText : jsstring) :
  IS_WORKER_BUILD <> Some true ->
  JSON_stringify index.unknown_context = Ret (Some contextText) ->
  driver_input H JSON_stringify w = MkRun (Ret (Some text)) w1 t1 ->
  index.no_text (Some text) = false ->
  JSON_parse text = Throw e ->
  casts_carry H
    (evs (driver H JSON_stringify JSON_parse ToString IS_WORKER_BUILD ASYNC_BUILD
            USER_SCRIPT_BUNDLE handler w))
    contextText.
Proof.
  intros Hbuild Hc Hin Htext Hparse.
  pose proof (driver_input_emits_no_cast w) as Ht1. rewrite Hin in Ht1. cbn in Ht1.
  rewrite (handle_failure_events IS_WORKER_BUILD handler w w1 e JUndefined t1 Hbuild
             (handle_try_parse_failure JSON_stringify JSON_parse ToString ASYNC_BUILD
                USER_SCRIPT_BUNDLE handler w w1 text t1 e Hin Htext Hparse)).
  apply casts_carry_app; [apply casts_carry_none; exact Ht1 |].
  apply handle_catch_casts_carry; [exact Hc | reflexivity].
Qed.

End driver_casts.

(** The mock host answers the calls by which a signal is sent. *)
Lemma mock_host_accepts z : host_accepts (mock.host z mock.sound).
Proof.
  intros c h Hc. destruct c; try discriminate; cbn.
  - destruct (size =? 0); eauto.
  - eauto.
  - eauto.
Qed.

(** C10, as stated, fails: the signal is not always sent. Here the host
    provides no payload and its arena faults on every write: the driver
    reports the failure twice, from the [try] block and from the [catch]
    block, each time the text ['__done__'] cannot be written, no cast is
    issued, and the fault leaves the driver. *)
Lemma handle_sends_no_signal_on_arena_fault :
  out (driver_input write_fault_host mock.JSON_stringify write_fault_world)
    = Ret (Some []) /\
  out (driver write_fault_host mock.JSON_stringify (mock.JSON_parse []) (fun _ => [])
         None false None null_handler write_fault_world)
    = Throw mock.fault /\
  List.filter is_cast
    (evs (driver write_fault_host mock.JSON_stringify (mock.JSON_parse []) (fun _ => [])
            None false None null_handler write_fault_world))
    = [].
Proof. vm_compute. repeat split; reflexivity. Qed.

(** C10, amended: in a build other than the worker bundle, whenever the
    entry-point driver reports a failure and no context is available,
    the fire-and-forget ['__done__'] signal carries the fallback context
    [{ logic: { execution_id: 'unknown' } }], and on a host that answers
    the arena calls and the cast the signal is sent. When the host
    provides no input payload, and when the text of the payload fails to
    parse, every cast of the run is a cast of ['__done__'] whose context
    buffer holds the fallback context; when the [try] block throws while
    the variable [context] is [undefined] or [null], so is every cast
    that follows the events of the [try] block. On a host that answers
    the arena calls and the cast, the driver then ends normally and the
    last event at the boundary is the cast of ['__done__'] whose
    parameter buffer holds the failure response
    [{ data: null, errors: [message], ok: false }] and whose context
    buffer holds the fallback context. *)
Theorem handle_failure_signal_carries_context (H : HostImpl)
    (JSON_stringify : jsval -> outcome (option jsstring))
    (JSON_parse : jsstring -> outcome jsval) (ToString : jsval -> jsstring)
    (IS_WORKER_BUILD : option bool) (ASYNC_BUILD : bool)
    (USER_SCRIPT_BUNDLE : option jsstring) (handler : index.Handler)
    (w : World H) (contextText : jsstring) :
  let fallback := JObj [(js "logic", JObj [(js "execution_id", JStr (js "unknown"))])] in
  let failure := fun message : jsval =>
    JObj [(js "data", JNull); (js "errors", JArr [message]); (js "ok", JBool false)] in
  let r := driver H JSON_stringify JSON_parse ToString IS_WORKER_BUILD ASYNC_BUILD
             USER_SCRIPT_BUNDLE handler w in
  IS_WORKER_BUILD <> Some true ->
  JSON_stringify fallback = Ret (Some contextText) ->
  (forall inputText w1 t1,
     driver_input H JSON_stringify w = MkRun (Ret inputText) w1 t1 ->
     index.no_text inputText = true ->
     casts_carry H (evs r) contextText /\
     (host_accepts H ->
      forall paramsText,
        JSON_stringify
          (failure (JStr (js "no input payload provided by the host environment")))
          = Ret (Some paramsText) ->
        out r = Ret JUndefined /\ done_cast H (evs r) paramsText contextText)) /\
  (forall text w1 t1 e,
     driver_input H JSON_stringify w = MkRun (Ret (Some text)) w1 t1 ->
     index.no_text (Some text) = false ->
     JSON_parse text = Throw e ->
     casts_carry H (evs r) contextText /\
     (host_accepts H ->
      forall message paramsText,
        index.get_prop e (js "message") = Ret message ->
        JSON_stringify (failure message) = Ret (Some paramsText) ->
        out r = Ret JUndefined /\ done_cast H (evs r) paramsText contextText)) /\
  (forall e context w1 t1,
     driver_try H JSON_stringify JSON_parse ToString ASYNC_BUILD USER_SCRIPT_BUNDLE
       handler (JUndefined, w) = MkRun (Throw e) (context, w1) t1 ->
     nullish context = true ->
     (exists reported,
        evs r = t1 ++ reported /\ casts_carry H reported contextText) /\
     (host_accepts H ->
      forall message paramsText,
        index.get_prop e (js "message") = Ret message ->
        JSON_stringify (failure message) = Ret (Some paramsText) ->
        out r = Ret JUndefined /\ done_cast H (evs r) paramsText contextText)).
Proof.
  intros fallback failure r Hbuild Hc. split; [| split].
  - intros inputText w1 t1 Hin Htext. split.
    + exact (handle_no_input_casts_carry JSON_stringify JSON_parse ToString ASYNC_BUILD
               USER_SCRIPT_BUNDLE IS_WORKER_BUILD handler w w1 inputText t1 contextText
               Hbuild Hc Hin Htext).
    + intros Hacc paramsText Hp.
      exact (handle_no_input JSON_stringify JSON_parse ToString ASYNC_BUILD
               USER_SCRIPT_BUNDLE IS_WORKER_BUILD handler w w1 inputText t1 paramsText
               contextText Hbuild Hacc Hc Hin Htext Hp).
  - intros text w1 t1 e Hin Htext Hparse. split.
    + exact (handle_parse_failure_casts_carry JSON_stringify JSON_parse ToString
               ASYNC_BUILD USER_SCRIPT_BUNDLE IS_WORKER_BUILD handler w w1 text t1 e
               contextText Hbuild Hc Hin Htext Hparse).
    + intros Hacc message paramsText Hmsg Hp.
      exact (handle_failure_unknown_context JSON_stringify JSON_parse ToString
               ASYNC_BUILD USER_SCRIPT_BUNDLE IS_WORKER_BUILD handler w w1 e JUndefined
               message t1 paramsText contextText Hbuild Hacc Hc
               (handle_try_parse_failure JSON_stringify JSON_parse ToString ASYNC_BUILD
                  USER_SCRIPT_BUNDLE handler w w1 text t1 e Hin Htext Hparse)
               eq_refl Hmsg Hp).
  - intros e context w1 t1 Htry Hnull. split.
    + exists (evs (index.handle_catch (host.executeAsync JSON_stringify) e (context, w1))).
      split.
      * exact (handle_failure_events JSON_stringify JSON_parse ToString ASYNC_BUILD
                 USER_SCRIPT_BUNDLE IS_WORKER_BUILD handler w w1 e context t1 Hbuild
                 Htry).
      * exact (handle_catch_casts_carry JSON_stringify e context contextText w1 Hc
                 Hnull).
    + intros Hacc message paramsText Hmsg Hp.
      exact (handle_failure_unknown_context JSON_stringify JSON_parse ToString
               ASYNC_BUILD USER_SCRIPT_BUNDLE IS_WORKER_BUILD handler w w1 e context
               message t1 paramsText contextText Hbuild Hacc Hc Htry Hnull Hmsg Hp).
Qed.

(** A run is its outcome, its final state and its events. *)
Lemma run_eta {S A} (r : Run S A) (o : outcome A) :
  out r = o -> r = MkRun o (st r) (evs r).
Proof. intros <-. destruct r; reflexivity. Qed.

(** The signal of the driver on the mock host when there is no payload,
    and when the payload is the text [not json]. *)
Lemma handle_failure_signal_carries_context_witness :
  @None bool <> Some true /\
  mock.JSON_stringify (JObj [(js "logic", JObj [(js "execution_id", JStr (js "unknown"))])])
    = Ret (Some (mock.stringify
                   (JObj [(js "logic",
                           JObj [(js "execution_id", JStr (js "unknown"))])]))) /\
  host_accepts demo_host /\
  (casts_carry demo_host (evs (demo_driver bare_world))
     (mock.stringify
        (JObj [(js "logic", JObj [(js "execution_id", JStr (js "unknown"))])])) /\
   out (demo_driver bare_world) = Ret JUndefined /\
   done_cast demo_host (evs (demo_driver bare_world))
     (mock.stringify
        (JObj [(js "data", JNull);
               (js "errors",
                JArr [JStr (js "no input payload provided by the host environment")]);
               (js "ok", JBool false)]))
     (mock.stringify
        (JObj [(js "logic", JObj [(js "execution_id", JStr (js "unknown"))])]))) /\
  (casts_carry demo_host (evs (demo_driver (mock.start 0 [] (js "not json"))))
     (mock.stringify
        (JObj [(js "logic", JObj [(js "execution_id", JStr (js "unknown"))])])) /\
   out (demo_driver (mock.start 0 [] (js "not json"))) = Ret JUndefined /\
   done_cast demo_host (evs (demo_driver (mock.start 0 [] (js "not json"))))
     (mock.stringify
        (JObj [(js "data", JNull); (js "errors", JArr [JStr (js "Unexpected token")]);
               (js "ok", JBool false)]))
     (mock.stringify
        (JObj [(js "logic", JObj [(js "execution_id", JStr (js "unknown"))])]))).
Proof.
  assert (Hbuild : @None bool <> Some true) by discriminate.
  assert (Hin : driver_input demo_host mock.JSON_stringify
                  (mock.start 0 [] (js "not json"))
                = MkRun (Ret (Some (js "not json")))
                    (st (driver_input demo_host mock.JSON_stringify
                           (mock.start 0 [] (js "not json"))))
                    (evs (driver_input demo_host mock.JSON_stringify
                            (mock.start 0 [] (js "not json")))))
    by (apply run_eta; vm_compute; reflexivity).
  assert (Htext : index.no_text (Some (js "not json")) = false) by reflexivity.
  assert (Hparse : mock.JSON_parse [] (js "not json")
                   = Throw (JError (js "SyntaxError") (js "Unexpected token")))
    by reflexivity.
  split; [exact Hbuild |]. split; [reflexivity |].
  split; [apply mock_host_accepts |]. split.
  - destruct (proj1 (handle_failure_signal_carries_context demo_host mock.JSON_stringify
                       (mock.JSON_parse []) (fun _ => []) None false None null_handler
                       bare_world
                       (mock.stringify
                          (JObj [(js "logic",
                                  JObj [(js "execution_id", JStr (js "unknown"))])]))
                       Hbuild eq_refl)
                    (Some []) bare_world [Ev host_getContextSize (Ret (RNum 0))]
                    eq_refl eq_refl) as [Hcarry Hsent].
    split; [exact Hcarry |].
    exact (Hsent (mock_host_accepts 16)
             (mock.stringify
                (JObj [(js "data", JNull);
                       (js "errors",
                        JArr [JStr (js "no input payload provided by the host environment")]);
                       (js "ok", JBool false)]))
             eq_refl).
  - destruct (proj1 (proj2 (handle_failure_signal_carries_context demo_host
                              mock.JSON_stringify (mock.JSON_parse []) (fun _ => []) None
                              false None null_handler (mock.start 0 [] (js "not json"))
                              (mock.stringify
                                 (JObj [(js "logic",
                                         JObj [(js "execution_id", JStr (js "unknown"))])]))
                              Hbuild eq_refl))
                    (js "not json") _ _
                    (JError (js "SyntaxError") (js "Unexpected token"))
                    Hin Htext Hparse) as [Hcarry Hsent].
    split; [exact Hcarry |].
    exact (Hsent (mock_host_accepts 16) (JStr (js "Unexpected token"))
             (mock.stringify
                (JObj [(js "data", JNull);
                       (js "errors", JArr [JStr (js "Unexpected token")]);
                       (js "ok", JBool false)]))
             eq_refl eq_refl).
Defined.

(** The text of the fallback context on the mock engine. *)
Example fallback_context_text :
  mock.stringify (JObj [(js "logic", JObj [(js "execution_id", JStr (js "unknown"))])])
    = js "{" ++ mock.dquote ++ js "logic" ++ mock.dquote ++ js ":{"
        ++ mock.dquote ++ js "execution_id" ++ mock.dquote ++ js ":"
        ++ mock.dquote ++ js "unknown" ++ mock.dquote ++ js "}}".
Proof. vm_compute. reflexivity. Qed.

(** What the boundary sees when the driver of the synchronous build
    finds no payload. *)
Example demo_driver_no_input :
  evs (demo_driver bare_world)
    = [Ev host_getContextSize (Ret (RNum 0));
       Ev (wasm_alloc 8) (Ret (RNum 16));
       Ev (wasm_write_string 16 (js "__done__")) (Ret RUnit);
       Ev (wasm_alloc 87) (Ret (RNum 24));
       Ev (wasm_write_string 24 (mock.stringify (index.error_response no_input_message)))
          (Ret RUnit);
       Ev (wasm_alloc 36) (Ret (RNum 111));
       Ev (wasm_write_string 111 (mock.stringify index.unknown_context)) (Ret RUnit);
       Ev (host_cast 16 8 24 87 111 36) (Ret RUnit)].
Proof. vm_compute. reflexivity. Qed.

(** ** The polyfills: encoding and decoding *)

Lemma lor_disjoint (a x k : Z) :
  0 <= k -> 0 <= x < 2 ^ k -> Z.lor (a * 2 ^ k) x = a * 2 ^ k + x.
Proof.
  intros Hk Hx.
  assert (Hland : Z.land (a * 2 ^ k) x = 0).
  { apply Z.bits_inj'. intros n Hn. rewrite Z.land_spec, Z.bits_0.
    destruct (Z.ltb_spec n k) as [Hlt | Hge].
    - rewrite Z.mul_pow2_bits_low by lia. reflexivity.
    - destruct (Z.eq_dec x 0) as [-> | Hx0].
      + rewrite Z.bits_0. apply andb_false_r.
      + rewrite (Z.bits_above_log2 x n); [apply andb_false_r | lia |].
        apply Z.lt_le_trans with k; [| lia].
        apply Z.log2_lt_pow2; lia. }
  pose proof (Z.add_lor_land (a * 2 ^ k) x) as Hadd. lia.
Qed.

Lemma land_low_bits (x k : Z) : 0 <= k -> Z.land x (Z.ones k) = x mod 2 ^ k.
Proof. apply Z.land_ones. Qed.

(** The octets that the encoder pushes for a code point, by the number
    of octets. *)
Lemma utf8_octets_one (cp : Z) : 0 <= cp <= 0x7F -> utf8_octets cp = [cp].
Proof.
  intros Hcp. unfold utf8_octets, Polyfills.encode_codePoint.
  destruct (Z.leb_spec cp 0x7F); [| lia].
  cbn [Polyfills.encode_trail fmap list_fmap]. rewrite Z.shiftr_0_r, Z.lor_0_l.
  change (0 <=? 0 - 6) with false. cbn.
  unfold Polyfills.to_uint8. rewrite Z.mod_small by lia. reflexivity.
Qed.

Ltac bits_to_arith :=
  repeat rewrite Z.shiftr_div_pow2 by lia;
  repeat rewrite Z.shiftl_mul_pow2 by lia;
  change 0x3F with (Z.ones 6); change 0x1F with (Z.ones 5);
  change 0x0F with (Z.ones 4); change 0x07 with (Z.ones 3);
  change 0xFF with (Z.ones 8);
  repeat rewrite land_low_bits by lia.

Ltac dlia := Z.div_mod_to_equations; lia.

Lemma to_uint8_small (x : Z) : 0 <= x < 256 -> Polyfills.to_uint8 x = x.
Proof. intros Hx. unfold Polyfills.to_uint8. apply Z.mod_small. exact Hx. Qed.

Lemma utf8_octets_two (cp : Z) :
  0x80 <= cp <= 0x7FF -> utf8_octets cp = [192 + cp / 64; 128 + cp mod 64].
Proof.
  intros Hcp. unfold utf8_octets, Polyfills.encode_codePoint.
  destruct (Z.leb_spec cp 0x7F); [lia |].
  destruct (Z.leb_spec cp 0x7FF); [| lia].
  cbn [Polyfills.encode_trail fmap list_fmap].
  change (0 <=? 6 - 6) with true. change (0 <=? 6 - 6 - 6) with false.
  cbv iota. cbn [list_fmap]. change (6 - 6) with 0.
  bits_to_arith.
  change 0xC0 with (6 * 2 ^ 5). change 0x80 with (2 * 2 ^ 6).
  change (2 ^ 0) with 1. rewrite Z.div_1_r.
  rewrite (lor_disjoint 6 (cp / 2 ^ 6) 5), (lor_disjoint 2 (cp mod 2 ^ 6) 6);
    change (2 ^ 6) with 64; change (2 ^ 5) with 32; try dlia.
  cbn [fmap list_fmap].
  rewrite (to_uint8_small (6 * 32 + cp / 64)), (to_uint8_small (2 * 64 + cp mod 64));
    [reflexivity | |]; dlia.
Qed.

Lemma utf8_octets_three (cp : Z) :
  0x800 <= cp <= 0xFFFF ->
  utf8_octets cp = [224 + cp / 4096; 128 + (cp / 64) mod 64; 128 + cp mod 64].
Proof.
  intros Hcp. unfold utf8_octets, Polyfills.encode_codePoint.
  destruct (Z.leb_spec cp 0x7F); [lia |].
  destruct (Z.leb_spec cp 0x7FF); [lia |].
  destruct (Z.leb_spec cp 0xFFFF); [| lia].
  cbn [Polyfills.encode_trail fmap list_fmap].
  change (0 <=? 12 - 6) with true. change (0 <=? 12 - 6 - 6) with true.
  change (0 <=? 12 - 6 - 6 - 6) with false.
  cbv iota. cbn [list_fmap]. change (12 - 6 - 6) with 0. change (12 - 6) with 6.
  bits_to_arith.
  change 0xE0 with (14 * 2 ^ 4). change 0x80 with (2 * 2 ^ 6).
  change (2 ^ 0) with 1. rewrite Z.div_1_r.
  rewrite (lor_disjoint 14 (cp / 2 ^ 12) 4), (lor_disjoint 2 (cp mod 2 ^ 6) 6),
    (lor_disjoint 2 ((cp / 2 ^ 6) mod 2 ^ 6) 6);
    change (2 ^ 6) with 64; change (2 ^ 4) with 16; change (2 ^ 12) with 4096; try dlia.
  cbn [fmap list_fmap].
  rewrite (to_uint8_small (14 * 16 + cp / 4096)),
    (to_uint8_small (2 * 64 + cp mod 64)),
    (to_uint8_small (2 * 64 + (cp / 64) mod 64));
    [reflexivity | | |]; dlia.
Qed.

Lemma utf8_octets_four (cp : Z) :
  0x10000 <= cp <= 0x10FFFF ->
  utf8_octets cp
    = [240 + cp / 262144; 128 + (cp / 4096) mod 64; 128 + (cp / 64) mod 64;
       128 + cp mod 64].
Proof.
  intros Hcp. unfold utf8_octets, Polyfills.encode_codePoint.
  destruct (Z.leb_spec cp 0x7F); [lia |].
  destruct (Z.leb_spec cp 0x7FF); [lia |].
  destruct (Z.leb_spec cp 0xFFFF); [lia |].
  destruct (Z.leb_spec cp 0x1FFFFF); [| lia].
  cbn [Polyfills.encode_trail fmap list_fmap].
  change (0 <=? 18 - 6) with true. change (0 <=? 18 - 6 - 6) with true.
  change (0 <=? 18 - 6 - 6 - 6) with true.
  cbv iota. cbn [list_fmap].
  change (18 - 6 - 6 - 6) with 0. change (18 - 6 - 6) with 6. change (18 - 6) with 12.
  bits_to_arith.
  change 0xF0 with (30 * 2 ^ 3). change 0x80 with (2 * 2 ^ 6).
  change (2 ^ 0) with 1. rewrite Z.div_1_r.
  rewrite (lor_disjoint 30 (cp / 2 ^ 18) 3), (lor_disjoint 2 (cp mod 2 ^ 6) 6),
    (lor_disjoint 2 ((cp / 2 ^ 6) mod 2 ^ 6) 6),
    (lor_disjoint 2 ((cp / 2 ^ 12) mod 2 ^ 6) 6);
    change (2 ^ 6) with 64; change (2 ^ 3) with 8; change (2 ^ 12) with 4096;
    change (2 ^ 18) with 262144; try dlia.
  cbn [fmap list_fmap].
  rewrite (to_uint8_small (30 * 8 + cp / 262144)),
    (to_uint8_small (2 * 64 + cp mod 64)),
    (to_uint8_small (2 * 64 + (cp / 64) mod 64)),
    (to_uint8_small (2 * 64 + (cp / 4096) mod 64));
    [reflexivity | | | |]; dlia.
Qed.

Lemma nth_after (pre l : list Z) (k : nat) :
  nth (length pre + k) (pre ++ l) 0 = nth k l 0.
Proof. apply app_nth2_plus. Qed.

Lemma nth_at (pre l : list Z) : nth (length pre) (pre ++ l) 0 = nth 0 l 0.
Proof. rewrite <- (Nat.add_0_r (length pre)) at 1. apply nth_after. Qed.

(** The continuation octet at place [k] after the index [length pre]. *)
Lemma nth_trail (pre l : list Z) (k : nat) :
  nth (length pre + k + 1) (pre ++ l) 0 = nth (S k) l 0.
Proof. rewrite <- Nat.add_assoc, Nat.add_1_r. apply nth_after. Qed.

Lemma fold_octet (c b : Z) :
  0 <= b -> Z.lor (Z.shiftl c 6) (Z.land b 0x3F) = c * 64 + b mod 64.
Proof.
  intros Hb. bits_to_arith. rewrite lor_disjoint by (change (2 ^ 6) with 64; dlia).
  reflexivity.
Qed.

Ltac lead_class :=
  repeat match goal with
         | |- context [?a <=? ?b] =>
             destruct (Z.leb_spec a b); [try (exfalso; dlia) | try (exfalso; dlia)]
         end.

(** One round of the decoder over the octets of one code point. *)
Lemma decode_loop_chunk (cp : Z) (fuel : nat) (pre rest : list Z) (acc : jsstring) :
  0 <= cp <= 0x10FFFF ->
  Polyfills.decode_loop (S fuel) (pre ++ utf8_octets cp ++ rest) (length pre) acc
    = match Polyfills.fromCodePoint cp with
      | Ret u =>
        Polyfills.decode_loop fuel (pre ++ utf8_octets cp ++ rest)
          (length pre + length (utf8_octets cp)) (acc ++ u)
      | Throw e => Throw e
      | Hang => Hang
      end.
Proof.
  intros Hcp.
  assert (Hin : forall chunk : list Z, chunk <> [] ->
            (length pre <? length (pre ++ chunk ++ rest))%nat = true).
  { intros [| b chunk] Hne; [contradiction |].
    apply Nat.ltb_lt. rewrite !length_app. cbn. lia. }
  destruct (Z.leb_spec cp 0x7F) as [H1 | H1];
    [| destruct (Z.leb_spec cp 0x7FF) as [H2 | H2];
       [| destruct (Z.leb_spec cp 0xFFFF) as [H3 | H3]]].
  - rewrite utf8_octets_one by lia.
    cbn [Polyfills.decode_loop]. rewrite Hin by discriminate.
    rewrite nth_at. cbn [nth app]. lead_class. cbv beta iota zeta.
    rewrite !length_app. cbn [length].
    match goal with |- context [0 <? ?x] =>
      destruct (Z.ltb_spec 0 x); [| exfalso; lia] end.
    cbn [Polyfills.decode_trail].
    replace (Z.land cp 255) with cp
      by (bits_to_arith; change (2 ^ 8) with 256; rewrite Z.mod_small; lia).
    destruct (Polyfills.fromCodePoint cp); try reflexivity.
    f_equal. lia.
  - rewrite utf8_octets_two by lia.
    cbn [Polyfills.decode_loop]. rewrite Hin by discriminate.
    rewrite nth_at. cbn [nth app]. lead_class. cbv beta iota zeta.
    rewrite !length_app. cbn [length].
    match goal with |- context [0 <? ?x] =>
      destruct (Z.ltb_spec 0 x); [| exfalso; lia] end.
    cbn [Polyfills.decode_trail]. rewrite !nth_trail. cbn [nth app].
    rewrite !fold_octet by dlia. bits_to_arith.
    replace ((192 + cp / 64) mod 2 ^ 5 * 64 + (128 + cp mod 64) mod 64) with cp
      by (change (2 ^ 5) with 32; dlia).
    destruct (Polyfills.fromCodePoint cp); try reflexivity.
    f_equal. lia.
  - rewrite utf8_octets_three by lia.
    cbn [Polyfills.decode_loop]. rewrite Hin by discriminate.
    rewrite nth_at. cbn [nth app]. lead_class. cbv beta iota zeta.
    rewrite !length_app. cbn [length].
    match goal with |- context [0 <? ?x] =>
      destruct (Z.ltb_spec 0 x); [| exfalso; lia] end.
    cbn [Polyfills.decode_trail]. rewrite !nth_trail. cbn [nth app].
    rewrite !fold_octet by dlia. bits_to_arith.
    replace (((224 + cp / 4096) mod 2 ^ 4 * 64 + (128 + cp / 64 mod 64) mod 64) * 64
             + (128 + cp mod 64) mod 64) with cp
      by (change (2 ^ 4) with 16; dlia).
    destruct (Polyfills.fromCodePoint cp); try reflexivity.
    f_equal. lia.
  - rewrite utf8_octets_four by lia.
    cbn [Polyfills.decode_loop]. rewrite Hin by discriminate.
    rewrite nth_at. cbn [nth app]. lead_class. cbv beta iota zeta.
    rewrite !length_app. cbn [length].
    match goal with |- context [0 <? ?x] =>
      destruct (Z.ltb_spec 0 x); [| exfalso; lia] end.
    cbn [Polyfills.decode_trail]. rewrite !nth_trail. cbn [nth app].
    rewrite !fold_octet by dlia. bits_to_arith.
    replace ((((240 + cp / 262144) mod 2 ^ 3 * 64 + (128 + cp / 4096 mod 64) mod 64) * 64
              + (128 + cp / 64 mod 64) mod 64) * 64
             + (128 + cp mod 64) mod 64) with cp
      by (change (2 ^ 3) with 8; dlia).
    destruct (Polyfills.fromCodePoint cp); try reflexivity.
    f_equal. lia.
Qed.

(** What [codePointAt] reads at the start of a suffix of the string. *)
Lemma codePointAt_suffix (pre : jsstring) (a : Z) (rest : jsstring) :
  Polyfills.codePointAt (pre ++ a :: rest) (length pre)
    = match rest with
      | b :: _ =>
        if is_high_surrogate a && is_low_surrogate b
        then (a - 0xD800) * 0x400 + (b - 0xDC00) + 0x10000
        else a
      | [] => a
      end.
Proof.
  unfold Polyfills.codePointAt, is_high_surrogate, is_low_surrogate.
  rewrite nth_at. cbn [nth].
  replace (S (length pre)) with (length pre + 1)%nat by lia.
  rewrite nth_after. rewrite length_app. cbn [length nth].
  destruct rest as [| b rest'].
  - cbn [length].
    match goal with |- context [(?x <? ?y)%nat] =>
      replace (x <? y)%nat with false by (symmetry; apply Nat.ltb_ge; lia) end.
    rewrite andb_false_r. reflexivity.
  - cbn [length].
    match goal with |- context [(?x <? ?y)%nat] =>
      replace (x <? y)%nat with true by (symmetry; apply Nat.ltb_lt; lia) end.
    rewrite andb_true_r. cbn [nth].
    destruct ((0xD800 <=? a) && (a <=? 0xDBFF)); reflexivity.
Qed.

(** The outer loop of the encoder pushes the octets of the code points
    of the string, one after the other. *)
Lemma encode_loop_code_points (fuel : nat) :
  forall (s pre : jsstring) (acc : list Z),
    Forall code_unit s ->
    (length s <= fuel)%nat ->
    Polyfills.encode_loop fuel (pre ++ s) (length pre) acc
      = acc ++ concat (Polyfills.encode_codePoint <$> code_points s).
Proof.
  induction fuel as [| fuel IH]; intros s pre acc Hs Hlen.
  - destruct s; [| cbn in Hlen; lia]. cbn. rewrite app_nil_r. reflexivity.
  - cbn [Polyfills.encode_loop].
    destruct s as [| a rest].
    + rewrite app_nil_r, Nat.ltb_irrefl. cbn. rewrite app_nil_r. reflexivity.
    + replace (length pre <? length (pre ++ a :: rest))%nat with true
        by (symmetry; apply Nat.ltb_lt; rewrite length_app; cbn; lia).
      rewrite codePointAt_suffix.
      apply Forall_cons in Hs as [Ha Hrest]. unfold code_unit in Ha.
      destruct rest as [| b rest'].
      * replace (0x10000 <=? a) with false by (symmetry; apply Z.leb_gt; lia).
        replace (pre ++ [a]) with ((pre ++ [a]) ++ []) by apply app_nil_r.
        replace (length pre + 1)%nat with (length (pre ++ [a]))
          by (rewrite length_app; reflexivity).
        rewrite IH; [| constructor | cbn; lia].
        cbn. rewrite !app_nil_r. reflexivity.
      * cbn [code_points].
        destruct (is_high_surrogate a && is_low_surrogate b) eqn:Epair.
        -- apply andb_true_iff in Epair as [Hh Hl].
           unfold is_high_surrogate, is_low_surrogate in Hh, Hl.
           apply andb_true_iff in Hh as [Hh1 Hh2]. apply andb_true_iff in Hl as [Hl1 Hl2].
           apply Z.leb_le in Hh1, Hh2, Hl1, Hl2.
           replace (0x10000 <=? (a - 0xD800) * 0x400 + (b - 0xDC00) + 0x10000) with true
             by (symmetry; apply Z.leb_le; lia).
           replace (pre ++ a :: b :: rest') with ((pre ++ [a; b]) ++ rest')
             by (rewrite <- app_assoc; reflexivity).
           replace (length pre + 2)%nat with (length (pre ++ [a; b]))
             by (rewrite length_app; reflexivity).
           apply Forall_cons in Hrest as [_ Hrest'].
           rewrite IH; [| exact Hrest' | cbn in Hlen; lia].
           cbn. rewrite <- app_assoc. reflexivity.
        -- replace (0x10000 <=? a) with false by (symmetry; apply Z.leb_gt; lia).
           replace (pre ++ a :: b :: rest') with ((pre ++ [a]) ++ b :: rest')
             by (rewrite <- app_assoc; reflexivity).
           replace (length pre + 1)%nat with (length (pre ++ [a]))
             by (rewrite length_app; reflexivity).
           rewrite IH; [| exact Hrest | cbn in Hlen |- *; lia].
           cbn. rewrite <- app_assoc. reflexivity.
Qed.

(** The encoder, as the octets of the code points of the string. *)
Lemma TextEncoder_encode_code_points (s : jsstring) :
  Forall code_unit s ->
  Polyfills.TextEncoder_encode s = concat (utf8_octets <$> code_points s).
Proof.
  intros Hs. unfold Polyfills.TextEncoder_encode.
  change (Polyfills.encode_loop (length s) s 0 [])
    with (Polyfills.encode_loop (length s) ([] ++ s) (length (@nil Z)) []).
  rewrite (encode_loop_code_points (length s) s [] [] Hs (Nat.le_refl _)).
  cbn [app]. induction (code_points s) as [| cp cps IH]; [reflexivity |].
  cbn. rewrite fmap_app. f_equal. exact IH.
Qed.

Lemma code_points_pair (a b : Z) (rest : jsstring) :
  code_points (a :: b :: rest)
    = if is_high_surrogate a && is_low_surrogate b
      then ((a - 0xD800) * 0x400 + (b - 0xDC00) + 0x10000) :: code_points rest
      else a :: code_points (b :: rest).
Proof. reflexivity. Qed.

(** The code points of a string of code units are Unicode code points,
    and [String.fromCodePoint] gives the code units back. *)
Lemma code_points_range (s : jsstring) :
  Forall code_unit s -> Forall code_point (code_points s).
Proof.
  induction s as [s IH] using (induction_ltof1 _ (@length Z)). unfold ltof in IH.
  intros Hs. destruct s as [| a [| b rest]].
  - constructor.
  - apply Forall_cons in Hs as [Ha _]. unfold code_unit in Ha.
    repeat constructor; unfold code_point; lia.
  - apply Forall_cons in Hs as [Ha Hs]. unfold code_unit in Ha.
    rewrite code_points_pair.
    destruct (is_high_surrogate a && is_low_surrogate b) eqn:Epair.
    + apply andb_true_iff in Epair as [Hh Hl].
      unfold is_high_surrogate, is_low_surrogate in Hh, Hl.
      apply andb_true_iff in Hh as [Hh1 Hh2]. apply andb_true_iff in Hl as [Hl1 Hl2].
      apply Z.leb_le in Hh1, Hh2, Hl1, Hl2.
      apply Forall_cons in Hs as [_ Hs].
      constructor; [unfold code_point; lia | apply IH; [cbn; lia | exact Hs]].
    + constructor; [unfold code_point; lia | apply IH; [cbn; lia | exact Hs]].
Qed.

Lemma code_units_of_code_points (s : jsstring) :
  Forall code_unit s -> code_units_of (code_points s) = s.
Proof.
  induction s as [s IH] using (induction_ltof1 _ (@length Z)). unfold ltof in IH.
  intros Hs. destruct s as [| a [| b rest]].
  - reflexivity.
  - apply Forall_cons in Hs as [Ha _]. unfold code_unit in Ha.
    unfold code_units_of. cbn [code_points fmap list_fmap concat].
    unfold Polyfills.fromCodePoint.
    replace ((a <? 0) || (0x10FFFF <? a)) with false
      by (symmetry; apply orb_false_iff; split; apply Z.ltb_ge; lia).
    replace (a <=? 0xFFFF) with true by (symmetry; apply Z.leb_le; lia).
    reflexivity.
  - apply Forall_cons in Hs as [Ha Hs]. unfold code_unit in Ha.
    rewrite code_points_pair.
    destruct (is_high_surrogate a && is_low_surrogate b) eqn:Epair.
    + apply andb_true_iff in Epair as [Hh Hl].
      unfold is_high_surrogate, is_low_surrogate in Hh, Hl.
      apply andb_true_iff in Hh as [Hh1 Hh2]. apply andb_true_iff in Hl as [Hl1 Hl2].
      apply Z.leb_le in Hh1, Hh2, Hl1, Hl2.
      apply Forall_cons in Hs as [_ Hs].
      unfold code_units_of in *. cbn [fmap list_fmap concat].
      rewrite IH; [| cbn; lia | exact Hs].
      unfold Polyfills.fromCodePoint.
      set (cp := (a - 0xD800) * 0x400 + (b - 0xDC00) + 0x10000).
      replace ((cp <? 0) || (0x10FFFF <? cp)) with false
        by (symmetry; apply orb_false_iff; split; apply Z.ltb_ge; subst cp; lia).
      replace (cp <=? 0xFFFF) with false by (symmetry; apply Z.leb_gt; subst cp; lia).
      bits_to_arith. change 0x3FF with (Z.ones 10). rewrite land_low_bits by lia.
      change (2 ^ 10) with 1024.
      replace (0xD800 + (cp - 0x10000) / 1024) with a by (subst cp; dlia).
      replace (0xDC00 + (cp - 0x10000) mod 1024) with b by (subst cp; dlia).
      reflexivity.
    + unfold code_units_of in *. cbn [fmap list_fmap concat].
      rewrite IH; [| cbn; lia | exact Hs].
      unfold Polyfills.fromCodePoint.
      replace ((a <? 0) || (0x10FFFF <? a)) with false
        by (symmetry; apply orb_false_iff; split; apply Z.ltb_ge; lia).
      replace (a <=? 0xFFFF) with true by (symmetry; apply Z.leb_le; lia).
      reflexivity.
Qed.

Lemma fromCodePoint_code_point (cp : Z) :
  code_point cp -> exists u, Polyfills.fromCodePoint cp = Ret u.
Proof.
  unfold code_point, Polyfills.fromCodePoint. intros Hcp.
  replace ((cp <? 0) || (0x10FFFF <? cp)) with false
    by (symmetry; apply orb_false_iff; split; apply Z.ltb_ge; lia).
  destruct (cp <=? 0xFFFF); eauto.
Qed.

(** The decoder over the octets of a list of code points: one round for
    each, whatever comes before and after. *)
Lemma decode_loop_code_points (cps : list Z) :
  Forall code_point cps ->
  forall (fuel : nat) (pre rest : list Z) (acc : jsstring),
    Polyfills.decode_loop (length cps + fuel)
        (pre ++ concat (utf8_octets <$> cps) ++ rest) (length pre) acc
      = Polyfills.decode_loop fuel
          (pre ++ concat (utf8_octets <$> cps) ++ rest)
          (length pre + length (concat (utf8_octets <$> cps))) (acc ++ code_units_of cps).
Proof.
  induction cps as [| cp cps IH]; intros Hcps fuel pre rest acc.
  - cbn. rewrite Nat.add_0_r, app_nil_r. reflexivity.
  - apply Forall_cons in Hcps as [Hcp Hcps].
    cbn [fmap list_fmap concat length Nat.add].
    rewrite <- (app_assoc (utf8_octets cp)).
    rewrite decode_loop_chunk by exact Hcp.
    destruct (fromCodePoint_code_point cp Hcp) as [u Hu].
    unfold code_units_of. cbn [fmap list_fmap concat]. rewrite Hu.
    rewrite (app_assoc pre).
    replace (length pre + length (utf8_octets cp))%nat
      with (length (pre ++ utf8_octets cp)) by (rewrite length_app; reflexivity).
    fold (code_units_of cps).
    rewrite (IH Hcps fuel (pre ++ utf8_octets cp) rest (acc ++ u)).
    rewrite !length_app, <- !app_assoc. f_equal. lia.
Qed.

(** At the end of the octets the decoder returns what it has. *)
Lemma decode_loop_end (fuel : nat) (octets : list Z) (acc : jsstring) :
  Polyfills.decode_loop fuel octets (length octets) acc = Ret acc.
Proof. destruct fuel; cbn [Polyfills.decode_loop]; rewrite Nat.ltb_irrefl; reflexivity. Qed.

Lemma code_points_length (s : jsstring) :
  (length (code_points s) <= length s)%nat.
Proof.
  induction s as [s IH] using (induction_ltof1 _ (@length Z)). unfold ltof in IH.
  destruct s as [| a [| b rest]]; [cbn; lia .. |]. rewrite code_points_pair.
  destruct (is_high_surrogate a && is_low_surrogate b).
  - specialize (IH rest ltac:(cbn; lia)). cbn in *. lia.
  - specialize (IH (b :: rest) ltac:(cbn; lia)). cbn in *. lia.
Qed.

Lemma utf8_octets_nonempty (cp : Z) : (1 <= length (utf8_octets cp))%nat.
Proof. unfold utf8_octets, Polyfills.encode_codePoint.
  destruct (if cp <=? 127 then _ else _) as [c bits]. cbn. lia.
Qed.

Lemma concat_utf8_length (cps : list Z) :
  (length cps <= length (concat (utf8_octets <$> cps)))%nat.
Proof.
  induction cps as [| cp cps IH]; [cbn; lia |].
  cbn [fmap list_fmap concat length]. rewrite length_app.
  pose proof (utf8_octets_nonempty cp). cbn in *. lia.
Qed.

(** X1: Decoding the octets of a string gives the string back. *)
Theorem TextDecoder_decode_TextEncoder_encode (s : jsstring) :
  Forall code_unit s ->
  Polyfills.TextDecoder_decode (Polyfills.TextEncoder_encode s) = Ret s.
Proof.
  intros Hs. rewrite TextEncoder_encode_code_points by exact Hs.
  unfold Polyfills.TextDecoder_decode.
  set (octets := concat (utf8_octets <$> code_points s)).
  pose proof (concat_utf8_length (code_points s)) as Hlen. fold octets in Hlen.
  replace (length octets) with (length (code_points s) + (length octets - length (code_points s)))%nat
    at 1 by lia.
  pose proof (decode_loop_code_points (code_points s) (code_points_range s Hs)
                (length octets - length (code_points s)) [] [] []) as Hdec.
  fold octets in Hdec. cbn [app length Nat.add] in Hdec. rewrite app_nil_r in Hdec.
  rewrite Hdec, decode_loop_end, code_units_of_code_points by exact Hs.
  reflexivity.
Qed.

Lemma TextDecoder_decode_TextEncoder_encode_witness :
  Forall code_unit sample_text /\
  Polyfills.TextDecoder_decode (Polyfills.TextEncoder_encode sample_text)
    = Ret sample_text.
Proof.
  assert (Hs : Forall code_unit sample_text)
    by (repeat constructor; unfold code_unit; lia).
  split; [exact Hs |].
  exact (TextDecoder_decode_TextEncoder_encode _ Hs).
Defined.

Lemma code_points_ascii (s : jsstring) : Forall ascii_unit s -> code_points s = s.
Proof.
  induction s as [| a s IH]; intros Hs; [reflexivity |].
  apply Forall_cons in Hs as [Ha Hs]. unfold ascii_unit in Ha.
  destruct s as [| b s]; [reflexivity |].
  rewrite code_points_pair.
  replace (is_high_surrogate a) with false
    by (symmetry; apply andb_false_iff; left; apply Z.leb_gt; lia).
  cbn [andb]. rewrite IH by exact Hs. reflexivity.
Qed.

(** X2: The octets of an ASCII string are its code units. *)
Theorem TextEncoder_encode_ascii (s : jsstring) :
  Forall ascii_unit s -> Polyfills.TextEncoder_encode s = s.
Proof.
  intros Hs.
  rewrite TextEncoder_encode_code_points
    by (eapply Forall_impl; [exact Hs | unfold ascii_unit, code_unit; intros; lia]).
  rewrite code_points_ascii by exact Hs.
  induction Hs as [| a s Ha Hs IH]; [reflexivity |].
  cbn [fmap list_fmap concat]. rewrite utf8_octets_one by exact Ha.
  cbn [app]. f_equal. exact IH.
Qed.

Lemma TextEncoder_encode_ascii_witness :
  Forall ascii_unit (js "__done__") /\
  Polyfills.TextEncoder_encode (js "__done__") = js "__done__".
Proof.
  assert (Hs : Forall ascii_unit (js "__done__"))
    by (repeat constructor; unfold ascii_unit; cbn; lia).
  split; [exact Hs |].
  exact (TextEncoder_encode_ascii _ Hs).
Defined.

(** How many octets a code point takes. *)
Lemma utf8_octets_length (cp : Z) :
  code_point cp ->
  length (utf8_octets cp)
    = if cp <=? 0x7F then 1%nat
      else if cp <=? 0x7FF then 2%nat
      else if cp <=? 0xFFFF then 3%nat
      else 4%nat.
Proof.
  unfold code_point. intros Hcp.
  destruct (Z.leb_spec cp 0x7F); [rewrite utf8_octets_one by lia; reflexivity |].
  destruct (Z.leb_spec cp 0x7FF); [rewrite utf8_octets_two by lia; reflexivity |].
  destruct (Z.leb_spec cp 0xFFFF); [rewrite utf8_octets_three by lia; reflexivity |].
  rewrite utf8_octets_four by lia. reflexivity.
Qed.

(** X3: A string of [n] code units takes between [n] and [3 * n] octets. *)
Theorem TextEncoder_encode_length (s : jsstring) :
  Forall code_unit s ->
  (length s <= length (Polyfills.TextEncoder_encode s) <= 3 * length s)%nat.
Proof.
  intros Hs. rewrite TextEncoder_encode_code_points by exact Hs.
  induction s as [s IH] using (induction_ltof1 _ (@length Z)). unfold ltof in IH.
  destruct s as [| a [| b rest]].
  - cbn. lia.
  - apply Forall_cons in Hs as [Ha _]. unfold code_unit in Ha.
    cbn [code_points fmap list_fmap concat]. rewrite app_nil_r.
    rewrite utf8_octets_length by (unfold code_point; lia).
    destruct (a <=? 0x7F); [cbn; lia |].
    destruct (a <=? 0x7FF); [cbn; lia |].
    replace (a <=? 0xFFFF) with true by (symmetry; apply Z.leb_le; lia).
    cbn. lia.
  - apply Forall_cons in Hs as [Ha Hs]. unfold code_unit in Ha.
    rewrite code_points_pair.
    destruct (is_high_surrogate a && is_low_surrogate b) eqn:Epair.
    + apply andb_true_iff in Epair as [Hh Hl].
      unfold is_high_surrogate, is_low_surrogate in Hh, Hl.
      apply andb_true_iff in Hh as [Hh1 Hh2]. apply andb_true_iff in Hl as [Hl1 Hl2].
      apply Z.leb_le in Hh1, Hh2, Hl1, Hl2.
      apply Forall_cons in Hs as [_ Hs].
      cbn [fmap list_fmap concat]. rewrite length_app.
      rewrite utf8_octets_length by (unfold code_point; lia).
      set (cp := (a - 0xD800) * 0x400 + (b - 0xDC00) + 0x10000).
      replace (cp <=? 0x7F) with false by (symmetry; apply Z.leb_gt; subst cp; lia).
      replace (cp <=? 0x7FF) with false by (symmetry; apply Z.leb_gt; subst cp; lia).
      replace (cp <=? 0xFFFF) with false by (symmetry; apply Z.leb_gt; subst cp; lia).
      specialize (IH rest ltac:(cbn; lia) Hs). cbn [length]. lia.
    + cbn [fmap list_fmap concat]. rewrite length_app.
      rewrite utf8_octets_length by (unfold code_point; lia).
      specialize (IH (b :: rest) ltac:(cbn; lia) Hs). cbn [length] in *.
      destruct (a <=? 0x7F); [lia |].
      destruct (a <=? 0x7FF); [lia |].
      replace (a <=? 0xFFFF) with true by (symmetry; apply Z.leb_le; lia).
      lia.
Qed.

Lemma TextEncoder_encode_length_witness :
  Forall code_unit sample_text /\
  (length sample_text <= length (Polyfills.TextEncoder_encode sample_text)
     <= 3 * length sample_text)%nat.
Proof.
  assert (Hs : Forall code_unit sample_text)
    by (repeat constructor; unfold code_unit; lia).
  split; [exact Hs |].
  exact (TextEncoder_encode_length _ Hs).
Defined.

(** Past the end of the octets the decoder returns what it has. *)
Lemma decode_loop_past (fuel : nat) (octets : list Z) (i : nat) (acc : jsstring) :
  (length octets <= i)%nat -> Polyfills.decode_loop fuel octets i acc = Ret acc.
Proof.
  intros Hi. assert (E : (i <? length octets)%nat = false) by (apply Nat.ltb_ge; lia).
  destruct fuel; cbn [Polyfills.decode_loop]; rewrite E; reflexivity.
Qed.

(** The decoder, started on the octets of a string followed by [rest]:
    it reaches [rest] with the string decoded. *)
Lemma decode_after_encode (s : jsstring) (rest : list Z) (fuel : nat) :
  Forall code_unit s ->
  Polyfills.decode_loop (length (code_points s) + fuel)
      (Polyfills.TextEncoder_encode s ++ rest) 0 []
    = Polyfills.decode_loop fuel (Polyfills.TextEncoder_encode s ++ rest)
        (length (Polyfills.TextEncoder_encode s)) s.
Proof.
  intros Hs. rewrite TextEncoder_encode_code_points by exact Hs.
  pose proof (decode_loop_code_points (code_points s) (code_points_range s Hs)
                fuel [] rest []) as Hdec.
  cbn [app length Nat.add] in Hdec. rewrite Hdec.
  rewrite code_units_of_code_points by exact Hs. reflexivity.
Qed.

(** The decoder gives back the string whose octets it is given. *)
Lemma decode_encoded (s : jsstring) :
  Forall code_unit s ->
  Polyfills.TextDecoder_decode (Polyfills.TextEncoder_encode s) = Ret s.
Proof.
  intros Hs. unfold Polyfills.TextDecoder_decode.
  pose proof (decode_after_encode s [] (length (Polyfills.TextEncoder_encode s)
                                        - length (code_points s)) Hs) as Hdec.
  rewrite app_nil_r in Hdec.
  replace (length (code_points s)
           + (length (Polyfills.TextEncoder_encode s) - length (code_points s)))%nat
    with (length (Polyfills.TextEncoder_encode s)) in Hdec.
  - rewrite Hdec. apply decode_loop_end.
  - rewrite TextEncoder_encode_code_points by exact Hs.
    pose proof (concat_utf8_length (code_points s)). lia.
Qed.

Lemma TextEncoder_encode_points_length (s : jsstring) :
  Forall code_unit s ->
  (length (code_points s) <= length (Polyfills.TextEncoder_encode s))%nat.
Proof.
  intros Hs. rewrite TextEncoder_encode_code_points by exact Hs.
  apply concat_utf8_length.
Qed.

(** X4: A multi-octet sequence cut short at the end of the input: the lead
    octet and what follows it decode to one replacement character. *)
Theorem TextDecoder_decode_truncated (s : jsstring) (lead : Z) (tail : list Z) :
  Forall code_unit s ->
  truncated_sequence lead tail ->
  Polyfills.TextDecoder_decode (Polyfills.TextEncoder_encode s ++ lead :: tail)
    = Ret (s ++ [0xFFFD]).
Proof.
  intros Hs Htr. unfold Polyfills.TextDecoder_decode.
  pose proof (TextEncoder_encode_points_length s Hs) as Hlen.
  set (bytes := Polyfills.TextEncoder_encode s) in *.
  rewrite length_app. cbn [length].
  replace (length bytes + S (length tail))%nat
    with (length (code_points s)
          + S (length bytes - length (code_points s) + length tail))%nat by lia.
  unfold bytes. rewrite decode_after_encode by exact Hs. fold bytes.
  cbn [Polyfills.decode_loop].
  replace (length bytes <? length (bytes ++ lead :: tail))%nat with true
    by (symmetry; apply Nat.ltb_lt; rewrite length_app; cbn; lia).
  rewrite nth_at. cbn [nth].
  rewrite length_app. cbn [length].
  assert (Hfffd : Polyfills.fromCodePoint 0xFFFD = Ret [0xFFFD]) by reflexivity.
  destruct Htr as [[Hl Ht] | [[Hl Ht] | [Hl Ht]]]; lead_class; cbv beta iota zeta;
    match goal with |- context [0 <? ?x] =>
      destruct (Z.ltb_spec 0 x); [exfalso; lia |] end;
    rewrite Hfffd; apply decode_loop_past; rewrite length_app; cbn; lia.
Qed.

Lemma TextDecoder_decode_truncated_witness :
  Forall code_unit (js "ok") /\
  truncated_sequence 0xE4 [0x41] /\
  Polyfills.TextDecoder_decode (Polyfills.TextEncoder_encode (js "ok") ++ 0xE4 :: [0x41])
    = Ret (js "ok" ++ [0xFFFD]).
Proof.
  assert (Hs : Forall code_unit (js "ok"))
    by (repeat constructor; unfold code_unit; cbn; lia).
  assert (Htr : truncated_sequence 0xE4 [0x41])
    by (right; left; cbn; lia).
  split; [exact Hs |]. split; [exact Htr |].
  exact (TextDecoder_decode_truncated _ _ _ Hs Htr).
Defined.

(** X5: Four octets that spell a number above the last code point: the
    decoder does not return, [String.fromCodePoint] throws. *)
Theorem TextDecoder_decode_beyond_unicode (s : jsstring) (b1 b2 b3 : Z)
    (rest : list Z) :
  Forall code_unit s ->
  0 <= b1 -> 0 <= b2 -> 0 <= b3 ->
  0x10 <= b1 mod 64 ->
  exists e,
    Polyfills.TextDecoder_decode
      (Polyfills.TextEncoder_encode s ++ [0xF4; b1; b2; b3] ++ rest) = Throw e.
Proof.
  intros Hs H1 H2 H3 Hbig. unfold Polyfills.TextDecoder_decode.
  pose proof (TextEncoder_encode_points_length s Hs) as Hlen.
  set (bytes := Polyfills.TextEncoder_encode s) in *.
  rewrite length_app. cbn [length app].
  replace (length bytes + S (S (S (S (length rest)))))%nat
    with (length (code_points s)
          + S (length bytes - length (code_points s) + 3 + length rest))%nat by lia.
  unfold bytes.
  change (0xF4 :: b1 :: b2 :: b3 :: rest) with ([0xF4; b1; b2; b3] ++ rest).
  rewrite decode_after_encode by exact Hs. fold bytes.
  cbn [Polyfills.decode_loop].
  match goal with |- context [(?x <? ?y)%nat] =>
    replace (x <? y)%nat with true
      by (symmetry; apply Nat.ltb_lt; rewrite length_app; cbn; lia) end.
  rewrite nth_at. cbn [nth app].
  rewrite length_app. cbn [length].
  change (0xF4 <=? 0x7F) with false. change (0xF4 <=? 0xDF) with false.
  change (0xF4 <=? 0xEF) with false. change (0xF4 <=? 0xF4) with true.
  cbv beta iota zeta.
  match goal with |- context [0 <? ?x] =>
    destruct (Z.ltb_spec 0 x); [| exfalso; lia] end.
  cbn [Polyfills.decode_trail].
  change (0xF4 :: b1 :: b2 :: b3 :: rest) with ([0xF4; b1; b2; b3] ++ rest).
  rewrite !nth_trail. cbn [nth app].
  rewrite !fold_octet by lia.
  change (Z.land 0xF4 0x07) with 4.
  set (cp := ((4 * 64 + b1 mod 64) * 64 + b2 mod 64) * 64 + b3 mod 64).
  assert (Hcp : 0x10FFFF < cp) by (subst cp; dlia).
  unfold Polyfills.fromCodePoint.
  replace ((cp <? 0) || (0x10FFFF <? cp)) with true
    by (symmetry; apply orb_true_iff; right; apply Z.ltb_lt; exact Hcp).
  eauto.
Qed.

Lemma TextDecoder_decode_beyond_unicode_witness :
  Forall code_unit (js "ok") /\
  0 <= 0x90 /\ 0 <= 0x80 /\ 0 <= 0x80 /\ 0x10 <= 0x90 mod 64 /\
  exists e,
    Polyfills.TextDecoder_decode
      (Polyfills.TextEncoder_encode (js "ok") ++ [0xF4; 0x90; 0x80; 0x80] ++ []) = Throw e.
Proof.
  assert (Hs : Forall code_unit (js "ok"))
    by (repeat constructor; unfold code_unit; cbn; lia).
  assert (Hbig : 0x10 <= 0x90 mod 64) by (vm_compute; discriminate).
  split; [exact Hs |]. split; [lia |]. split; [lia |]. split; [lia |].
  split; [exact Hbig |].
  exact (TextDecoder_decode_beyond_unicode (js "ok") 0x90 0x80 0x80 [] Hs
           ltac:(lia) ltac:(lia) ltac:(lia) Hbig).
Defined.

(** X6: [encodeInto] into a destination that has room: the whole string is
    reported as read, the octets written are those of the string, they
    decode to the string, and the octets behind them are untouched. *)
Theorem TextEncoder_encodeInto_fits (str : jsstring) (destination : list Z) :
  Forall code_unit str ->
  (length (Polyfills.TextEncoder_encode str) <= length destination)%nat ->
  let r := Polyfills.TextEncoder_encodeInto str destination in
  let written := length (Polyfills.TextEncoder_encode str) in
  out r = Ret (length str, written) /\
  st r = Polyfills.TextEncoder_encode str ++ drop written destination /\
  length (st r) = length destination /\
  Polyfills.TextDecoder_decode (take written (st r)) = Ret str.
Proof.
  intros Hs Hfit r written. subst r written.
  unfold Polyfills.TextEncoder_encodeInto.
  set (bytes := Polyfills.TextEncoder_encode str) in *.
  replace (length destination <? length bytes)%nat with false
    by (symmetry; apply Nat.ltb_ge; lia).
  rewrite Nat.min_l by lia. cbn [out st].
  rewrite firstn_all.
  split; [reflexivity |]. split; [reflexivity |].
  split.
  - rewrite length_app, length_drop. lia.
  - rewrite take_app_length. unfold bytes. apply decode_encoded. exact Hs.
Qed.

Lemma TextEncoder_encodeInto_fits_witness :
  Forall code_unit sample_text /\
  (length (Polyfills.TextEncoder_encode sample_text) <= length sample_destination)%nat /\
  out (Polyfills.TextEncoder_encodeInto sample_text sample_destination)
    = Ret (length sample_text, length (Polyfills.TextEncoder_encode sample_text)) /\
  Polyfills.TextDecoder_decode
    (take (length (Polyfills.TextEncoder_encode sample_text))
          (st (Polyfills.TextEncoder_encodeInto sample_text sample_destination)))
    = Ret sample_text.
Proof.
  assert (Hs : Forall code_unit sample_text)
    by (repeat constructor; unfold code_unit; lia).
  assert (Hfit : (length (Polyfills.TextEncoder_encode sample_text)
                  <= length sample_destination)%nat) by (vm_compute; lia).
  split; [exact Hs |]. split; [exact Hfit |].
  pose proof (TextEncoder_encodeInto_fits sample_text sample_destination Hs Hfit) as Hthm.
  cbv zeta in Hthm. split; [exact (proj1 Hthm) | exact (proj2 (proj2 (proj2 Hthm)))].
Defined.

(** ** The arena adapter: reading strings *)

(** X7: [readString] returns the empty string for a length of zero, without
    a foreign call, and when the read faults, which it logs. *)
Theorem readString_empty_or_fault (H : HostImpl) (ptr len : Z) (w : World H) :
  (len = 0 -> memory.readString ptr len w = MkRun (Ret []) w []) /\
  (len <> 0 ->
   forall e h,
     respond H (wasm_read_string ptr len) (host_st w) = (Throw e, h) ->
     memory.readString ptr len w =
       MkRun (Ret []) (with_host w h)
         [Ev (wasm_read_string ptr len) (Throw e);
          ConsoleError (js "String read failed at ptr=" ++ num ptr ++ js ", len="
                          ++ num len ++ js ":") e]).
Proof.
  unfold memory.readString. split.
  - intros ->. reflexivity.
  - intros Hlen e h Hread.
    destruct (len =? 0) eqn:E; [apply Z.eqb_eq in E; contradiction |].
    unfold try_catch, bind. rewrite (prim_run _ _ _ _ Hread). reflexivity.
Qed.

(** X8: Reading the octets of a buffer and decoding them gives what
    [readString] gives for the same buffer, on an engine whose decoder
    gives the empty string for no octets and gives back the string that
    the arena hands over from the octets of its encoder. *)
Theorem readBufferSlice_then_decode (H : HostImpl) (ptr len : Z) (w : World H) :
  memory.decoder_decode (H := H) [] = Ret [] ->
  (forall t h, respond H (wasm_read_string ptr len) (host_st w) = (Ret t, h) ->
               decodes_back H t) ->
  then_decode H (out (memory.readBufferSlice ptr len w))
    = out (memory.readString ptr len w).
Proof.
  intros Hempty Hstr. unfold memory.readBufferSlice, memory.readString.
  destruct (len =? 0); [exact Hempty |].
  rewrite !try_catch_eq, bind_eq, prim_eq.
  destruct (respond H (wasm_read_string ptr len) (host_st w)) as [[t | e |] h] eqn:E;
    cbn; try reflexivity; [| exact Hempty].
  exact (Hstr t h eq_refl).
Qed.

Lemma readBufferSlice_then_decode_witness :
  memory.decoder_decode (H := demo_host) [] = Ret [] /\
  (forall t h, respond demo_host (wasm_read_string 16 10) (host_st plain_world) = (Ret t, h) ->
               decodes_back demo_host t) /\
  then_decode demo_host (out (memory.readBufferSlice 16 10 plain_world)) = Ret plain_text /\
  then_decode demo_host (out (memory.readBufferSlice 16 10 plain_world))
    = out (memory.readString 16 10 plain_world).
Proof.
  assert (Hstr : forall t h,
            respond demo_host (wasm_read_string 16 10) (host_st plain_world) = (Ret t, h) ->
            decodes_back demo_host t).
  { intros t h E. vm_compute in E. injection E as Ht _. subst t.
    vm_compute. reflexivity. }
  split; [reflexivity |]. split; [exact Hstr |]. split; [vm_compute; reflexivity |].
  exact (readBufferSlice_then_decode demo_host 16 10 plain_world eq_refl Hstr).
Defined.

Lemma encode_loop_grows (fuel : nat) (str : jsstring) (i : nat) (octets : list Z) :
  exists more, Polyfills.encode_loop fuel str i octets = octets ++ more.
Proof.
  revert i octets. induction fuel as [| fuel IH]; intros i octets.
  - exists []. cbn. rewrite app_nil_r. reflexivity.
  - cbn [Polyfills.encode_loop]. destruct (i <? length str)%nat.
    + match goal with |- context [Polyfills.encode_loop fuel str ?j (octets ++ ?c)] =>
        destruct (IH j (octets ++ c)) as [more ->]; exists (c ++ more) end.
      rewrite app_assoc. reflexivity.
    + exists []. rewrite app_nil_r. reflexivity.
Qed.

Lemma encode_codePoint_nonempty (cp : Z) :
  (1 <= length (Polyfills.encode_codePoint cp))%nat.
Proof.
  unfold Polyfills.encode_codePoint.
  destruct (if cp <=? 127 then _ else _) as [c bits]. cbn. lia.
Qed.

(** The octets that the encoder of the polyfills gives for a string
    that is not empty are not empty. *)
Lemma TextEncoder_encode_nonempty (t : jsstring) :
  t <> [] -> (1 <= length (Polyfills.TextEncoder_encode t))%nat.
Proof.
  intros Ht. destruct t as [| a t]; [contradiction |].
  unfold Polyfills.TextEncoder_encode.
  rewrite length_fmap. cbn [length Polyfills.encode_loop].
  change (0 <? S (length t))%nat with true. cbv iota.
  match goal with |- context [Polyfills.encode_loop ?f ?s ?j ([] ++ ?c)] =>
    destruct (encode_loop_grows f s j ([] ++ c)) as [more ->] end.
  rewrite !length_app. pose proof (encode_codePoint_nonempty
                                     (Polyfills.codePointAt (a :: t) 0)).
  cbn [length] in *. lia.
Qed.

(** X9: The round trip through the arena with [readString]: on a host whose
    arena returns what was written, and an engine whose encoder gives
    at least one octet for a string that is not empty, reading the
    handle that [stringToPtr] returned gives the string back. *)
Theorem stringToPtr_readString_roundtrip (H : HostImpl) (t : jsstring)
    (w : World H) (ptr len : Z) :
  arena_faithful H ->
  (t <> [] -> memory.encoder_encode (H := H) t <> []) ->
  out (memory.stringToPtr t w) = Ret (ptr, len) ->
  out (memory.readString ptr len (st (memory.stringToPtr t w))) = Ret t.
Proof.
  intros Hfaithful Hoctets. unfold memory.stringToPtr, memory.allocate.
  destruct (Nat.eqb (length t) 0) eqn:Et.
  - apply Nat.eqb_eq in Et. destruct t; [| discriminate].
    rewrite bind_eq, prim_eq.
    destruct (respond H (wasm_alloc 0) (host_st w)) as [[p | e |] h]; cbn;
      try discriminate.
    intros [= <- <-]. reflexivity.
  - rewrite !bind_eq, prim_eq.
    destruct (respond H (wasm_alloc (Z.of_nat (length (memory.encoder_encode t))))
                (host_st w)) as [[p | e |] h1] eqn:Ea; cbn; try discriminate.
    rewrite bind_eq, prim_eq. cbn.
    destruct (respond H (wasm_write_string p t) h1) as [[[] | e |] h2] eqn:Ew;
      cbn; try discriminate.
    intros [= <- <-]. unfold memory.readString.
    destruct (Z.of_nat (length (memory.encoder_encode t)) =? 0) eqn:El.
    + apply Z.eqb_eq in El. exfalso.
      assert (Ht : t <> []) by (intros ->; discriminate).
      apply (Hoctets Ht). destruct (memory.encoder_encode t); [reflexivity |].
      cbn in El. lia.
    + destruct (Hfaithful _ _ _ _ Ew) as [h3 Hr].
      rewrite try_catch_eq, prim_eq. cbn. rewrite Hr. reflexivity.
Qed.

Lemma stringToPtr_readString_roundtrip_witness :
  arena_faithful demo_host /\
  (sample_text <> [] -> memory.encoder_encode (H := demo_host) sample_text <> []) /\
  out (memory.stringToPtr (H := demo_host) sample_text bare_world) = Ret (16, 13) /\
  out (memory.readString 16 13 (st (memory.stringToPtr sample_text bare_world)))
    = Ret sample_text.
Proof.
  assert (Hoctets : sample_text <> [] ->
                    memory.encoder_encode (H := demo_host) sample_text <> [])
    by (intros _; vm_compute; discriminate).
  split; [apply mock_arena_faithful |]. split; [exact Hoctets |].
  split; [reflexivity |].
  apply (stringToPtr_readString_roundtrip demo_host sample_text bare_world 16 13);
    [apply mock_arena_faithful | exact Hoctets | reflexivity].
Defined.

(** ** The initial payload *)

(** X10: [getContext] asks for no buffer when the payload has no octets, and
    a buffer that it was given is released, once, by the last foreign
    call of every run that comes back: also when the host throws. *)
Theorem getContext_releases_buffer (H : HostImpl) (w : World H) :
  let r := host.getContext w in
  (In (Ev host_getContextSize (Ret (RNum 0))) (evs r) ->
   out r = Ret [] /\ evs r = [Ev host_getContextSize (Ret (RNum 0))]) /\
  (out r <> Hang ->
   forall size ptr,
     In (Ev (wasm_alloc size) (Ret (RNum ptr))) (evs r) ->
     exists pre o,
       evs r = pre ++ [Ev (wasm_dealloc ptr size) o] /\
       List.filter is_dealloc pre = []).
Proof.
  cbv zeta. unfold host.getContext, memory.allocate, memory.deallocate,
    memory.readBufferSlice.
  go H.
  all: try match goal with |- context [if ?a =? 0 then _ else _] =>
      destruct (a =? 0) eqn:Ea end.
  all: go H.
  all: try (apply Z.eqb_eq in Ea; subst).
  all: try apply Z.eqb_neq in Ea.
  all: split;
    [ intros Hin; which_event; try contradiction; try (split; reflexivity)
    | intros Hne size ptr Hin; try (exfalso; apply Hne; reflexivity);
      which_event;
      try match goal with
          | |- exists pre o, ?l = pre ++ [Ev _ o] /\ _ =>
              exists (removelast l); eexists; cbn [removelast app]; split; reflexivity
          end ].
Qed.

Lemma getContext_releases_buffer_witness :
  out (host.getContext payload_world) <> Hang /\
  In (Ev (wasm_alloc 13) (Ret (RNum 16))) (evs (host.getContext payload_world)) /\
  exists pre o,
    evs (host.getContext payload_world) = pre ++ [Ev (wasm_dealloc 16 13) o] /\
    List.filter is_dealloc pre = [].
Proof.
  assert (Hne : out (host.getContext payload_world) <> Hang)
    by (vm_compute; intros [=]).
  assert (Hin : In (Ev (wasm_alloc 13) (Ret (RNum 16)))
                   (evs (host.getContext payload_world)))
    by (vm_compute; auto).
  split; [exact Hne |]. split; [exact Hin |].
  exact (proj2 (getContext_releases_buffer demo_host payload_world) Hne 13 16 Hin).
Defined.

(** X11: The driver reads the text of the payload as the host provides it:
    from the global that the script worker sets, without a foreign call,
    or else from the arena, and then it is the string that the arena
    handed over, when the decoder of the engine gives that string back
    from the octets of its encoder. *)
Theorem readInputFromHost_reads_payload (H : HostImpl)
    (JSON_stringify : jsval -> outcome (option jsstring)) (w : World H) :
  let r := driver_input H JSON_stringify w in
  (truthy (initial_payload w) = true -> evs r = [] /\ st r = w) /\
  (truthy (initial_payload w) = false ->
   Forall returned (evs r) ->
   forall ptr len t,
     In (Ev (wasm_read_string ptr len) (Ret (RStr t))) (evs r) ->
     decodes_back H t ->
     out r = Ret (Some t)).
Proof.
  cbv zeta. unfold index.readInputFromHost. split; intros Hp; rewrite Hp.
  - run. destruct (index.get_prop (initial_payload w) (js "request")) as [request | e |];
      cbn; auto.
  - unfold host.getContext, memory.allocate, memory.deallocate, memory.readBufferSlice.
    go H.
    all: try match goal with |- context [if ?a =? 0 then _ else _] =>
        destruct (a =? 0) eqn:Ea end.
    all: go H.
    all: try match goal with |- context [memory.decoder_decode ?b] =>
        destruct (memory.decoder_decode b) eqn:Edec end; cbn.
    all: intros Hret ptr len t Hin Ht.
    all: repeat match goal with
                | Hx : Forall returned (_ :: _) |- _ =>
                    apply Forall_cons in Hx as [? Hx]
                end.
    all: try contradiction.
    all: which_event.
    all: congruence.
Qed.

Lemma readInputFromHost_reads_payload_witness :
  truthy (initial_payload plain_payload_world) = false /\
  Forall returned (evs (driver_input demo_host mock.JSON_stringify plain_payload_world)) /\
  In (Ev (wasm_read_string 16 10) (Ret (RStr plain_text)))
     (evs (driver_input demo_host mock.JSON_stringify plain_payload_world)) /\
  decodes_back demo_host plain_text /\
  out (driver_input demo_host mock.JSON_stringify plain_payload_world)
    = Ret (Some plain_text).
Proof.
  assert (Hret : Forall returned
                   (evs (driver_input demo_host mock.JSON_stringify plain_payload_world)))
    by (vm_compute; repeat constructor).
  assert (Hin : In (Ev (wasm_read_string 16 10) (Ret (RStr plain_text)))
                   (evs (driver_input demo_host mock.JSON_stringify plain_payload_world)))
    by (vm_compute; auto 10).
  assert (Hs : decodes_back demo_host plain_text)
    by (vm_compute; reflexivity).
  split; [reflexivity |]. split; [exact Hret |]. split; [exact Hin |].
  split; [exact Hs |].
  exact (proj2 (readInputFromHost_reads_payload demo_host mock.JSON_stringify
                  plain_payload_world) eq_refl Hret 16 10 plain_text Hin Hs).
Defined.

(** ** The result of a blocking call *)

(** A run all of whose calls returned and which read the string [t]. *)
Ltac close_parsed :=
  let Hret := fresh "Hret" in
  let Hin := fresh "Hin" in
  let Ht := fresh "Ht" in
  intros Hret ? ? ? Hin Ht;
  repeat match goal with
         | Hx : Forall returned (_ :: _) |- _ => apply Forall_cons in Hx as [? Hx]
         end;
  try contradiction;
  which_event;
  congruence.

Section result_facts.
Context {H : HostImpl}.
Variable JSON_parse : jsstring -> outcome jsval.

Lemma regime_step_parses (ASYNC_BUILD : bool) (s : host.param_frame * World H) :
  let g := host.regime_step JSON_parse ASYNC_BUILD s in
  Forall returned (evs g) ->
  forall ptr len t,
    In (Ev (wasm_read_string ptr len) (Ret (RStr t))) (evs g) ->
    decodes_back H t ->
    out g = JSON_parse t.
Proof.
  cbv zeta. destruct s as [f w]. unfold host.regime_step.
  destruct ASYNC_BUILD.
  - unfold host.execute_asyncify, host.read_staged_response, host.release_result,
      host.release, memory.readBufferSlice, memory.deallocate.
    explore H; close_parsed.
  - unfold host.execute_synchronous, host.fetch_result, host.release_result,
      host.release, memory.readBufferSlice, memory.deallocate, memory.allocate.
    explore H; close_parsed.
Qed.

End result_facts.

Lemma returned_release_ok (t : list event) :
  Forall returned t -> Forall release_ok t.
Proof.
  intros Ht. eapply Forall_impl; [exact Ht |].
  intros [c [r | e |] | |]; cbn; try tauto; destruct c; tauto.
Qed.

(** X12: What [execute] returns is what the host answered: when every
    foreign call of the run returned, the arena handed over the string
    [t], and the decoder of the engine gives [t] back from the octets
    of its encoder, the outcome of [execute] is that of
    [JSON.parse(t)], in either regime. *)
Theorem execute_returns_parsed_result (H : HostImpl)
    (JSON_stringify : jsval -> outcome (option jsstring))
    (JSON_parse : jsstring -> outcome jsval) (ASYNC_BUILD : bool)
    (actionName : jsstring) (params context : jsval) (w : World H)
    (ptr len : Z) (t : jsstring) :
  let r := host.execute JSON_stringify JSON_parse ASYNC_BUILD actionName params context w in
  Forall returned (evs r) ->
  In (Ev (wasm_read_string ptr len) (Ret (RStr t))) (evs r) ->
  decodes_back H t ->
  out r = JSON_parse t.
Proof.
  cbv zeta. intros Hret Hin Ht.
  set (readev := Ev (wasm_read_string ptr len) (Ret (RStr t))) in *.
  pose proof (execute_evs JSON_stringify JSON_parse ASYNC_BUILD actionName params
                context w) as Hevs.
  pose proof (execute_body_evs JSON_stringify JSON_parse ASYNC_BUILD actionName params
                context (frame0, w)) as Hbody.
  pose proof (marshal_emits JSON_stringify (fun e => e <> readev) actionName params
                context ltac:(intros [[] ?| |]; discriminate) (frame0, w)) as Hm.
  cbv zeta in Hevs, Hbody.
  set (r := host.execute JSON_stringify JSON_parse ASYNC_BUILD actionName params
              context w) in *.
  set (b := host.execute_body JSON_stringify JSON_parse ASYNC_BUILD actionName params
              context (frame0, w)) in *.
  set (m := host.marshal JSON_stringify actionName params context (frame0, w)) in *.
  pose proof (execute_finally_emits (fun e => e <> readev) ltac:(discriminate) (st b))
    as Hfin.
  assert (Hb : In readev (evs b) /\ Forall returned (evs b)).
  { destruct Hevs as [(_ & _ & E) | (_ & E)]; rewrite E in Hin, Hret; [auto |].
    apply Forall_app in Hret as [Hret _]. split; [| exact Hret].
    apply in_app_iff in Hin as [Hin | Hin]; [exact Hin |].
    destruct (Forall_not_In _ _ _ Hfin ltac:(auto) Hin). }
  destruct Hb as [Hinb Hretb].
  destruct Hbody as [(Em & Eout & Est & Eevs) | (_ & _ & Eevs & _)].
  2: { rewrite Eevs in Hinb. destruct (Forall_not_In _ _ _ Hm ltac:(auto) Hinb). }
  rewrite Eevs in Hinb, Hretb. apply Forall_app in Hretb as [_ Hretg].
  apply in_app_iff in Hinb as [Hinb | Hinb].
  { destruct (Forall_not_In _ _ _ Hm ltac:(auto) Hinb). }
  pose proof (regime_step_parses JSON_parse ASYNC_BUILD (st m) Hretg ptr len t Hinb Ht)
    as Hg.
  destruct Hevs as [(Ehang & Er & _) | (Hne & _)].
  - rewrite Er, <- Ehang, Eout. exact Hg.
  - destruct (execute_run JSON_stringify JSON_parse ASYNC_BUILD actionName params context
                w Hne (returned_release_ok _ Hret)) as [Hout _].
    fold r b in Hout. rewrite Hout, Eout. exact Hg.
Qed.

Lemma execute_returns_parsed_result_witness :
  Forall returned
    (evs (demo_execute demo_host false [(ok_text, ok_value)] (js "echo") JNull
            index.unknown_context staged_world)) /\
  In (Ev (wasm_read_string 60 11) (Ret (RStr ok_text)))
    (evs (demo_execute demo_host false [(ok_text, ok_value)] (js "echo") JNull
            index.unknown_context staged_world)) /\
  decodes_back demo_host ok_text /\
  out (demo_execute demo_host false [(ok_text, ok_value)] (js "echo") JNull
         index.unknown_context staged_world) = Ret ok_value.
Proof.
  assert (Hret : Forall returned
            (evs (demo_execute demo_host false [(ok_text, ok_value)] (js "echo") JNull
                    index.unknown_context staged_world)))
    by (vm_compute; repeat constructor).
  assert (Hin : In (Ev (wasm_read_string 60 11) (Ret (RStr ok_text)))
            (evs (demo_execute demo_host false [(ok_text, ok_value)] (js "echo") JNull
                    index.unknown_context staged_world)))
    by (vm_compute; auto 20).
  assert (Ht : decodes_back demo_host ok_text)
    by (vm_compute; reflexivity).
  split; [exact Hret |]. split; [exact Hin |]. split; [exact Ht |].
  exact (execute_returns_parsed_result demo_host mock.JSON_stringify
           (mock.JSON_parse [(ok_text, ok_value)]) false (js "echo") JNull
           index.unknown_context staged_world 60 11 ok_text Hret Hin Ht).
Defined.

(** X13: When the write of the action name into the arena faults, [execute]
    rethrows the fault and makes no release call: the buffer that was
    just allocated is not recorded in the variables that the [finally]
    block reads. *)
Theorem execute_write_fault_releases_nothing (H : HostImpl)
    (JSON_stringify : jsval -> outcome (option jsstring))
    (JSON_parse : jsstring -> outcome jsval) (ASYNC_BUILD : bool)
    (actionName : jsstring) (params context : jsval) (w : World H)
    (paramsJSON contextJSON : option jsstring) (ptr : Z) (e : jsval)
    (h1 h2 : hstate H) :
  actionName <> [] ->
  JSON_stringify (coalesce params JNull) = Ret paramsJSON ->
  JSON_stringify context = Ret contextJSON ->
  respond H (wasm_alloc (Z.of_nat (length (memory.encoder_encode (H := H) actionName))))
    (host_st w) = (Ret ptr, h1) ->
  respond H (wasm_write_string ptr actionName) h1 = (Throw e, h2) ->
  host.execute JSON_stringify JSON_parse ASYNC_BUILD actionName params context w
    = MkRun (Throw e) (with_host (with_host w h1) h2)
        [Ev (wasm_alloc (Z.of_nat (length (memory.encoder_encode (H := H) actionName))))
            (Ret (RNum ptr));
         Ev (wasm_write_string ptr actionName) (Throw e)].
Proof.
  intros Hname Hp Hc Ha Hw.
  unfold host.execute, host.execute_frame, host.execute_body, host.marshal,
    host.execute_finally, host.release, memory.stringToPtr, memory.allocate.
  rewrite Hp, Hc.
  destruct (Nat.eqb (length actionName) 0) eqn:El.
  { apply Nat.eqb_eq in El. destruct actionName; [contradiction | discriminate]. }
  remember (memory.encoder_encode (H := H) actionName) as bytes.
  run. rewrite Ha. run. rewrite Hw. run. reflexivity.
Qed.

Lemma execute_write_fault_releases_nothing_witness :
  js "echo" <> [] /\
  mock.JSON_stringify (coalesce JNull JNull) = Ret (Some (js "null")) /\
  mock.JSON_stringify index.unknown_context
    = Ret (Some (mock.stringify index.unknown_context)) /\
  respond write_fault_host (wasm_alloc 4) (host_st write_fault_world)
    = (Ret 16, host_st (with_host write_fault_world (mock.MkState 20 ∅ 0 false [] []))) /\
  evs (host.execute (H := write_fault_host) mock.JSON_stringify (mock.JSON_parse []) false
         (js "echo") JNull index.unknown_context write_fault_world)
    = [Ev (wasm_alloc 4) (Ret (RNum 16));
       Ev (wasm_write_string 16 (js "echo")) (Throw mock.fault)].
Proof.
  split; [discriminate |]. split; [reflexivity |]. split; [reflexivity |].
  split; [reflexivity |].
  exact (f_equal evs
           (execute_write_fault_releases_nothing write_fault_host mock.JSON_stringify
              (mock.JSON_parse []) false (js "echo") JNull index.unknown_context
              write_fault_world (Some (js "null"))
              (Some (mock.stringify index.unknown_context)) 16 mock.fault
              (mock.MkState 20 ∅ 0 false [] []) (mock.MkState 20 ∅ 0 false [] [])
              ltac:(discriminate) eq_refl eq_refl eq_refl eq_refl)).
Defined.

(** ** The fire-and-forget call *)

Lemma stringToPtr_json_emits {H : HostImpl} (P : event -> Prop)
    (x : option jsstring) :
  (forall e, is_arena_write e = true -> P e) ->
  emits (S := World H) P (host.stringToPtr_json x).
Proof.
  intros HP. destruct x; cbn; [apply stringToPtr_emits; exact HP | apply emits_throw].
Qed.

(** X14: [executeAsync] hands its buffers over to the host: it makes no
    release call and no blocking call, and the cast is the last foreign
    call of a run that returns, and the only cast of any run. *)
Theorem executeAsync_hands_buffers_over (H : HostImpl)
    (JSON_stringify : jsval -> outcome (option jsstring))
    (actionName : jsstring) (params context : jsval) (w : World H) :
  let r := host.executeAsync JSON_stringify actionName params context w in
  Forall (fun e => is_dealloc e = false /\ is_host_call e = false) (evs r) /\
  (length (List.filter is_cast (evs r)) <= 1)%nat /\
  (out r = Ret tt -> exists pre c, evs r = pre ++ [c] /\ is_cast c = true).
Proof.
  cbv zeta. split.
  - assert (Hemits : emits (fun e => is_dealloc e = false /\ is_host_call e = false)
                       (host.executeAsync (H := H) JSON_stringify actionName params
                          context)).
    { unfold host.executeAsync. emits_auto;
        try (apply stringToPtr_emits || apply stringToPtr_json_emits);
        intros [[] ?| |]; cbn; try discriminate; auto. }
    apply Hemits.
  - assert (Hquiet : forall e, is_arena_write e = true -> is_cast e = false)
      by (intros [[] ?| |]; cbn; try discriminate; auto).
    unfold host.executeAsync.
    destruct (JSON_stringify (coalesce params JNull)) as [paramsJSON | e |];
      [| run; split; [cbn; lia | discriminate] ..].
    destruct (JSON_stringify context) as [contextJSON | e |];
      [| run; split; [cbn; lia | discriminate] ..].
    run.
    pose proof (stringToPtr_emits (fun e => is_cast e = false) actionName Hquiet w) as F1.
    destruct (memory.stringToPtr actionName w) as [[a | e |] w1 t1];
      cbn in F1 |- *; rewrite ?app_nil_r;
      try (rewrite (Forall_filter_nil _ _ F1); split; [cbn; lia | discriminate]).
    run.
    pose proof (stringToPtr_json_emits (fun e => is_cast e = false) paramsJSON Hquiet w1)
      as F2.
    destruct (host.stringToPtr_json paramsJSON w1) as [[p | e |] w2 t2];
      cbn in F2 |- *; rewrite ?app_nil_r;
      try (rewrite List.filter_app, (Forall_filter_nil _ _ F1),
             (Forall_filter_nil _ _ F2); split; [cbn; lia | discriminate]).
    run.
    pose proof (stringToPtr_json_emits (fun e => is_cast e = false) contextJSON Hquiet w2)
      as F3.
    destruct (host.stringToPtr_json contextJSON w2) as [[c | e |] w3 t3];
      cbn in F3 |- *; rewrite ?app_nil_r;
      try (rewrite !List.filter_app, (Forall_filter_nil _ _ F1),
             (Forall_filter_nil _ _ F2), (Forall_filter_nil _ _ F3);
           split; [cbn; lia | discriminate]).
    run.
    rewrite !List.filter_app, (Forall_filter_nil _ _ F1), (Forall_filter_nil _ _ F2),
      (Forall_filter_nil _ _ F3).
    split; [cbn; lia |]. intros _.
    eexists (t1 ++ t2 ++ t3), _. rewrite <- !app_assoc. split; reflexivity.
Qed.

Lemma executeAsync_hands_buffers_over_witness :
  out (host.executeAsync (H := demo_host) mock.JSON_stringify (js "__done__") JNull
         index.unknown_context bare_world) = Ret tt /\
  exists pre c,
    evs (host.executeAsync (H := demo_host) mock.JSON_stringify (js "__done__") JNull
           index.unknown_context bare_world) = pre ++ [c] /\
    is_cast c = true.
Proof.
  assert (Hout : out (host.executeAsync (H := demo_host) mock.JSON_stringify
                        (js "__done__") JNull index.unknown_context bare_world) = Ret tt)
    by (vm_compute; reflexivity).
  split; [exact Hout |].
  exact (proj2 (proj2 (executeAsync_hands_buffers_over demo_host mock.JSON_stringify
                         (js "__done__") JNull index.unknown_context bare_world)) Hout).
Defined.

(** ** A call that unwinds *)

Section unwind_facts.
Context {H : HostImpl}.
Variable JSON_parse : jsstring -> outcome jsval.

Lemma regime_step_unwinds (ASYNC_BUILD : bool) (s : host.param_frame * World H)
    (e : event) :
  let g := host.regime_step JSON_parse ASYNC_BUILD s in
  In e (evs g) -> is_unwind e = true ->
  out g = Hang /\ List.filter is_dealloc (evs g) = [].
Proof.
  cbv zeta. destruct s as [f w]. unfold host.regime_step.
  destruct ASYNC_BUILD.
  - unfold host.execute_asyncify, host.read_staged_response, host.release_result,
      host.release, memory.readBufferSlice, memory.deallocate.
    explore H; intros Hin Hun; which_event; subst; cbn in Hun; try discriminate;
      split; reflexivity.
  - unfold host.execute_synchronous, host.fetch_result, host.release_result,
      host.release, memory.readBufferSlice, memory.deallocate, memory.allocate.
    explore H; intros Hin Hun; which_event; subst; cbn in Hun; try discriminate;
      split; reflexivity.
Qed.

End unwind_facts.

(** X15: When the blocking call of the host does not return, as on the
    entry that unwinds, [execute] does not come back either, and its
    run holds no release call: the [finally] block has not run. *)
Theorem execute_unwinds_without_release (H : HostImpl)
    (JSON_stringify : jsval -> outcome (option jsstring))
    (JSON_parse : jsstring -> outcome jsval) (ASYNC_BUILD : bool)
    (actionName : jsstring) (params context : jsval) (w : World H) (e : event) :
  let r := host.execute JSON_stringify JSON_parse ASYNC_BUILD actionName params context w in
  In e (evs r) -> is_unwind e = true ->
  out r = Hang /\ List.filter is_dealloc (evs r) = [].
Proof.
  cbv zeta. intros Hin Hun.
  pose proof (execute_evs JSON_stringify JSON_parse ASYNC_BUILD actionName params
                context w) as Hevs.
  pose proof (execute_body_evs JSON_stringify JSON_parse ASYNC_BUILD actionName params
                context (frame0, w)) as Hbody.
  pose proof (marshal_emits JSON_stringify (fun x => is_unwind x = false) actionName params
                context ltac:(intros [[] ?| |]; cbn; try discriminate; auto) (frame0, w))
    as Hm.
  pose proof (marshal_emits JSON_stringify (fun x => is_dealloc x = false) actionName params
                context ltac:(intros [[] ?| |]; cbn; try discriminate; auto) (frame0, w))
    as Hmd.
  cbv zeta in Hevs, Hbody.
  set (r := host.execute JSON_stringify JSON_parse ASYNC_BUILD actionName params
              context w) in *.
  set (b := host.execute_body JSON_stringify JSON_parse ASYNC_BUILD actionName params
              context (frame0, w)) in *.
  set (m := host.marshal JSON_stringify actionName params context (frame0, w)) in *.
  pose proof (execute_finally_emits (fun x => is_unwind x = false)
                ltac:(intros; reflexivity) (st b)) as Hfin.
  assert (Hnot : forall t, Forall (fun x => is_unwind x = false) t -> ~ In e t).
  { intros t Ht. apply (Forall_not_In _ _ _ Ht). congruence. }
  assert (Hinb : In e (evs b)).
  { destruct Hevs as [(_ & _ & E) | (_ & E)]; rewrite E in Hin; [exact Hin |].
    apply in_app_iff in Hin as [Hin | Hin]; [exact Hin |].
    destruct (Hnot _ Hfin Hin). }
  destruct Hbody as [(Em & Eout & Est & Eevs) | (_ & _ & Eevs & _)].
  2: { rewrite Eevs in Hinb. destruct (Hnot _ Hm Hinb). }
  rewrite Eevs in Hinb. apply in_app_iff in Hinb as [Hinb | Hinb].
  { destruct (Hnot _ Hm Hinb). }
  destruct (regime_step_unwinds JSON_parse ASYNC_BUILD (st m) e Hinb Hun) as [Hg Hgd].
  destruct Hevs as [(Ehang & Er & Eev) | (Hne & _)].
  - split; [exact Er |].
    rewrite Eev, Eevs, List.filter_app, (Forall_filter_nil _ _ Hmd), Hgd. reflexivity.
  - exfalso. apply Hne. rewrite Eout. exact Hg.
Qed.

Lemma execute_unwinds_without_release_witness :
  In (Ev (host_call 16 4 20 4 24 36) Hang) (evs first_entry) /\
  is_unwind (Ev (host_call 16 4 20 4 24 36) Hang) = true /\
  out first_entry = Hang /\ List.filter is_dealloc (evs first_entry) = [].
Proof.
  assert (Hin : In (Ev (host_call 16 4 20 4 24 36) Hang) (evs first_entry))
    by (vm_compute; auto 20).
  split; [exact Hin |]. split; [reflexivity |].
  exact (execute_unwinds_without_release demo_host mock.JSON_stringify
           (mock.JSON_parse [(ok_text, ok_value)]) true (js "echo") JNull
           index.unknown_context (mock.start_asynchronous ok_text) _ Hin eq_refl).
Defined.

(** ** Requests *)

(** X16: The request built from what the host sends: its data is the empty
    string when the host sends none; [parse()] fails with ['no data to
    parse'] on data that is absent, empty or otherwise falsy, before
    [JSON.parse] is called; it returns what [JSON.parse] returns; and
    it wraps the message of what [JSON.parse] throws. *)
Theorem Request_parse_outcomes (JSON_parse : jsstring -> outcome jsval)
    (ToString : jsval -> jsstring) (S : Type) (fields : list (jsstring * jsval))
    (s : S) :
  let data := lookup_field (js "data") fields in
  exists request,
    index.new_Request (JObj fields) s = MkRun (Ret request) s [] /\
    index.Request_data request = coalesce data (JStr []) /\
    (truthy data = false ->
     index.Request_parse JSON_parse ToString request s = MkRun (Throw no_data_error) s []) /\
    (truthy data = true ->
     forall v, JSON_parse (ToString data) = Ret v ->
     index.Request_parse JSON_parse ToString request s = MkRun (Ret v) s []) /\
    (truthy data = true ->
     forall e message,
       JSON_parse (ToString data) = Throw e ->
       index.get_prop e (js "message") = Ret message ->
       index.Request_parse JSON_parse ToString request s
         = MkRun (Throw (parse_failure ToString message)) s []).
Proof.
  cbv zeta. unfold index.new_Request. cbn [index.get_prop].
  set (data := lookup_field (js "data") fields).
  exists (index.MkRequest (lookup_field (js "context") fields)
            (lookup_field (js "headers") fields) (coalesce data (JStr []))).
  assert (Hraw : truthy (coalesce data (JStr [])) = truthy data)
    by (unfold coalesce; destruct data; reflexivity).
  assert (Hsame : truthy data = true -> coalesce data (JStr []) = data)
    by (unfold coalesce; destruct data; cbn; congruence).
  split; [run; reflexivity |]. split; [reflexivity |].
  unfold index.Request_parse. cbn [index.rawData]. rewrite Hraw.
  split; [| split].
  - intros ->. reflexivity.
  - intros Ht v Hv. rewrite Ht, (Hsame Ht). cbn [negb]. run. rewrite Hv. reflexivity.
  - intros Ht e message He Hm. rewrite Ht, (Hsame Ht). cbn [negb]. run.
    rewrite He. run. rewrite Hm. run. reflexivity.
Qed.

Lemma Request_parse_outcomes_witness :
  truthy (lookup_field (js "data") request_without_data) = false /\
  exists request,
    index.new_Request (S := unit) (JObj request_without_data) tt = MkRun (Ret request) tt [] /\
    index.Request_data request = JStr [] /\
    index.Request_parse (mock.JSON_parse []) (fun _ => []) request tt
      = MkRun (Throw no_data_error) tt [].
Proof.
  split; [reflexivity |].
  destruct (Request_parse_outcomes (mock.JSON_parse []) (fun _ => []) unit
              request_without_data tt) as (request & Hnew & Hdata & Hnone & _).
  exists request. split; [exact Hnew |]. split; [exact Hdata |].
  exact (Hnone eq_refl).
Defined.

(** ** The entry-point driver: the completion signal *)

Lemma prepend_prepend {S A} (t1 t2 : list event) (r : Run S A) :
  prepend t1 (prepend t2 r) = prepend (t1 ++ t2) r.
Proof. destruct r. cbn. rewrite app_assoc. reflexivity. Qed.

Section signal_facts.
Context {H : HostImpl}.
Variable JSON_stringify : jsval -> outcome (option jsstring).
Variable JSON_parse : jsstring -> outcome jsval.
Variable ToString : jsval -> jsstring.
Variable USER_SCRIPT_BUNDLE : option jsstring.

(** A request object that was read has its three properties. *)
Lemma new_Request_of_context {S} (req context : jsval) (s : S) :
  index.get_prop req (js "context") = Ret context ->
  exists request, index.new_Request req s = MkRun (Ret request) s [].
Proof.
  intros Hc. unfold index.new_Request. rewrite Hc.
  destruct req; try discriminate; cbn [index.get_prop]; run; eexists; reflexivity.
Qed.

(** The [try] block of the synchronous build, up to the promise of the
    handler. *)
Lemma handle_try_synchronous (handler : index.Handler) (w w1 w2 : World H)
    (text : jsstring) (req context : jsval) (request : index.Request)
    (p : promise) (t1 t2 : list event) :
  driver_input H JSON_stringify w = MkRun (Ret (Some text)) w1 t1 ->
  index.no_text (Some text) = false ->
  JSON_parse text = Ret req ->
  index.get_prop req (js "context") = Ret context ->
  index.new_Request req (context, w1) = MkRun (Ret request) (context, w1) [] ->
  handler request w1 = MkRun (Ret p) w2 t2 ->
  driver_try H JSON_stringify JSON_parse ToString false USER_SCRIPT_BUNDLE handler
    (JUndefined, w)
  = prepend (t1 ++ t2)
      (and_then
         (fun result =>
            bind (lift (index.returnSuccess (host.executeAsync JSON_stringify)
                          result context))
                 (fun _ => ret JUndefined))
         (await p (context, w2))).
Proof.
  intros Hin Htext Hparse Hc Hreq Hh. unfold index.handle_try.
  rewrite bind_eq, lift_eq. cbn [fst snd]. rewrite Hin. cbn [add_locals and_then].
  rewrite Htext. unfold index.text_of. run. rewrite Hparse. run. rewrite Hc. run.
  rewrite Hreq. run. rewrite Hh. cbn [add_locals and_then prepend].
  rewrite !prepend_nil, bind_eq. apply prepend_prepend.
Qed.

(** The signal that ends a run: the cast of ['__done__'] with the
    response and the context, after the events [t0]. *)
Lemma signal_sent (t0 : list event) (response context : jsval)
    (paramsText contextText : jsstring) (c : jsval) (w : World H) :
  host_accepts H ->
  JSON_stringify (coalesce response JNull) = Ret (Some paramsText) ->
  JSON_stringify context = Ret (Some contextText) ->
  let r := prepend t0
             (bind (lift (host.executeAsync JSON_stringify (js "__done__") response context))
                   (fun _ => ret JUndefined) (c, w)) in
  out r = Ret JUndefined /\ done_cast H (evs r) paramsText contextText.
Proof.
  intros Hacc Hp Hc. cbv zeta.
  destruct (executeAsync_sends JSON_stringify response context paramsText contextText w
              Hacc Hp Hc) as [Hout Hcast].
  rewrite bind_eq, lift_eq. cbn [fst snd].
  destruct (host.executeAsync JSON_stringify (js "__done__") response context w)
    as [o w' t]. cbn in Hout. subst o. cbn. rewrite app_nil_r.
  split; [reflexivity | apply done_cast_prepend, Hcast].
Qed.

End signal_facts.

(** X17: In the synchronous build the driver reports what the handler's
    promise settles to, with the context of the request: a promise
    fulfilled with [v] as the response [{ data: v, errors: [], ok: true }],
    a promise rejected with [e] as the response
    [{ data: null, errors: [e.message], ok: false }]. In both cases the
    driver ends normally and the cast of ['__done__'] is its last
    foreign call. *)
Theorem handle_reports_handler_outcome (H : HostImpl)
    (JSON_stringify : jsval -> outcome (option jsstring))
    (JSON_parse : jsstring -> outcome jsval) (ToString : jsval -> jsstring)
    (IS_WORKER_BUILD : option bool) (USER_SCRIPT_BUNDLE : option jsstring)
    (handler : index.Handler) (w w1 w2 : World H) (text : jsstring)
    (req context : jsval) (request : index.Request) (p : promise)
    (t1 t2 : list event) (contextText : jsstring) :
  IS_WORKER_BUILD <> Some true ->
  host_accepts H ->
  driver_input H JSON_stringify w = MkRun (Ret (Some text)) w1 t1 ->
  index.no_text (Some text) = false ->
  JSON_parse text = Ret req ->
  index.get_prop req (js "context") = Ret context ->
  nullish context = false ->
  JSON_stringify context = Ret (Some contextText) ->
  index.new_Request req (context, w1) = MkRun (Ret request) (context, w1) [] ->
  handler request w1 = MkRun (Ret p) w2 t2 ->
  let r := driver H JSON_stringify JSON_parse ToString IS_WORKER_BUILD false
             USER_SCRIPT_BUNDLE handler w in
  (forall v paramsText,
     p = Fulfilled v ->
     JSON_stringify
       (JObj [(js "data", v); (js "errors", JArr []); (js "ok", JBool true)])
       = Ret (Some paramsText) ->
     out r = Ret JUndefined /\ done_cast H (evs r) paramsText contextText) /\
  (forall e message paramsText,
     p = Rejected e ->
     index.get_prop e (js "message") = Ret message ->
     JSON_stringify
       (JObj [(js "data", JNull); (js "errors", JArr [message]); (js "ok", JBool false)])
       = Ret (Some paramsText) ->
     out r = Ret JUndefined /\ done_cast H (evs r) paramsText contextText).
Proof.
  intros Hbuild Hacc Hin Htext Hparse Hc Hnull Hctx Hreq Hh. cbv zeta.
  pose proof (handle_try_synchronous JSON_stringify JSON_parse ToString
                USER_SCRIPT_BUNDLE handler w w1 w2 text req context request p t1 t2
                Hin Htext Hparse Hc Hreq Hh) as Htry.
  assert (Hrun : driver H JSON_stringify JSON_parse ToString IS_WORKER_BUILD false
                   USER_SCRIPT_BUNDLE handler w
                 = drop_locals
                     (catch_after (index.handle_catch (host.executeAsync JSON_stringify))
                        (driver_try H JSON_stringify JSON_parse ToString false
                           USER_SCRIPT_BUNDLE handler (JUndefined, w)))).
  { unfold index.handle.
    destruct IS_WORKER_BUILD as [[|] |]; [contradiction | |];
      rewrite with_locals_eq, try_catch_eq; reflexivity. }
  rewrite Hrun, Htry. split.
  - intros v paramsText -> Hp. cbn [await ret and_then].
    unfold index.returnSuccess.
    destruct (signal_sent JSON_stringify ([] : list event) (index.success_response v)
                context paramsText contextText context w2 Hacc Hp Hctx)
      as [Hout Hcast].
    cbv zeta in Hout, Hcast. rewrite prepend_nil in Hout, Hcast.
    rewrite prepend_nil.
    destruct (bind (lift (host.executeAsync JSON_stringify (js "__done__")
                            (index.success_response v) context))
                   (fun _ => ret JUndefined) (context, w2)) as [o s t].
    cbn in Hout. subst o. cbn. split; [reflexivity | apply done_cast_prepend, Hcast].
  - intros e message paramsText -> Hm Hp. cbn [await throw and_then prepend catch_after].
    unfold index.handle_catch. rewrite bind_eq, Hm. cbn [of_outcome and_then].
    rewrite prepend_nil, bind_eq. cbn [get_locals and_then fst]. rewrite prepend_nil.
    unfold index.returnError, coalesce. rewrite Hnull.
    destruct (signal_sent JSON_stringify ([] : list event) (index.error_response message)
                context paramsText contextText context w2 Hacc Hp Hctx)
      as [Hout Hcast].
    cbv zeta in Hout, Hcast. rewrite prepend_nil in Hout, Hcast.
    destruct (bind (lift (host.executeAsync JSON_stringify (js "__done__")
                            (index.error_response message) context))
                   (fun _ => ret JUndefined) (context, w2)) as [o s t].
    cbn in Hout. subst o. cbn. rewrite app_nil_r.
    split; [reflexivity | apply done_cast_prepend, Hcast].
Qed.

Lemma handle_reports_handler_outcome_witness :
  driver_input demo_host mock.JSON_stringify request_world
    = MkRun (Ret (Some (mock.stringify demo_request))) request_read_world
        (evs (driver_input demo_host mock.JSON_stringify request_world)) /\
  index.new_Request demo_request (index.unknown_context, request_read_world)
    = MkRun (Ret demo_Request) (index.unknown_context, request_read_world) [] /\
  echo_handler demo_Request request_read_world
    = MkRun (Ret (Fulfilled (JStr (js "hello")))) request_read_world [] /\
  (out (demo_sync_driver echo_handler request_world) = Ret JUndefined /\
   done_cast demo_host (evs (demo_sync_driver echo_handler request_world))
     (mock.stringify
        (JObj [(js "data", JStr (js "hello")); (js "errors", JArr []);
               (js "ok", JBool true)]))
     (mock.stringify index.unknown_context)) /\
  failing_handler demo_Request request_read_world
    = MkRun (Ret (Rejected (Error (js "boom")))) request_read_world [] /\
  (out (demo_sync_driver failing_handler request_world) = Ret JUndefined /\
   done_cast demo_host (evs (demo_sync_driver failing_handler request_world))
     (mock.stringify
        (JObj [(js "data", JNull); (js "errors", JArr [JStr (js "boom")]);
               (js "ok", JBool false)]))
     (mock.stringify index.unknown_context)).
Proof.
  assert (Hin : driver_input demo_host mock.JSON_stringify request_world
                = MkRun (Ret (Some (mock.stringify demo_request))) request_read_world
                    (evs (driver_input demo_host mock.JSON_stringify request_world))).
  { unfold request_read_world.
    destruct (driver_input demo_host mock.JSON_stringify request_world) as [o s t] eqn:E.
    assert (Ho : out (driver_input demo_host mock.JSON_stringify request_world)
                 = Ret (Some (mock.stringify demo_request)))
      by (vm_compute; reflexivity).
    rewrite E in Ho. cbn in Ho. subst o. reflexivity. }
  assert (Hparse : mock.JSON_parse [(mock.stringify demo_request, demo_request)]
                     (mock.stringify demo_request) = Ret demo_request)
    by (vm_compute; reflexivity).
  split; [exact Hin |]. split; [reflexivity |]. split; [reflexivity |]. split.
  - exact (proj1 (handle_reports_handler_outcome demo_host mock.JSON_stringify
                    (mock.JSON_parse [(mock.stringify demo_request, demo_request)])
                    (fun _ => []) None None echo_handler request_world request_read_world
                    request_read_world (mock.stringify demo_request) demo_request
                    index.unknown_context demo_Request (Fulfilled (JStr (js "hello")))
                    (evs (driver_input demo_host mock.JSON_stringify request_world)) []
                    (mock.stringify index.unknown_context)
                    ltac:(discriminate) (mock_host_accepts 16) Hin eq_refl
                    Hparse eq_refl eq_refl eq_refl eq_refl eq_refl)
                 (JStr (js "hello"))
                 (mock.stringify
                    (JObj [(js "data", JStr (js "hello")); (js "errors", JArr []);
                           (js "ok", JBool true)]))
                 eq_refl eq_refl).
  - split; [reflexivity |].
    exact (proj2 (handle_reports_handler_outcome demo_host mock.JSON_stringify
                    (mock.JSON_parse [(mock.stringify demo_request, demo_request)])
                    (fun _ => []) None None failing_handler request_world
                    request_read_world request_read_world (mock.stringify demo_request)
                    demo_request index.unknown_context demo_Request
                    (Rejected (Error (js "boom")))
                    (evs (driver_input demo_host mock.JSON_stringify request_world)) []
                    (mock.stringify index.unknown_context)
                    ltac:(discriminate) (mock_host_accepts 16) Hin eq_refl
                    Hparse eq_refl eq_refl eq_refl eq_refl eq_refl)
                 (Error (js "boom")) (JStr (js "boom"))
                 (mock.stringify
                    (JObj [(js "data", JNull); (js "errors", JArr [JStr (js "boom")]);
                           (js "ok", JBool false)]))
                 eq_refl eq_refl eq_refl).
Defined.

(** ** The loader of the asynchronous build *)

Section loader_facts.
Context {H : HostImpl}.
Variable JSON_stringify : jsval -> outcome (option jsstring).
Variable JSON_parse : jsstring -> outcome jsval.
Variable ToString : jsval -> jsstring.



End loader_facts.



(** ** The wrapper and the driver of the worker bundle *)

(** X19: Whenever the wrapper comes back, by returning or by throwing, the
    global that held the channel is deleted. *)
Theorem main_handler_deletes_channel (H : HostImpl) (app : M (World H) unit)
    (w : World H) :
  out (build.main_handler app w) <> Hang ->
  promise_channel (st (build.main_handler app w)) = None.
Proof.
  rewrite main_handler_eq.
  destruct (app (installed w)) as [[[] | e |] s t]; cbn [and_then].
  - rewrite bind_eq. unfold build.channel_promise. cbn [and_then prepend].
    destruct (default None (channels s !! slot w)) as [[v | e |] |]; cbn; try reflexivity.
    intros Hne. contradiction.
  - cbn. reflexivity.
  - cbn. intros Hne. contradiction.
Qed.

(** X20: A delegated run ends as the promise of the handler settles: the
    driver places the promise in the channel that the wrapper installed,
    and the wrapper returns its value or throws its reason, and deletes
    the global. When the worker finds no payload, the driver places a
    rejected promise instead, and the wrapper throws that error. *)
Theorem delegated_run_settles (H : HostImpl)
    (JSON_stringify : jsval -> outcome (option jsstring))
    (JSON_parse : jsstring -> outcome jsval) (handler : index.Handler)
    (w w1 : World H) (inputText : option jsstring) (t1 : list event) :
  index.readInputFromHost JSON_stringify worker_override.getContext (installed w)
    = MkRun (Ret inputText) w1 t1 ->
  let r := build.main_handler (worker_application JSON_stringify JSON_parse handler) w in
  (forall text req request p w2 t2,
     inputText = Some text ->
     index.no_text (Some text) = false ->
     JSON_parse text = Ret req ->
     index.new_Request req w1 = MkRun (Ret request) w1 [] ->
     handler request w1 = MkRun (Ret p) w2 t2 ->
     promise_channel w2 = Some (slot w) ->
     r = awaited p (placed w2 (slot w) p) (t1 ++ t2)) /\
  (index.no_text inputText = true ->
   promise_channel w1 = Some (slot w) ->
   r = awaited (Rejected no_input_error) (placed w1 (slot w) (Rejected no_input_error)) t1).
Proof.
  intros Hin. cbv zeta. rewrite main_handler_eq. unfold worker_application, build.unawaited.
  split.
  - intros text req request p w2 t2 -> Htext Hparse Hreq Hh Hch.
    rewrite try_catch_eq, bind_eq.
    rewrite (handle_worker_run JSON_stringify JSON_parse handler (installed w) w1 w2 text
               req request p t1 t2 Hin Htext Hparse Hreq Hh), Hch.
    cbn [and_then catch_after ret prepend]. rewrite app_nil_r.
    rewrite bind_eq. unfold build.channel_promise. cbn [and_then channels with_channels].
    rewrite lookup_insert_eq. cbn [default].
    unfold awaited, placed. destruct p; cbn; rewrite ?app_nil_r; reflexivity.
  - intros Htext Hch.
    rewrite try_catch_eq, bind_eq. unfold index.handle_worker.
    rewrite bind_eq, Hin. cbn [and_then]. rewrite Htext.
    rewrite bind_eq. unfold index.get_promise_channel at 1. cbn [and_then].
    rewrite Hch, prepend_nil.
    rewrite bind_eq. unfold index.set_channel_promise.
    cbn [and_then prepend throw catch_after ret app].
    rewrite bind_eq. unfold build.channel_promise.
    cbn [and_then prepend channels with_channels].
    rewrite lookup_insert_eq. cbn [default await throw].
    unfold awaited, placed, no_input_error. cbn. rewrite ?app_nil_r. reflexivity.
Qed.

Lemma delegated_run_settles_witness :
  index.readInputFromHost mock.JSON_stringify worker_override.getContext
      (installed worker_world)
    = MkRun (Ret (Some (mock.stringify demo_request))) (installed worker_world) [] /\
  out (build.main_handler
         (worker_application mock.JSON_stringify
            (mock.JSON_parse [(mock.stringify demo_request, demo_request)]) echo_handler)
         worker_world) = Ret (JStr (js "hello")).
Proof.
  assert (Hin : index.readInputFromHost mock.JSON_stringify worker_override.getContext
                  (installed worker_world)
                = MkRun (Ret (Some (mock.stringify demo_request)))
                    (installed worker_world) []) by reflexivity.
  split; [exact Hin |].
  exact (f_equal out
           (proj1 (delegated_run_settles demo_host mock.JSON_stringify
                     (mock.JSON_parse [(mock.stringify demo_request, demo_request)])
                     echo_handler worker_world (installed worker_world)
                     (Some (mock.stringify demo_request)) [] Hin)
                  (mock.stringify demo_request) demo_request demo_Request
                  (Fulfilled (JStr (js "hello"))) (installed worker_world) []
                  eq_refl eq_refl ltac:(vm_compute; reflexivity) eq_refl eq_refl eq_refl)).
Defined.

Lemma main_handler_deletes_channel_witness :
  out (build.main_handler (demo_application failing_handler) worker_world) <> Hang /\
  promise_channel (st (build.main_handler (demo_application failing_handler) worker_world))
    = None.
Proof.
  assert (Hne : out (build.main_handler (demo_application failing_handler) worker_world)
                <> Hang) by (vm_compute; intros [=]).
  split; [exact Hne |].
  exact (main_handler_deletes_channel demo_host (demo_application failing_handler)
           worker_world Hne).
Defined.

(** ** The host calls of the worker bundle *)

Section worker_facts.
Variable randomUUID : nat -> jsstring.
Variable ToString : jsval -> jsstring.

(** The run of [execute] for a context that has its execution
    identifier: the request is registered under a new identifier and
    posted, and the promise is pending. *)
Lemma execute_run_posts (actionName params context request : jsval)
    (s : worker_host.Worker) :
  worker_host.hostRequest actionName params context = Ret request ->
  let p := fresh (dom (worker_host.promises s)) in
  let id := randomUUID (worker_host.uuid_calls s) in
  worker_host.execute randomUUID actionName params context s
    = MkRun (Ret p)
        (worker_host.MkWorker
           (<[id := p]> (worker_host.pendingHostRequests s))
           (<[p := Pending]> (worker_host.promises s))
           (worker_host.posted s ++ [host_request_message request id])
           (S (worker_host.uuid_calls s))) [].
Proof.
  intros Hreq. cbv zeta. unfold worker_host.execute.
  rewrite bind_eq. unfold worker_host.new_promise. cbn [and_then].
  rewrite bind_eq, try_catch_eq, bind_eq.
  unfold worker_host.crypto_randomUUID. cbn [and_then].
  rewrite bind_eq. unfold worker_host.pending_set. cbn [and_then].
  rewrite bind_eq, Hreq. unfold worker_host.postMessage.
  cbn. reflexivity.
Qed.

(** The listener on an answer to a request that is waiting. *)
Lemma on_message_settles (message response ok error : jsval) (id : jsstring)
    (p : loc) (s : worker_host.Worker) :
  answers_request message id response ->
  index.get_prop response (js "ok") = Ret ok ->
  index.get_prop response (js "error") = Ret error ->
  worker_host.pendingHostRequests s !! id = Some p ->
  worker_host.promises s !! p = Some Pending ->
  worker_host.on_message ToString message s
    = MkRun (Ret tt)
        (worker_host.MkWorker
           (delete id (worker_host.pendingHostRequests s))
           (<[p := settled_by ToString response ok error]> (worker_host.promises s))
           (worker_host.posted s) (worker_host.uuid_calls s)) [].
Proof.
  intros (Htype & Hid & Hresp) Hok Herr Hpending Hpromise.
  unfold worker_host.on_message.
  rewrite bind_eq, Htype. cbn [of_outcome and_then].
  change (is_text (JStr (js "host_response")) (js "host_response")) with true.
  cbn [negb]. rewrite prepend_nil, bind_eq, Hid. cbn [of_outcome and_then].
  rewrite prepend_nil, bind_eq. unfold worker_host.pending_get. cbn [and_then].
  rewrite Hpending, prepend_nil, bind_eq, Hresp. cbn [of_outcome and_then].
  rewrite prepend_nil, bind_eq, Hok. cbn [of_outcome and_then].
  rewrite prepend_nil, bind_eq. unfold settled_by.
  destruct (truthy ok); cbv iota.
  - rewrite bind_eq. cbn [of_outcome and_then]. rewrite prepend_nil.
    unfold worker_host.settle_promise. rewrite Hpromise. cbn [and_then].
    rewrite prepend_nil, bind_eq. cbn [of_outcome and_then].
    rewrite prepend_nil. reflexivity.
  - rewrite bind_eq. cbn [of_outcome and_then]. rewrite prepend_nil.
    rewrite bind_eq, Herr. cbn [of_outcome and_then]. rewrite prepend_nil.
    unfold worker_host.settle_promise. rewrite Hpromise. cbn [and_then].
    rewrite prepend_nil, bind_eq. cbn [of_outcome and_then].
    rewrite prepend_nil. reflexivity.
Qed.

End worker_facts.

(** X21: A request of the worker and its answer: [execute] registers the
    request under a new identifier, posts it, and returns a promise that
    is pending; the answer of the host with that identifier settles the
    promise, fulfilled with the response when the response is [ok] and
    rejected with its error otherwise, and removes the request, so that
    the same answer delivered again changes nothing. *)
Theorem execute_settles_on_answer (randomUUID : nat -> jsstring)
    (ToString : jsval -> jsstring)
    (actionName params context request message response ok error : jsval)
    (s : worker_host.Worker) :
  worker_host.hostRequest actionName params context = Ret request ->
  answers_request message (randomUUID (worker_host.uuid_calls s)) response ->
  index.get_prop response (js "ok") = Ret ok ->
  index.get_prop response (js "error") = Ret error ->
  let id := randomUUID (worker_host.uuid_calls s) in
  let r := worker_host.execute randomUUID actionName params context s in
  let r' := worker_host.on_message ToString message (st r) in
  exists p,
    out r = Ret p /\
    worker_host.promises (st r) !! p = Some Pending /\
    worker_host.posted (st r) = worker_host.posted s ++ [host_request_message request id] /\
    out r' = Ret tt /\
    worker_host.promises (st r') !! p = Some (settled_by ToString response ok error) /\
    worker_host.pendingHostRequests (st r') !! id = None /\
    worker_host.posted (st r') = worker_host.posted (st r) /\
    worker_host.on_message ToString message (st r') = MkRun (Ret tt) (st r') [].
Proof.
  intros Hreq Hanswer Hok Herr. cbv zeta.
  rewrite (execute_run_posts randomUUID actionName params context request s Hreq).
  cbn [out st].
  set (p := fresh (dom (worker_host.promises s))).
  set (id := randomUUID (worker_host.uuid_calls s)) in *.
  rewrite (on_message_settles ToString message response ok error id p);
    [| exact Hanswer | exact Hok | exact Herr | apply lookup_insert_eq ..].
  cbn [out st worker_host.promises worker_host.pendingHostRequests worker_host.posted].
  exists p. split; [reflexivity |]. split; [apply lookup_insert_eq |].
  split; [reflexivity |]. split; [reflexivity |]. split; [apply lookup_insert_eq |].
  split; [apply lookup_delete_eq |]. split; [reflexivity |].
  destruct Hanswer as (Htype & Hid & _).
  unfold worker_host.on_message. rewrite bind_eq, Htype. cbn [of_outcome and_then].
  change (is_text (JStr (js "host_response")) (js "host_response")) with true.
  cbn [negb]. rewrite prepend_nil, bind_eq, Hid. cbn [of_outcome and_then].
  rewrite prepend_nil, bind_eq. unfold worker_host.pending_get.
  cbn [and_then worker_host.pendingHostRequests].
  rewrite lookup_delete_eq. reflexivity.
Qed.

Lemma execute_settles_on_answer_witness :
  worker_host.hostRequest (JStr (js "echo")) JNull index.unknown_context
    = Ret (JObj [(js "context", index.unknown_context);
                 (js "executionId", JStr (js "unknown"));
                 (js "name", JStr (js "echo")); (js "params", JNull);
                 (js "type", JStr (js "hostRequest"))]) /\
  answers_request demo_answer (counting_uuid (worker_host.uuid_calls idle_worker)) ok_value /\
  index.get_prop ok_value (js "ok") = Ret (JBool true) /\
  index.get_prop ok_value (js "error") = Ret JUndefined /\
  exists p,
    out (worker_host.execute counting_uuid (JStr (js "echo")) JNull index.unknown_context
           idle_worker) = Ret p /\
    worker_host.promises
      (st (worker_host.on_message (fun _ => []) demo_answer
             (st (worker_host.execute counting_uuid (JStr (js "echo")) JNull
                    index.unknown_context idle_worker)))) !! p
      = Some (Fulfilled ok_value).
Proof.
  assert (Hreq : worker_host.hostRequest (JStr (js "echo")) JNull index.unknown_context
                 = Ret (JObj [(js "context", index.unknown_context);
                              (js "executionId", JStr (js "unknown"));
                              (js "name", JStr (js "echo")); (js "params", JNull);
                              (js "type", JStr (js "hostRequest"))])) by reflexivity.
  assert (Hanswer : answers_request demo_answer
                      (counting_uuid (worker_host.uuid_calls idle_worker)) ok_value)
    by (repeat split; reflexivity).
  split; [exact Hreq |]. split; [exact Hanswer |].
  split; [reflexivity |]. split; [reflexivity |].
  destruct (execute_settles_on_answer counting_uuid (fun _ => []) (JStr (js "echo")) JNull
              index.unknown_context _ demo_answer ok_value (JBool true) JUndefined
              idle_worker Hreq Hanswer eq_refl eq_refl)
    as (p & Hout & _ & _ & _ & Hsettled & _).
  exists p. split; [exact Hout | exact Hsettled].
Defined.

(** X22: The listener leaves the worker as it is on a message of another
    type, and on an answer whose identifier no request is waiting
    under. *)
Theorem on_message_ignores_strangers (ToString : jsval -> jsstring) (message : jsval)
    (s : worker_host.Worker) :
  (forall type, index.get_prop message (js "type") = Ret type ->
                is_text type (js "host_response") = false ->
                worker_host.on_message ToString message s = MkRun (Ret tt) s []) /\
  (forall requestId,
     index.get_prop message (js "type") = Ret (JStr (js "host_response")) ->
     index.get_prop message (js "requestId") = Ret requestId ->
     (forall id, requestId = JStr id -> worker_host.pendingHostRequests s !! id = None) ->
     worker_host.on_message ToString message s = MkRun (Ret tt) s []).
Proof.
  unfold worker_host.on_message. split.
  - intros type Htype Hother. rewrite bind_eq, Htype. cbn [of_outcome and_then].
    rewrite Hother. reflexivity.
  - intros requestId Htype Hid Hnone. rewrite bind_eq, Htype. cbn [of_outcome and_then].
    change (is_text (JStr (js "host_response")) (js "host_response")) with true.
    cbn [negb]. rewrite prepend_nil, bind_eq, Hid. cbn [of_outcome and_then].
    rewrite prepend_nil, bind_eq. unfold worker_host.pending_get. cbn [and_then].
    destruct requestId; try reflexivity.
    rewrite (Hnone _ eq_refl). reflexivity.
Qed.

Lemma on_message_ignores_strangers_witness :
  index.get_prop demo_answer (js "type") = Ret (JStr (js "host_response")) /\
  index.get_prop demo_answer (js "requestId") = Ret (JStr (counting_uuid 0)) /\
  (forall id, JStr (counting_uuid 0) = JStr id ->
              worker_host.pendingHostRequests idle_worker !! id = None) /\
  worker_host.on_message (fun _ => []) demo_answer idle_worker
    = MkRun (Ret tt) idle_worker [].
Proof.
  assert (Hnone : forall id, JStr (counting_uuid 0) = JStr id ->
                             worker_host.pendingHostRequests idle_worker !! id = None)
    by (intros id _; apply lookup_empty).
  split; [reflexivity |]. split; [reflexivity |]. split; [exact Hnone |].
  exact (proj2 (on_message_ignores_strangers (fun _ => []) demo_answer idle_worker)
           (JStr (counting_uuid 0)) eq_refl eq_refl Hnone).
Defined.

(** X23: [execute] with a context that has no [logic]: reading the
    execution identifier throws inside the executor, so the promise is
    rejected with that error and nothing is posted; the request stays
    registered under its identifier. [executeAsync] throws the error
    itself and posts nothing. *)
Theorem execute_rejects_without_identifier (randomUUID : nat -> jsstring)
    (actionName params context e : jsval) (s : worker_host.Worker) :
  worker_host.hostRequest actionName params context = Throw e ->
  let r := worker_host.execute randomUUID actionName params context s in
  (exists p,
     out r = Ret p /\
     worker_host.promises (st r) !! p = Some (Rejected e) /\
     worker_host.posted (st r) = worker_host.posted s /\
     worker_host.pendingHostRequests (st r)
       !! randomUUID (worker_host.uuid_calls s) = Some p) /\
  worker_host.executeAsync actionName params context s = MkRun (Throw e) s [].
Proof.
  intros Hreq. cbv zeta. split.
  - exists (fresh (dom (worker_host.promises s))).
    unfold worker_host.execute.
    rewrite bind_eq. unfold worker_host.new_promise. cbn [and_then].
    rewrite bind_eq, try_catch_eq, bind_eq.
    unfold worker_host.crypto_randomUUID. cbn [and_then].
    rewrite bind_eq. unfold worker_host.pending_set. cbn [and_then].
    rewrite bind_eq, Hreq. unfold worker_host.settle_promise.
    unfold worker_host.with_promises, worker_host.with_pending.
    cbn [of_outcome and_then prepend catch_after app worker_host.promises
         worker_host.pendingHostRequests worker_host.posted worker_host.uuid_calls].
    rewrite lookup_insert_eq.
    cbn. split; [reflexivity |]. split; [apply lookup_insert_eq |].
    split; [reflexivity | apply lookup_insert_eq].
  - unfold worker_host.executeAsync. rewrite bind_eq, Hreq. reflexivity.
Qed.

Lemma execute_rejects_without_identifier_witness :
  (exists e, worker_host.hostRequest (JStr (js "echo")) JNull (JObj []) = Throw e) /\
  exists p e,
    out (worker_host.execute counting_uuid (JStr (js "echo")) JNull (JObj []) idle_worker)
      = Ret p /\
    worker_host.promises
      (st (worker_host.execute counting_uuid (JStr (js "echo")) JNull (JObj [])
             idle_worker)) !! p = Some (Rejected e).
Proof.
  assert (Hreq : worker_host.hostRequest (JStr (js "echo")) JNull (JObj [])
                 = Throw (TypeError (js "cannot read property '" ++ js "execution_id"
                                       ++ js "' of undefined"))) by reflexivity.
  split; [eexists; exact Hreq |].
  destruct (proj1 (execute_rejects_without_identifier counting_uuid (JStr (js "echo"))
                     JNull (JObj []) _ idle_worker Hreq))
    as (p & Hout & Hrej & _).
  exists p. eexists. split; [exact Hout | exact Hrej].
Defined.

(** X24: Two requests in flight do not cross: when the identifiers handed
    out for them differ, the answer to the second request settles the
    promise of the second and leaves the first request waiting, its
    promise pending. *)
Theorem concurrent_requests_settle_apart (randomUUID : nat -> jsstring)
    (ToString : jsval -> jsstring)
    (name1 params1 context1 request1 name2 params2 context2 request2 : jsval)
    (message response ok error : jsval) (s : worker_host.Worker) :
  let id1 := randomUUID (worker_host.uuid_calls s) in
  let id2 := randomUUID (S (worker_host.uuid_calls s)) in
  id1 <> id2 ->
  worker_host.hostRequest name1 params1 context1 = Ret request1 ->
  worker_host.hostRequest name2 params2 context2 = Ret request2 ->
  answers_request message id2 response ->
  index.get_prop response (js "ok") = Ret ok ->
  index.get_prop response (js "error") = Ret error ->
  let r1 := worker_host.execute randomUUID name1 params1 context1 s in
  let r2 := worker_host.execute randomUUID name2 params2 context2 (st r1) in
  let s' := st (worker_host.on_message ToString message (st r2)) in
  exists p1 p2,
    out r1 = Ret p1 /\ out r2 = Ret p2 /\ p1 <> p2 /\
    worker_host.promises s' !! p2 = Some (settled_by ToString response ok error) /\
    worker_host.promises s' !! p1 = Some Pending /\
    worker_host.pendingHostRequests s' !! id1 = Some p1 /\
    worker_host.pendingHostRequests s' !! id2 = None.
Proof.
  cbv zeta. intros Hids Hreq1 Hreq2 Hanswer Hok Herr.
  rewrite (execute_run_posts randomUUID name1 params1 context1 request1 s Hreq1).
  cbn [out st].
  rewrite (execute_run_posts randomUUID name2 params2 context2 request2 _ Hreq2).
  cbn [out st worker_host.promises worker_host.pendingHostRequests worker_host.posted
       worker_host.uuid_calls].
  set (p1 := fresh (dom (worker_host.promises s))).
  set (p2 := fresh (dom (<[p1 := Pending]> (worker_host.promises s)))).
  set (id1 := randomUUID (worker_host.uuid_calls s)) in *.
  set (id2 := randomUUID (S (worker_host.uuid_calls s))) in *.
  assert (Hp : p1 <> p2).
  { intros Heq. pose proof (is_fresh (dom (<[p1 := Pending]> (worker_host.promises s))))
      as Hfresh. fold p2 in Hfresh. rewrite <- Heq in Hfresh.
    apply Hfresh. rewrite dom_insert. set_solver. }
  rewrite (on_message_settles ToString message response ok error id2 p2);
    [| exact Hanswer | exact Hok | exact Herr | apply lookup_insert_eq ..].
  cbn [out st worker_host.promises worker_host.pendingHostRequests].
  exists p1, p2. split; [reflexivity |]. split; [reflexivity |]. split; [exact Hp |].
  split; [apply lookup_insert_eq |].
  split; [rewrite lookup_insert_ne by congruence; rewrite lookup_insert_ne by congruence;
          apply lookup_insert_eq |].
  split; [| apply lookup_delete_eq].
  rewrite lookup_delete_ne by congruence. rewrite lookup_insert_ne by congruence.
  apply lookup_insert_eq.
Qed.

Lemma concurrent_requests_settle_apart_witness :
  counting_uuid (worker_host.uuid_calls idle_worker)
    <> counting_uuid (S (worker_host.uuid_calls idle_worker)) /\
  exists p1 p2,
    out (worker_host.execute counting_uuid (JStr (js "first")) JNull index.unknown_context
           idle_worker) = Ret p1 /\
    out (worker_host.execute counting_uuid (JStr (js "second")) JNull
           index.unknown_context
           (st (worker_host.execute counting_uuid (JStr (js "first")) JNull
                  index.unknown_context idle_worker))) = Ret p2 /\
    p1 <> p2.
Proof.
  assert (Hids : counting_uuid (worker_host.uuid_calls idle_worker)
                 <> counting_uuid (S (worker_host.uuid_calls idle_worker)))
    by (vm_compute; intros [=]).
  split; [exact Hids |].
  destruct (concurrent_requests_settle_apart counting_uuid (fun _ => [])
              (JStr (js "first")) JNull index.unknown_context _
              (JStr (js "second")) JNull index.unknown_context _
              (JObj [(js "type", JStr (js "host_response"));
                     (js "requestId", JStr (counting_uuid 1));
                     (js "response", ok_value)])
              ok_value (JBool true) JUndefined idle_worker Hids eq_refl eq_refl
              ltac:(repeat split; reflexivity) eq_refl eq_refl)
    as (p1 & p2 & H1 & H2 & Hne & _).
  exists p1, p2. split; [exact H1 |]. split; [exact H2 | exact Hne].
Defined.

(** ** The service modules *)

(** *** White space *)

Lemma trimStart_white (ws s : jsstring) : white ws -> trimStart (ws ++ s) = trimStart s.
Proof.
  induction 1 as [| u ws Hu _ IH]; [reflexivity |]. cbn. rewrite Hu. exact IH.
Qed.

Lemma trimStart_all_white (ws : jsstring) : white ws -> trimStart ws = [].
Proof.
  intros Hws. rewrite <- (app_nil_r ws). rewrite trimStart_white by exact Hws. reflexivity.
Qed.

(** A string of white space trims to the empty string. *)
Lemma trim_white (ws : jsstring) : white ws -> trim ws = [].
Proof.
  intros Hws. unfold trim. rewrite (trimStart_all_white ws Hws). reflexivity.
Qed.

(** Trimming a string from the start leaves a suffix of it. *)
Lemma trimStart_suffix (s : jsstring) : exists pre, s = pre ++ trimStart s.
Proof.
  induction s as [| u s [pre IH]]; [exists []; reflexivity |].
  cbn. destruct (is_white_space u).
  - exists (u :: pre). cbn. f_equal. exact IH.
  - exists []. reflexivity.
Qed.

(** Trimming keeps a word that comes first after white space. *)
Lemma trim_keeps_word (ws word rest : jsstring) (u : Z) :
  white ws ->
  is_white_space u = false ->
  (forall v, last word = Some v -> is_white_space v = false) ->
  exists rest', trim (ws ++ (u :: word) ++ rest) = (u :: word) ++ rest'.
Proof.
  intros Hws Hu Hlast. unfold trim.
  rewrite (trimStart_white ws _ Hws).
  assert (Hstart : trimStart ((u :: word) ++ rest) = (u :: word) ++ rest)
    by (cbn; rewrite Hu; reflexivity).
  rewrite Hstart.
  destruct (trimStart_suffix (rev ((u :: word) ++ rest))) as [pre Hpre].
  assert (Hnon : forall x y, trimStart (x ++ y) = trimStart y \/
                             exists x', trimStart (x ++ y) = x' ++ y).
  { induction x as [| a x IHx]; intros y; [left; reflexivity |].
    cbn. destruct (is_white_space a); [apply IHx |].
    right. exists (a :: x). reflexivity. }
  rewrite rev_app_distr.
  set (tail := rev (u :: word)).
  assert (Htail : trimStart tail = tail).
  { subst tail. destruct (rev (u :: word)) as [| v t] eqn:E; [reflexivity |].
    cbn. replace (is_white_space v) with false; [reflexivity |].
    symmetry.
    assert (Hl : last (u :: word) = Some v).
    { rewrite <- (rev_involutive (u :: word)), E. cbn. rewrite last_snoc. reflexivity. }
    destruct word as [| w word]; [cbn in Hl; injection Hl as <-; exact Hu |].
    apply Hlast. exact Hl. }
  destruct (Hnon (rev rest) tail) as [E | [x' E]]; rewrite E.
  - rewrite Htail. subst tail. rewrite rev_involutive. exists []. rewrite app_nil_r.
    reflexivity.
  - rewrite rev_app_distr. subst tail. rewrite rev_involutive. exists (rev x').
    reflexivity.
Qed.

Lemma startsWith_app (word rest : jsstring) : startsWith (word ++ rest) word = true.
Proof.
  induction word as [| u word IH]; [destruct rest; reflexivity |].
  cbn. rewrite Z.eqb_refl. exact IH.
Qed.

(** *** GraphQL *)

(** X25: [query] and [mutate] sort the texts between them: a text whose
    first code units after white space spell [mutation] is refused by
    [query], before any call of the host, and passed on to [execute] by
    [mutate]; and every text is passed on by one of the two and refused
    by the other. *)
Theorem query_and_mutate_sort_texts {S : Type}
    (hostExecute : jsstring -> jsval -> jsval -> M S jsval)
    (ToString : jsval -> jsstring)
    (JSON_stringify_indented : jsval -> outcome (option jsstring))
    (console_log : jsstring -> option jsstring -> M S unit)
    (variables context : jsval) (s : S) :
  let execute := graphql.execute hostExecute ToString JSON_stringify_indented console_log in
  let query := graphql.query hostExecute ToString JSON_stringify_indented console_log in
  let mutate := graphql.mutate hostExecute ToString JSON_stringify_indented console_log in
  (forall ws rest,
     white ws ->
     query (ws ++ js "mutation" ++ rest) variables context s
       = MkRun (Throw mutation_passed_error) s [] /\
     mutate (ws ++ js "mutation" ++ rest) variables context s
       = execute (ws ++ js "mutation" ++ rest) variables context s) /\
  (forall text,
     (mutate text variables context s = execute text variables context s /\
      query text variables context s = MkRun (Throw mutation_passed_error) s []) \/
     (query text variables context s = execute text variables context s /\
      mutate text variables context s = MkRun (Throw query_passed_error) s [])).
Proof.
  cbv zeta. unfold graphql.query, graphql.mutate. split.
  - intros ws rest Hws.
    change (js "mutation") with (109 :: js "utation").
    destruct (trim_keeps_word ws (js "utation") rest 109 Hws eq_refl) as [rest' ->].
    { intros v Hv. vm_compute in Hv. injection Hv as <-. reflexivity. }
    change (109 :: js "utation") with (js "mutation").
    rewrite startsWith_app. split; reflexivity.
  - intros text. destruct (startsWith (trim text) (js "mutation")); [left | right];
      split; reflexivity.
Qed.

Lemma query_and_mutate_sort_texts_witness :
  white (js " ") /\
  graphql.query (S := unit) (fun _ _ _ => ret JNull) (fun _ => []) (fun _ => Ret None)
      (fun _ _ => ret tt) (js " " ++ js "mutation" ++ js " { save }") JNull JNull tt
    = MkRun (Throw mutation_passed_error) tt [].
Proof.
  assert (Hws : white (js " ")) by (repeat constructor).
  split; [exact Hws |].
  exact (proj1 (proj1 (query_and_mutate_sort_texts (S := unit) (fun _ _ _ => ret JNull)
                         (fun _ => []) (fun _ => Ret None) (fun _ _ => ret tt)
                         JNull JNull tt)
                      (js " ") (js " { save }") Hws)).
Defined.

(** *** HTTP *)

(** Read the properties of an object literal. *)
Ltac read_properties :=
  cbn [index.get_prop];
  repeat match goal with
         | |- context [lookup_field ?k ?l] =>
             let v := eval cbv in (lookup_field k l) in
             change (lookup_field k l) with v
         end.

(** X26: A body that is falsy ([0], [false], the empty string, [null]) is
    not sent: [post], [put] and [patch] with such a body run as with no
    body at all. A request without a method is a [GET]. *)
Theorem fetch_drops_falsy_body {S : Type}
    (hostExecute : jsstring -> jsval -> jsval -> M S jsval)
    (ToString : jsval -> jsstring)
    (JSON_stringify : jsval -> outcome (option jsstring))
    (url body headers context : jsval) (s : S) :
  (truthy body = false ->
   http.post hostExecute ToString JSON_stringify url body headers context s
     = http.post hostExecute ToString JSON_stringify url JUndefined headers context s /\
   http.put hostExecute ToString JSON_stringify url body headers context s
     = http.put hostExecute ToString JSON_stringify url JUndefined headers context s /\
   http.patch hostExecute ToString JSON_stringify url body headers context s
     = http.patch hostExecute ToString JSON_stringify url JUndefined headers context s) /\
  http.fetch hostExecute ToString JSON_stringify (JObj [(js "url", url)]) context s
    = http.get hostExecute ToString JSON_stringify url JUndefined context s.
Proof.
  unfold http.post, http.put, http.patch, http.get, http.fetch.
  read_properties. split.
  - intros Hfalsy. rewrite !bind_eq. cbn [of_outcome and_then].
    destruct (truthy url); cbn [negb]; [| repeat split; reflexivity].
    rewrite !prepend_nil, !bind_eq. cbn [of_outcome and_then]. rewrite !prepend_nil.
    rewrite Hfalsy. cbn [truthy]. repeat split; reflexivity.
  - rewrite !bind_eq. cbn [of_outcome and_then].
    destruct (truthy url); reflexivity.
Qed.

Lemma fetch_drops_falsy_body_witness :
  truthy (JNum 0) = false /\
  http.post (S := unit) (fun _ request _ => ret request) (fun _ => []) mock.JSON_stringify
      (JStr (js "https://example.com")) (JNum 0) JUndefined JNull tt
    = http.post (S := unit) (fun _ request _ => ret request) (fun _ => [])
        mock.JSON_stringify (JStr (js "https://example.com")) JUndefined JUndefined JNull tt.
Proof.
  split; [reflexivity |].
  exact (proj1 (proj1 (fetch_drops_falsy_body (S := unit) (fun _ request _ => ret request)
                         (fun _ => []) mock.JSON_stringify
                         (JStr (js "https://example.com")) (JNum 0) JUndefined JNull tt)
                      eq_refl)).
Defined.

(** *** Storage *)

Lemma blank_missing_or_white (v : jsval) : missing_or_white v -> blank v = Ret true.
Proof.
  unfold blank. intros [Hfalsy | (ws & -> & Hws)].
  - rewrite Hfalsy. reflexivity.
  - destruct (truthy (JStr ws)); [| reflexivity]. cbn [negb call_trim].
    rewrite trim_white by exact Hws. reflexivity.
Qed.

Section storage_facts.
Context {S : Type}.
Variable hostExecute : jsstring -> jsval -> jsval -> M S jsval.
Variable ToString : jsval -> jsstring.

Lemma require_text_refuses (v x : jsval) (k message : jsstring) (s : S) :
  index.get_prop v k = Ret x ->
  missing_or_white x ->
  storage.require_text v k message s = MkRun (Throw (Error message)) s [].
Proof.
  intros Hx Hblank. unfold storage.require_text.
  rewrite bind_eq, Hx. cbn [of_outcome and_then].
  rewrite prepend_nil, bind_eq, (blank_missing_or_white x Hblank). reflexivity.
Qed.

Lemma require_text_passes (v x : jsval) (k message : jsstring) (s : S) :
  index.get_prop v k = Ret x ->
  present x ->
  storage.require_text v k message s = MkRun (Ret tt) s [].
Proof.
  intros Hx Hpresent. unfold storage.require_text.
  rewrite bind_eq, Hx. cbn [of_outcome and_then].
  rewrite prepend_nil, bind_eq, Hpresent. reflexivity.
Qed.

End storage_facts.

(** X27: [uploadExternal] checks the URL of the source and the three fields
    of the target in this order, and refuses the first of them that is
    missing, empty or white space only: it throws the error that names
    it, and the host is not called. *)
Theorem uploadExternal_requires_texts {S : Type}
    (hostExecute : jsstring -> jsval -> jsval -> M S jsval)
    (ToString : jsval -> jsstring)
    (source target context url app_id table_name field_name : jsval) (s : S) :
  index.get_prop source (js "url") = Ret url ->
  index.get_prop target (js "app_id") = Ret app_id ->
  index.get_prop target (js "table_name") = Ret table_name ->
  index.get_prop target (js "field_name") = Ret field_name ->
  let r := storage.uploadExternal hostExecute ToString source target context s in
  (missing_or_white url ->
   r = MkRun (Throw (Error (js "Source URL is required and cannot be empty"))) s []) /\
  (present url -> missing_or_white app_id ->
   r = MkRun (Throw (Error (js "Target app_id is required and cannot be empty"))) s []) /\
  (present url -> present app_id -> missing_or_white table_name ->
   r = MkRun (Throw (Error (js "Target table_name is required and cannot be empty")))
         s []) /\
  (present url -> present app_id -> present table_name -> missing_or_white field_name ->
   r = MkRun (Throw (Error (js "Target field_name is required and cannot be empty")))
         s []).
Proof.
  intros Hurl Happ Htable Hfield. cbv zeta. unfold storage.uploadExternal.
  split; [| split; [| split]].
  - intros Hb. rewrite bind_eq, (require_text_refuses _ _ _ _ _ Hurl Hb). reflexivity.
  - intros Hp Hb. rewrite bind_eq, (require_text_passes _ _ _ _ _ Hurl Hp).
    cbn [and_then]. rewrite prepend_nil.
    rewrite bind_eq, (require_text_refuses _ _ _ _ _ Happ Hb). reflexivity.
  - intros Hp1 Hp2 Hb. rewrite bind_eq, (require_text_passes _ _ _ _ _ Hurl Hp1).
    cbn [and_then]. rewrite prepend_nil.
    rewrite bind_eq, (require_text_passes _ _ _ _ _ Happ Hp2).
    cbn [and_then]. rewrite prepend_nil.
    rewrite bind_eq, (require_text_refuses _ _ _ _ _ Htable Hb). reflexivity.
  - intros Hp1 Hp2 Hp3 Hb. rewrite bind_eq, (require_text_passes _ _ _ _ _ Hurl Hp1).
    cbn [and_then]. rewrite prepend_nil.
    rewrite bind_eq, (require_text_passes _ _ _ _ _ Happ Hp2).
    cbn [and_then]. rewrite prepend_nil.
    rewrite bind_eq, (require_text_passes _ _ _ _ _ Htable Hp3).
    cbn [and_then]. rewrite prepend_nil.
    rewrite bind_eq, (require_text_refuses _ _ _ _ _ Hfield Hb). reflexivity.
Qed.

Lemma uploadExternal_requires_texts_witness :
  index.get_prop (JObj [(js "url", JStr (js "  "))]) (js "url") = Ret (JStr (js "  ")) /\
  missing_or_white (JStr (js "  ")) /\
  storage.uploadExternal (S := unit) (fun _ _ _ => ret JNull) (fun _ => [])
      (JObj [(js "url", JStr (js "  "))]) demo_target JNull tt
    = MkRun (Throw (Error (js "Source URL is required and cannot be empty"))) tt [].
Proof.
  assert (Hw : missing_or_white (JStr (js "  ")))
    by (right; exists (js "  "); split; [reflexivity | repeat constructor]).
  split; [reflexivity |]. split; [exact Hw |].
  exact (proj1 (uploadExternal_requires_texts (S := unit) (fun _ _ _ => ret JNull)
                  (fun _ => []) (JObj [(js "url", JStr (js "  "))]) demo_target JNull
                  (JStr (js "  ")) (JStr (js "dev.simple.system"))
                  (JStr (js "documents")) (JStr (js "attachment")) tt
                  eq_refl eq_refl eq_refl eq_refl) Hw).
Defined.

(** *** Settings *)

(** X28: [settings.get] refuses an empty application identifier and an
    empty or missing list of keys without calling the host; otherwise it
    calls the host once and returns the data of a response that is
    [ok], and throws the message of a failed response, or a text of its
    own when the response carries none. *)
Theorem settings_get_outcomes {S : Type}
    (hostExecute : jsstring -> jsval -> jsval -> M S jsval)
    (ToString : jsval -> jsstring) (appId : jsstring) (keys context : jsval) (s : S) :
  let r := settings.get hostExecute ToString appId keys context s in
  (appId = [] ->
   r = MkRun (Throw (Error (js "appId is required for settings retrieval"))) s []) /\
  (appId <> [] -> settings.no_keys keys = true ->
   r = MkRun (Throw (Error (js "setting keys are required for settings retrieval"))) s []) /\
  (appId <> [] -> settings.no_keys keys = false ->
   forall response s' t ok,
     hostExecute (js "action:settings/get")
       (JObj [(js "app_id", JStr appId); (js "keys", keys)]) context s
       = MkRun (Ret response) s' t ->
     index.get_prop response (js "ok") = Ret ok ->
     (truthy ok = true ->
      forall data, index.get_prop response (js "data") = Ret data ->
                   r = MkRun (Ret data) s' t) /\
     (truthy ok = false ->
      forall error message,
        index.get_prop response (js "error") = Ret error ->
        optional_message error = Ret message ->
        r = MkRun (Throw (Error (failure_text ToString message "Settings retrieval failed")))
              s' t)).
Proof.
  cbv zeta. unfold settings.get. split; [| split].
  - intros ->. reflexivity.
  - intros Happ Hkeys. destruct appId; [contradiction |]. cbn [truthy length Nat.eqb negb].
    rewrite Hkeys. reflexivity.
  - intros Happ Hkeys response s' t ok Hcall Hok.
    destruct appId as [| u appId]; [contradiction |]. cbn [truthy length Nat.eqb negb].
    rewrite Hkeys. rewrite bind_eq, Hcall. cbn [and_then].
    rewrite bind_eq, Hok. cbn [of_outcome and_then]. rewrite prepend_nil. split.
    + intros -> data Hdata. cbn [negb]. rewrite Hdata. cbn. rewrite app_nil_r. reflexivity.
    + intros -> error message Herr Hmsg. cbn [negb].
      rewrite bind_eq, Herr. cbn [of_outcome and_then].
      rewrite prepend_nil, bind_eq, Hmsg. cbn. rewrite app_nil_r. reflexivity.
Qed.

Lemma settings_get_outcomes_witness :
  js "app" <> [] /\
  settings.no_keys (JArr []) = true /\
  settings.get (S := unit) (fun _ _ _ => ret JNull) (fun _ => []) (js "app") (JArr []) JNull tt
    = MkRun (Throw (Error (js "setting keys are required for settings retrieval"))) tt [].
Proof.
  assert (Happ : js "app" <> []) by discriminate.
  split; [exact Happ |]. split; [reflexivity |].
  exact (proj1 (proj2 (settings_get_outcomes (S := unit) (fun _ _ _ => ret JNull)
                         (fun _ => []) (js "app") (JArr []) JNull tt)) Happ eq_refl).
Defined.


(** ** The round trip through the arena *)








(** On a surrogate without its partner the polyfills and the standard
    part: the standard encodes U+FFFD, the polyfill the number of the
    surrogate itself. *)
Example lone_surrogate_octets :
  utf8_bytes [0xDC00] = [0xEF; 0xBF; 0xBD] /\
  Polyfills.TextEncoder_encode [0xDC00] = [0xED; 0xB0; 0x80].
Proof. split; reflexivity. Qed.
